(** * RDDrone UWB driver: framing loop, session loop and start-up options

    A shallow embedding of [src/drivers/uwb/rddrone/rddrone.cpp] and
    [rddrone.h].  The driver talks to the UWB module through a serial
    descriptor; everything it does to the outside (write, select, read,
    should_exit, sleep, the clock) goes through the [Env] interface below, and
    everything it produces (publications, log lines, performance counters) is
    recorded in the driver state. *)

From Stdlib Require Import ZArith List Bool Lia.
From Stdlib.Strings Require String.
From Stdlib.Strings Require Import Ascii Byte.
Import ListNotations.
Open Scope Z_scope.

(** ** Constants *)

(** [#define BYTE_TIMEOUT_US 5000] *)
Definition BYTE_TIMEOUT_US : Z := 5000.
(** [#define MESSAGE_TIMEOUT_S 10] *)
Definition MESSAGE_TIMEOUT_S : Z := 10.
(** [#define MESSAGE_TIMEOUT_US 1] *)
Definition MESSAGE_TIMEOUT_US : Z := 1.

(** [struct timeval], as [select] receives it. *)
Record timeval := mkTimeval { tv_sec : Z; tv_usec : Z }.

Definition timeval_us (tv : timeval) : Z := tv_sec tv * 1000000 + tv_usec tv.

(** A [const uint8_t X[20] = {...}] aggregate: the listed initialisers, the
    remaining elements zero. *)
Definition uint8_array (n : nat) (init : list byte) : list byte :=
  firstn n init ++ repeat x00 (n - length init).

(** [rddrone.h], lines 55-56. *)
Definition CMD_STOP_RANGING : list byte := uint8_array 20 [x8e; x00; x11; x00].
Definition CMD_PURE_RANGING : list byte := uint8_array 20 [x8e; x00; x11; x02].

(** The four meaningful bytes of a command frame. *)
Record prefix := mkPrefix { p0 : byte; p1 : byte; p2 : byte; p3 : byte }.

Definition prefix_bytes (p : prefix) : list byte := [p0 p; p1 p; p2 p; p3 p].

(** [sizeof] of an array of [uint8_t]. *)
Definition sizeof (a : list byte) : Z := Z.of_nat (length a).

(** Modelled from the spec: [grid_msg_t] and [distance_msg_t] are not
    declared in [rddrone.h] as it stands.  The sizes are the ones the comments
    of [run] and the data model give (163 and 51 bytes), and the [stop] field
    is the terminal byte of either layout. *)
Definition sizeof_grid_msg_t : Z := 163.
Definition sizeof_distance_msg_t : Z := 51.

Definition stop (msg : list byte) : byte := last msg x00.

(** The two message buffers of the driver object. *)
Inductive msgbuf := GridSurveyMsg | DistanceResultMsg.

Definition sizeof_msg (m : msgbuf) : Z :=
  match m with
  | GridSurveyMsg => sizeof_grid_msg_t
  | DistanceResultMsg => sizeof_distance_msg_t
  end.

(** The three commands [run] writes. *)
Inductive command := GridSurvey | DistanceResult | StopRanging.

(** ** The outside world *)

(** Result of [read]: [None] is the error return (-1), [Some l] the bytes
    the call stored at the address it was given. *)
Definition bytes_read_of (r : option (list byte)) : Z :=
  match r with
  | None => -1
  | Some l => Z.of_nat (length l)
  end.

Record Env := mkEnv {
  W : Type;
  (** [write(_uart, buf, count)]: the number of bytes written (or -1). *)
  env_write : list byte -> Z -> W -> Z * W;
  (** [select(_uart + 1, &_uart_set, nullptr, nullptr, &_uart_timeout)]. *)
  env_select : timeval -> W -> Z * W;
  (** [read(_uart, p, count)]. *)
  env_read : Z -> W -> option (list byte) * W;
  (** [should_exit()]. *)
  env_should_exit : W -> bool * W;
  (** [sleep(seconds)]. *)
  env_sleep : Z -> W -> W;
  (** [hrt_absolute_time()]. *)
  env_hrt_absolute_time : W -> Z * W
}.

(** What the driver does that can be seen from outside, in program order. *)
Inductive event :=
| EvWrite (c : command) (data : list byte) (count : Z) (written : Z)
| EvSelect (tv : timeval) (ret : Z)
| EvRead (m : msgbuf) (loc : Z) (count : Z) (ret : option (list byte))
| EvShouldExit (b : bool)
| EvShortWrite (written : Z) (expected : Z)
| EvNotResponding
| EvGridFound
| EvSleep (s : Z)
| EvAttitudeUpdate
| EvPublishGrid (timestamp : Z) (msg : list byte)
| EvPublishDistance (timestamp : Z) (msg : list byte).

(** Where [run] is: at the head of the survey loop (line 105), at the head of
    the ranging loop (line 214), or returned (after line 326). *)
Inductive phase := AwaitingSurvey | Ranging | Stopped.

(** [memcpy]-like store of the bytes a [read] delivered at offset [loc]. *)
Definition store (buf : list byte) (loc : Z) (data : list byte) : list byte :=
  firstn (Z.to_nat loc) buf ++ data
    ++ skipn (Z.to_nat loc + length data) buf.

(** Modelled from the spec: [CMD_GRID_SURVEY] and [CMD_DISTANCE_RESULT],
    which [run] writes, are not declared in [rddrone.h] as it stands.  The
    external interface describes every command frame as four meaningful bytes
    followed by a zero-filled identifier, as the two arrays above are; the
    four bytes are left open. *)
Class Header := mkHeader {
  GRID_SURVEY_PREFIX : prefix;
  DISTANCE_RESULT_PREFIX : prefix
}.

Definition CMD_GRID_SURVEY `{Header} : list byte :=
  uint8_array 20 (prefix_bytes GRID_SURVEY_PREFIX).
Definition CMD_DISTANCE_RESULT `{Header} : list byte :=
  uint8_array 20 (prefix_bytes DISTANCE_RESULT_PREFIX).

Section Driver.

Context {E : Env} {hdr : Header}.

Definition cmd_bytes (c : command) : list byte :=
  match c with
  | GridSurvey => CMD_GRID_SURVEY
  | DistanceResult => CMD_DISTANCE_RESULT
  | StopRanging => CMD_STOP_RANGING
  end.

Record driver := mkDriver {
  pc : phase;
  world : W E;
  trace : list event;
  _read_count_perf : Z;
  _read_err_perf : Z;
  _grid_survey_msg : list byte;
  _distance_result_msg : list byte
}.

Definition set_pc (p : phase) (d : driver) : driver :=
  mkDriver p (world d) (trace d) (_read_count_perf d) (_read_err_perf d)
           (_grid_survey_msg d) (_distance_result_msg d).

Definition set_world (w : W E) (d : driver) : driver :=
  mkDriver (pc d) w (trace d) (_read_count_perf d) (_read_err_perf d)
           (_grid_survey_msg d) (_distance_result_msg d).

Definition log (e : event) (d : driver) : driver :=
  mkDriver (pc d) (world d) (trace d ++ [e]) (_read_count_perf d)
           (_read_err_perf d) (_grid_survey_msg d) (_distance_result_msg d).

Definition get_msg (m : msgbuf) (d : driver) : list byte :=
  match m with
  | GridSurveyMsg => _grid_survey_msg d
  | DistanceResultMsg => _distance_result_msg d
  end.

Definition set_msg (m : msgbuf) (b : list byte) (d : driver) : driver :=
  match m with
  | GridSurveyMsg =>
      mkDriver (pc d) (world d) (trace d) (_read_count_perf d)
               (_read_err_perf d) b (_distance_result_msg d)
  | DistanceResultMsg =>
      mkDriver (pc d) (world d) (trace d) (_read_count_perf d)
               (_read_err_perf d) (_grid_survey_msg d) b
  end.

(** *** A state monad over the driver object *)

Definition M (A : Type) : Type := driver -> A * driver.

Definition ret {A} (a : A) : M A := fun d => (a, d).

Definition bind {A B} (c : M A) (k : A -> M B) : M B :=
  fun d => let (a, d') := c d in k a d'.

Notation "x <- c ;; k" := (bind c (fun x => k))
  (at level 61, c at next level, right associativity).
Notation "c ;;; k" := (bind c (fun _ => k))
  (at level 61, right associativity).

Definition emit (e : event) : M unit := fun d => (tt, log e d).

Definition when (b : bool) (c : M unit) : M unit :=
  if b then c else ret tt.

Definition perf_count_read : M unit :=
  fun d => (tt, mkDriver (pc d) (world d) (trace d) (_read_count_perf d + 1)
                         (_read_err_perf d) (_grid_survey_msg d)
                         (_distance_result_msg d)).

Definition perf_count_err : M unit :=
  fun d => (tt, mkDriver (pc d) (world d) (trace d) (_read_count_perf d)
                         (_read_err_perf d + 1) (_grid_survey_msg d)
                         (_distance_result_msg d)).

(** [write(_uart, CMD, sizeof(CMD))]. *)
Definition uart_write (c : command) : M Z :=
  fun d =>
    let (written, w) :=
      env_write E (cmd_bytes c) (sizeof (cmd_bytes c)) (world d) in
    (written,
     log (EvWrite c (cmd_bytes c) (sizeof (cmd_bytes c)) written)
         (set_world w d)).

(** The write and the [PX4_ERR("Only wrote %d bytes out of %d.")] after it. *)
Definition send_command (c : command) : M unit :=
  written <- uart_write c ;;
  when (written <? sizeof (cmd_bytes c))
       (emit (EvShortWrite written (sizeof (cmd_bytes c)))).

Definition uart_select (tv : timeval) : M Z :=
  fun d =>
    let (r, w) := env_select E tv (world d) in
    (r, log (EvSelect tv r) (set_world w d)).

(** [read(_uart, &buffer[loc], count)]: the bytes delivered land in the
    message buffer at [loc]; the result is the value of [bytes_read]. *)
Definition uart_read (m : msgbuf) (loc count : Z) : M Z :=
  fun d =>
    let (r, w) := env_read E count (world d) in
    let d1 := log (EvRead m loc count r) (set_world w d) in
    (bytes_read_of r,
     match r with
     | Some data => set_msg m (store (get_msg m d1) loc data) d1
     | None => d1
     end).

Definition should_exit : M bool :=
  fun d =>
    let (b, w) := env_should_exit E (world d) in
    (b, log (EvShouldExit b) (set_world w d)).

Definition sleep (s : Z) : M unit :=
  fun d => (tt, log (EvSleep s) (set_world (env_sleep E s (world d)) d)).

Definition hrt_absolute_time : M Z :=
  fun d =>
    let (t, w) := env_hrt_absolute_time E (world d) in (t, set_world w d).

(** *** The accumulation loop (lines 132-157 and 233-258)

    [while (loc < sizeof(msg) && select(...) > 0) { ... }].  Every turn
    that goes round again adds at least one byte, so the loop is given
    fuel; [None] stands for fuel running out (see [accumulate_total]). *)
Fixpoint accumulate (fuel : nat) (m : msgbuf) (loc : Z) (tv : timeval)
  : M (option Z) :=
  match fuel with
  | O => ret None
  | S fuel' =>
      if loc <? sizeof_msg m then
        r <- uart_select tv ;;
        if r >? 0 then
          bytes_read <- uart_read m loc (sizeof_msg m - loc) ;;
          if bytes_read >? 0 then
            accumulate fuel' m (loc + bytes_read)
                       (mkTimeval 0 BYTE_TIMEOUT_US)
          else ret (Some loc)
        else ret (Some loc)
      else ret (Some loc)
  end.

(** One framing attempt: timeout set to the message timeout, cursor at 0,
    then the loop.  The result is the final value of the cursor; the fuel
    given is never used up ([frame_attempt_eq]), so the [None] branch is
    dead. *)
Definition frame_attempt (m : msgbuf) : M Z :=
  r <- accumulate (S (Z.to_nat (sizeof_msg m))) m 0
                  (mkTimeval MESSAGE_TIMEOUT_S MESSAGE_TIMEOUT_US) ;;
  ret (match r with Some loc => loc | None => 0 end).

(** [n] framing attempts one after the other, as either loop makes them. *)
Fixpoint attempts (n : nat) (m : msgbuf) (d : driver) : driver :=
  match n with
  | O => d
  | S n' => attempts n' m (snd (frame_attempt m d))
  end.

(** The acceptance test of lines 165 and 269. *)
Definition acceptable (m : msgbuf) (loc : Z) (msg : list byte) : bool :=
  (loc =? sizeof_msg m) && Byte.eqb (stop msg) x1b.

(** Lines 170-195: the grid record is filled from the survey message and
    published.  The field offsets belong to the absent declarations; the
    record is represented by the message it is copied from. *)
Definition publish_grid : M unit :=
  t <- hrt_absolute_time ;;
  emit EvAttitudeUpdate ;;;
  fun d => emit (EvPublishGrid t (_grid_survey_msg d)) d.

(** Lines 275-307. *)
Definition publish_distance : M unit :=
  t <- hrt_absolute_time ;;
  emit EvAttitudeUpdate ;;;
  fun d => emit (EvPublishDistance t (_distance_result_msg d)) d.

(** One turn of the survey loop (lines 105-168) and, when the grid is
    found, the straight-line code up to the ranging loop (170-212). *)
Definition survey_iteration : M unit :=
  send_command GridSurvey ;;;
  grid_buffer_location <- frame_attempt GridSurveyMsg ;;
  grid_found <- (fun d => (acceptable GridSurveyMsg grid_buffer_location
                                      (_grid_survey_msg d), d)) ;;
  perf_count_read ;;;
  if grid_found : bool then
    publish_grid ;;;
    emit EvGridFound ;;;
    sleep 1 ;;;
    send_command DistanceResult ;;;
    fun d => (tt, set_pc Ranging d)
  else ret tt.

(** The body of the ranging loop (lines 216-317). *)
Definition ranging_body : M unit :=
  buffer_location <- frame_attempt DistanceResultMsg ;;
  perf_count_read ;;;
  ok <- (fun d => (acceptable DistanceResultMsg buffer_location
                              (_distance_result_msg d), d)) ;;
  if ok : bool then publish_distance
  else
    perf_count_err ;;;
    when (buffer_location =? 0) (emit EvNotResponding).

(** One test of the ranging loop condition, then either the body or the
    code after the loop (lines 321-326). *)
Definition ranging_iteration : M unit :=
  stop_requested <- should_exit ;;
  if stop_requested : bool then
    send_command StopRanging ;;;
    fun d => (tt, set_pc Stopped d)
  else ranging_body.

Definition step (d : driver) : driver :=
  match pc d with
  | AwaitingSurvey => snd (survey_iteration d)
  | Ranging => snd (ranging_iteration d)
  | Stopped => d
  end.

(** [run], cut after [n] loop turns. *)
Fixpoint run_for (n : nat) (d : driver) : driver :=
  match n with
  | O => d
  | S n' => run_for n' (step d)
  end.

(** The driver object when [run] is entered: both message structs are
    zero-initialised members. *)
Definition start (w : W E) : driver :=
  mkDriver AwaitingSurvey w [] 0 0
           (repeat x00 (Z.to_nat sizeof_grid_msg_t))
           (repeat x00 (Z.to_nat sizeof_distance_msg_t)).

End Driver.

Arguments driver : clear implicits.
Arguments M : clear implicits.
Arguments start : clear implicits.

(** ** Two concrete worlds *)

(** *** A serial line with a clock

    The device's bytes are queued with their arrival times (microseconds).
    [select] returns at once when a byte is already there, waits for the next
    one when it arrives before the timeout runs out, and otherwise lets the
    whole timeout pass.  [read] hands over what has arrived, at most [count]
    bytes.  Cancellation is requested at a fixed time. *)
Module SerialLine.

Record line := mkLine {
  now : Z;
  rx : list (Z * byte);
  exit_at : Z
}.

Definition at_time (t : Z) (l : line) : line :=
  mkLine t (rx l) (exit_at l).

Definition select (tv : timeval) (l : line) : Z * line :=
  match rx l with
  | [] => (0, at_time (now l + timeval_us tv) l)
  | (t, _) :: _ =>
      if t <=? now l then (1, l)
      else if t - now l <? timeval_us tv then (1, at_time t l)
      else (0, at_time (now l + timeval_us tv) l)
  end.

Fixpoint arrived (t : Z) (n : nat) (q : list (Z * byte)) : list byte :=
  match n, q with
  | S n', (t', b) :: q' => if t' <=? t then b :: arrived t n' q' else []
  | _, _ => []
  end.

Definition read (count : Z) (l : line) : option (list byte) * line :=
  let data := arrived (now l) (Z.to_nat count) (rx l) in
  (Some data, mkLine (now l) (skipn (length data) (rx l)) (exit_at l)).

Definition env : Env :=
  mkEnv line
        (fun _ count l => (count, l))
        select
        read
        (fun l => (exit_at l <=? now l, l))
        (fun s l => at_time (now l + s * 1000000) l)
        (fun l => (now l, l)).

(** A frame put on the line: byte [i] arrives at time [nth i times]. *)
Definition timed (times : list Z) (frame : list byte) : list (Z * byte) :=
  combine times frame.

(** Every gap between two consecutive arrivals is shorter than [gap]. *)
Fixpoint gaps_below (gap : Z) (prev : Z) (times : list Z) : Prop :=
  match times with
  | [] => True
  | t :: rest => prev <= t /\ t - prev < gap /\ gaps_below gap t rest
  end.

End SerialLine.

(** *** A scripted world

    Every call takes its answer from the head of its own list; when the list
    is used up [select] times out, [read] delivers nothing, [write] takes
    everything and [should_exit] says yes. *)
Module Scripted.

Record script := mkScript {
  selects : list Z;
  reads : list (option (list byte));
  writes : list Z;
  exits : list bool;
  clock : Z
}.

Definition select (_ : timeval) (s : script) : Z * script :=
  match selects s with
  | [] => (0, s)
  | r :: q => (r, mkScript q (reads s) (writes s) (exits s) (clock s))
  end.

Definition read (_ : Z) (s : script) : option (list byte) * script :=
  match reads s with
  | [] => (Some [], s)
  | r :: q => (r, mkScript (selects s) q (writes s) (exits s) (clock s))
  end.

Definition write (_ : list byte) (count : Z) (s : script) : Z * script :=
  match writes s with
  | [] => (count, s)
  | r :: q => (r, mkScript (selects s) (reads s) q (exits s) (clock s))
  end.

Definition should_exit (s : script) : bool * script :=
  match exits s with
  | [] => (true, s)
  | b :: q => (b, mkScript (selects s) (reads s) (writes s) q (clock s))
  end.

Definition tick (s : script) : Z * script :=
  (clock s,
   mkScript (selects s) (reads s) (writes s) (exits s) (clock s + 1)).

Definition env : Env :=
  mkEnv script write select read should_exit (fun _ s => s) tick.

End Scripted.

(** ** Start-up: [int_to_speed] and [RDDrone::instantiate] *)

(** The [termios] speeds [int_to_speed] can return. *)
Inductive speed_t := B9600 | B19200 | B38400 | B57600 | B115200.

(** [#define DEFAULT_BAUD B115200] *)
Definition DEFAULT_BAUD : speed_t := B115200.

Definition int_to_speed (baud : Z) : speed_t :=
  if baud =? 9600 then B9600
  else if baud =? 19200 then B19200
  else if baud =? 38400 then B38400
  else if baud =? 57600 then B57600
  else if baud =? 115200 then B115200
  else DEFAULT_BAUD.

(** Lines the start-up code prints. *)
Inductive diag :=
| UnrecognizedFlag (ch : Ascii.ascii)
| UsageDeviceNameNotProvided
| UsageBaudrateNotProvided
| FailedToStart
| Constructing (device : option String.string).

(** [px4_get_parameter_value(option_arg, baudrate)] belongs to the platform
    layer: what it leaves in [baudrate] for a given argument is left open. *)
Class Platform := mkPlatform {
  px4_get_parameter_value : String.string -> Z
}.

Section Instantiate.

Context {platform : Platform}.

(** The locals of [instantiate]. *)
Record locals := mkLocals {
  device_name : option String.string;
  error_flag : bool;
  baudrate : Z;
  printed : list diag
}.

(** The body of the [switch] for one option [px4_getopt] returned. *)
Definition handle_option (o : Ascii.ascii * String.string) (l : locals)
  : locals :=
  let (ch, option_arg) := o in
  if Ascii.eqb ch "d"%char then
    mkLocals (Some option_arg) (error_flag l) (baudrate l) (printed l)
  else if Ascii.eqb ch "b"%char then
    mkLocals (device_name l) (error_flag l)
             (px4_get_parameter_value option_arg) (printed l)
  else
    mkLocals (device_name l) true (baudrate l)
             (printed l ++ [UnrecognizedFlag ch]).

(** The [while ((ch = px4_getopt(...)) != EOF)] loop, over the options
    [px4_getopt] yields before [EOF]. *)
Fixpoint getopt_loop (opts : list (Ascii.ascii * String.string))
                     (l : locals) : locals :=
  match opts with
  | [] => l
  | o :: rest => getopt_loop rest (handle_option o l)
  end.

Definition check_device_name (l : locals) : locals :=
  if negb (error_flag l) && match device_name l with None => true | _ => false end
  then mkLocals (device_name l) true (baudrate l)
                (printed l ++ [UsageDeviceNameNotProvided])
  else l.

Definition check_baudrate (l : locals) : locals :=
  if negb (error_flag l) && (baudrate l =? 0)
  then mkLocals (device_name l) true (baudrate l)
                (printed l ++ [UsageBaudrateNotProvided])
  else l.

(** [instantiate]: [None] is [nullptr]; [Some (name, speed)] are the
    arguments of [new RDDrone(device_name, int_to_speed(baudrate))], the
    name being a pointer that may be null as far as its type goes. *)
Definition instantiate (opts : list (Ascii.ascii * String.string))
  : option (option String.string * speed_t) * list diag :=
  let l := getopt_loop opts (mkLocals None false 0 []) in
  let l := check_device_name l in
  let l := check_baudrate l in
  if error_flag l then (None, printed l ++ [FailedToStart])
  else (Some (device_name l, int_to_speed (baudrate l)),
        printed l ++ [Constructing (device_name l)]).

End Instantiate.

(** The argument of the last occurrence of option [c] on the command line. *)
Fixpoint option_value (c : ascii) (opts : list (ascii * String.string))
  : option String.string :=
  match opts with
  | [] => None
  | (ch, arg) :: rest =>
      match option_value c rest with
      | Some a => Some a
      | None => if Ascii.eqb ch c then Some arg else None
      end
  end.

(** The flags the [switch] of [instantiate] has a case for. *)
Definition recognized (ch : ascii) : bool :=
  Ascii.eqb ch "d"%char || Ascii.eqb ch "b"%char.

Definition unrecognized_flag_present (opts : list (ascii * String.string))
  : bool :=
  existsb (fun o => negb (recognized (fst o))) opts.

(** The baud rates [int_to_speed] has a case for. *)
Definition supported_baud (v : Z) : Prop :=
  In v [9600; 19200; 38400; 57600; 115200].

Definition speed_value (s : speed_t) : Z :=
  match s with
  | B9600 => 9600
  | B19200 => 19200
  | B38400 => 38400
  | B57600 => 57600
  | B115200 => 115200
  end.

(** ** Reading traces *)

Definition is_wait (e : event) : bool :=
  match e with
  | EvSelect _ _ | EvRead _ _ _ _ => true
  | _ => false
  end.

Definition is_publish (e : event) : bool :=
  match e with
  | EvPublishGrid _ _ | EvPublishDistance _ _ => true
  | _ => false
  end.

Definition command_eqb (a b : command) : bool :=
  match a, b with
  | GridSurvey, GridSurvey
  | DistanceResult, DistanceResult
  | StopRanging, StopRanging => true
  | _, _ => false
  end.

Definition is_write_of (c : command) (e : event) : bool :=
  match e with
  | EvWrite c' _ _ _ => command_eqb c c'
  | _ => false
  end.

Definition is_not_responding (e : event) : bool :=
  match e with
  | EvNotResponding => true
  | _ => false
  end.

Definition is_cancel (e : event) : bool :=
  match e with
  | EvShouldExit true => true
  | _ => false
  end.

(** The records handed to the publications, oldest first. *)
Definition published (t : list event) : list event := filter is_publish t.

(** How many times command [c] was written. *)
Definition sent (c : command) (t : list event) : nat :=
  length (filter (is_write_of c) t).

(** How many times "UWB module is not responding." was logged. *)
Definition warnings (t : list event) : nat :=
  length (filter is_not_responding t).

(** How many times [should_exit()] answered yes. *)
Definition cancellations (t : list event) : nat :=
  length (filter is_cancel t).

(** The contract of [read]: never more than [count] bytes. *)
Definition read_within_count (E : Env) : Prop :=
  forall count w, 0 <= count -> bytes_read_of (fst (env_read E count w)) <= count.

(** The trace of one command write that returned [written]. *)
Definition write_events (c : command) (data : list byte) (written : Z)
  : list event :=
  EvWrite c data (sizeof data) written
    :: (if written <? sizeof data then [EvShortWrite written (sizeof data)]
        else []).

(** The cursor after the events of an accumulation loop entered at [c]: only
    a read that delivered something moves it. *)
Fixpoint cursor_after (c : Z) (evs : list event) : Z :=
  match evs with
  | [] => c
  | EvRead _ _ _ r :: rest => cursor_after (c + Z.max 0 (bytes_read_of r)) rest
  | _ :: rest => cursor_after c rest
  end.

(** The events of one accumulation loop, followed from cursor [c]: a wait is
    only issued below the message size, a read asks for exactly the room that
    is left, and the cursor it leaves behind is within the message. *)
Fixpoint cursor_respected (m : msgbuf) (c : Z) (evs : list event) : Prop :=
  match evs with
  | [] => True
  | EvSelect _ _ :: rest =>
      0 <= c < sizeof_msg m /\ cursor_respected m c rest
  | EvRead m' loc count r :: rest =>
      m' = m /\ loc = c /\ count = sizeof_msg m - c /\ 0 < count /\
      c + Z.max 0 (bytes_read_of r) <= sizeof_msg m /\
      cursor_respected m (c + Z.max 0 (bytes_read_of r)) rest
  | _ => False
  end.

(** What the accumulation loop can change: the world, the trace (by waits
    and reads only) and the message it fills. *)
Record only_waits {E : Env} (d d' : driver E) (evs : list event) : Prop := {
  ow_pc : pc d' = pc d;
  ow_count : _read_count_perf d' = _read_count_perf d;
  ow_err : _read_err_perf d' = _read_err_perf d;
  ow_trace : trace d' = trace d ++ evs;
  ow_waits : Forall (fun e => is_wait e = true) evs
}.

(** The bytes of a command write that the device took: [write] returns how
    many, counted from the front of the array ("Only wrote %d bytes out of
    %d."). *)
Definition taken (e : event) : list byte :=
  match e with
  | EvWrite _ data _ written => firstn (Z.to_nat written) data
  | _ => []
  end.

(** A command write that hands [write] the whole array: twenty bytes, the
    last sixteen of them zero, for stop-ranging with the four bytes of the
    header in front; the device has all of them when [write] returns the
    count it was given. *)
Definition full_frame_write `{Header} (e : event) : Prop :=
  match e with
  | EvWrite c data count written =>
      data = cmd_bytes c /\ count = 20 /\ length data = 20%nat /\
      skipn 4 data = repeat x00 16 /\
      (c = StopRanging -> firstn 4 data = [x8e; x00; x11; x00]) /\
      (written = count -> taken e = data)
  | _ => True
  end.

(** The command writes of a trace, with the errors logged for those that
    came short. *)
Definition is_command_io (e : event) : bool :=
  match e with
  | EvWrite _ _ _ _ | EvShortWrite _ _ => true
  | _ => false
  end.

Definition command_io (t : list event) : list event :=
  filter is_command_io t.

(** The commands written, oldest first, each with what [write] returned. *)
Definition written_frames (t : list event) : list (command * Z) :=
  flat_map (fun e => match e with
                     | EvWrite c _ _ written => [(c, written)]
                     | _ => []
                     end) t.

(** What the write sites of lines 107-111, 206-210 and 322-326 leave in the
    trace for the commands [ws] and the values [write] returned for them. *)
Definition command_writes `{Header} (ws : list (command * Z)) : list event :=
  flat_map (fun cw => write_events (fst cw) (cmd_bytes (fst cw)) (snd cw)) ws.

(** The commands written after the survey loop: the ranging command on the
    way into the ranging loop, the stop command behind it. *)
Definition commands_due (p : phase) : list command :=
  match p with
  | AwaitingSurvey => []
  | Ranging => [DistanceResult]
  | Stopped => [DistanceResult; StopRanging]
  end.

(** The survey attempt made from [d] (command sent, frame awaited) fails the
    acceptance test. *)
Definition survey_attempt_rejected {E : Env} `{Header} (d : driver E) : Prop :=
  let d1 := snd (send_command GridSurvey d) in
  acceptable GridSurveyMsg (fst (frame_attempt GridSurveyMsg d1))
             (_grid_survey_msg (snd (frame_attempt GridSurveyMsg d1)))
  = false.

(** What the trace of a session looks like with respect to cancellation:
    before [run] has returned no cancellation was seen and no stop command
    written; once it has, the trace ends with the one cancellation and the
    one write of the stop command. *)
Definition cancellation_shape {E : Env} (d : driver E) : Prop :=
  match pc d with
  | Stopped =>
      exists t0 written,
        trace d = t0 ++ EvShouldExit true
                     :: write_events StopRanging CMD_STOP_RANGING written /\
        cancellations t0 = 0%nat /\ sent StopRanging t0 = 0%nat
  | _ => cancellations (trace d) = 0%nat /\ sent StopRanging (trace d) = 0%nat
  end.

(** C3 as the specification words it: a read of zero bytes in the middle of
    a frame sends the accumulation loop back to waiting for the next byte,
    with the attempt still on. *)
Definition zero_read_resumes_waiting {E : Env}
    (fuel : nat) (m : msgbuf) (loc : Z) (tv : timeval) (d : driver E) : Prop :=
  let (r, d1) := uart_select tv d in
  let (n, d2) := uart_read m loc (sizeof_msg m - loc) d1 in
  loc < sizeof_msg m -> r > 0 -> n = 0 ->
  accumulate (S fuel) m loc tv d
  = accumulate fuel m loc (mkTimeval 0 BYTE_TIMEOUT_US) d2.

(** ** Sessions to try the driver on *)
Module Examples.

(** Some prefix bytes for the two commands the header leaves open; any
    four bytes would do. *)
Definition header : Header :=
  mkHeader (mkPrefix x8e x00 x11 x03) (mkPrefix x8e x00 x11 x02).

(** A distance result: 50 bytes and the stop byte. *)
Definition distance_frame : list byte :=
  [x8e; x00; x30; x01; x2b; x00] ++ repeat x00 44 ++ [x1b].

(** The driver at the head of the ranging loop, counters and messages
    cleared, in a scripted world. *)
Definition ranging (s : Scripted.script) : driver Scripted.env :=
  mkDriver (E := Scripted.env) Ranging s [] 0 0
           (repeat x00 163) (repeat x00 51).

(** The device stays silent and nobody cancels for three turns. *)
Definition silent : Scripted.script :=
  Scripted.mkScript [] [] [] [false; false; false] 0.

(** Five survey attempts, each getting one byte and then a gap. *)
Definition five_aborted : Scripted.script :=
  Scripted.mkScript [1; 0; 1; 0; 1; 0; 1; 0; 1; 0]
                    (repeat (Some [x8e]) 5) [] [] 0.

(** A whole distance result handed over by one read. *)
Definition one_result : Scripted.script :=
  Scripted.mkScript [1] [Some distance_frame] [] [false] 0.

(** The same result with a wrong terminal byte. *)
Definition one_bad_result : Scripted.script :=
  Scripted.mkScript [1] [Some (removelast distance_frame ++ [x00])] []
                    [false] 0.

(** A whole, all-zero survey answer with the stop byte. *)
Definition one_survey : Scripted.script :=
  Scripted.mkScript [1] [Some (repeat x00 162 ++ [x1b])] [] [] 0.

(** A whole session: the survey answer, one distance result, then the
    cancellation. *)
Definition whole_session : Scripted.script :=
  Scripted.mkScript [1; 1]
                    [Some (repeat x00 162 ++ [x1b]); Some distance_frame] []
                    [false; true] 0.

(** The first byte of a distance result is in; the next read delivers
    nothing, the one after it the other fifty bytes. *)
Definition stalled : driver Scripted.env :=
  mkDriver (E := Scripted.env) Ranging
           (Scripted.mkScript [1; 1] [Some []; Some (tl distance_frame)] []
                              [false] 0)
           [] 0 0 (repeat x00 163) (x8e :: repeat x00 50).

(** A distance result on the timed line: the first byte after 100
    microseconds, one byte every millisecond from then on, and the first
    byte of the next message right behind. *)
Definition arrival_times : list Z :=
  map (fun i => 100 + 1000 * Z.of_nat i) (seq 0 51).

Definition on_the_line : driver SerialLine.env :=
  mkDriver (E := SerialLine.env) Ranging
           (SerialLine.mkLine 0
              (SerialLine.timed arrival_times distance_frame ++ [(50200, x8e)])
              1000000000)
           [] 0 0 (repeat x00 163) (repeat x00 51).

(** The same result 25 seconds later, on a line that was silent until
    then. *)
Definition late_times : list Z := map (Z.add 25000000) arrival_times.

Definition late_on_the_line : driver SerialLine.env :=
  mkDriver (E := SerialLine.env) Ranging
           (SerialLine.mkLine 0 (SerialLine.timed late_times distance_frame)
                              1000000000)
           [] 0 0 (repeat x00 163) (repeat x00 51).

Import String.StringSyntax.
Local Open Scope string_scope.

(** A platform on which the two baud rate arguments used below resolve to
    their values, and anything else to 0. *)
Definition platform : Platform :=
  mkPlatform (fun arg =>
                if String.eqb arg "57600" then 57600
                else if String.eqb arg "230400" then 230400
                else 0).

(** [uwb start -d /dev/ttyS2 -b 230400] and [uwb start -d /dev/ttyS2]. *)
Definition unsupported_rate : list (ascii * String.string) :=
  [("d"%char, "/dev/ttyS2"); ("b"%char, "230400")].

Definition no_rate : list (ascii * String.string) :=
  [("d"%char, "/dev/ttyS2")].

End Examples.

(** ** Further readings of traces *)

Definition is_poll (e : event) : bool :=
  match e with
  | EvShouldExit _ => true
  | _ => false
  end.

(** How many times [should_exit()] was called. *)
Definition polls (t : list event) : nat := length (filter is_poll t).

Definition is_distance_record (e : event) : bool :=
  match e with
  | EvPublishDistance _ _ => true
  | _ => false
  end.

(** The timeouts handed to [select], in order. *)
Fixpoint wait_timeouts (evs : list event) : list timeval :=
  match evs with
  | [] => []
  | EvSelect tv _ :: rest => tv :: wait_timeouts rest
  | _ :: rest => wait_timeouts rest
  end.

(** The time, in microseconds, the waits of a trace can take at most. *)
Definition waited (evs : list event) : Z :=
  fold_right (fun tv acc => timeval_us tv + acc) 0 (wait_timeouts evs).

(** The bytes the reads of a trace delivered, in order. *)
Fixpoint received (evs : list event) : list byte :=
  match evs with
  | [] => []
  | EvRead _ _ _ (Some data) :: rest => data ++ received rest
  | _ :: rest => received rest
  end.

(** The books of the two performance counters: errors are among the counted
    attempts, warnings among the errors, and every counted attempt is a
    survey attempt (one command written each), a published distance record
    or an error; the grid record is the one publication that ends a survey
    attempt. *)
Definition accounted {E : Env} (d : driver E) : Prop :=
  0 <= _read_err_perf d <= _read_count_perf d /\
  Z.of_nat (warnings (trace d)) <= _read_err_perf d /\
  Z.of_nat (length (published (trace d))) + _read_err_perf d
    + Z.of_nat (sent GridSurvey (trace d))
  = _read_count_perf d
    + match pc d with AwaitingSurvey => 0 | _ => 1 end.

(** The order of a session: nothing is published, the ranging command is
    not written and [should_exit()] is not called before the survey is
    acquired; from then on the ranging command has been written once and the
    publications are the grid record followed by distance records only. *)
Definition session_order {E : Env} (d : driver E) : Prop :=
  match pc d with
  | AwaitingSurvey =>
      published (trace d) = [] /\
      sent DistanceResult (trace d) = 0%nat /\
      polls (trace d) = 0%nat
  | _ =>
      sent DistanceResult (trace d) = 1%nat /\
      exists t msg rest,
        published (trace d) = EvPublishGrid t msg :: rest /\
        Forall (fun e => is_distance_record e = true) rest
  end.

(** ** Start-up, continued: what is printed, and the constructor *)

(** The flags of a command line that the [switch] has no case for, in
    order. *)
Definition unrecognized_flags (opts : list (ascii * String.string))
  : list ascii :=
  map fst (filter (fun o => negb (recognized (fst o))) opts).

(** The serial-port side of the platform, as the constructor uses it.  Of
    [struct termios] only [c_oflag] is touched by the driver itself; the
    other fields are whatever the platform keeps there. *)
Class Tty := mkTty {
  termios_rest : Type;
  (** [struct termios uart_config {}]. *)
  termios_zero : Z * termios_rest;
  (** The [ONLCR] bit mask of [c_oflag]. *)
  ONLCR : Z;
  (** [open(device_name, O_RDWR | O_NOCTTY)]. *)
  sys_open : option String.string -> Z;
  (** [tcgetattr(fd, &cfg)]: the return value and the struct as it leaves
      it. *)
  sys_tcgetattr : Z -> Z * termios_rest -> Z * (Z * termios_rest);
  (** [cfsetispeed(&cfg, speed)] and [cfsetospeed(&cfg, speed)]. *)
  sys_cfsetispeed : Z * termios_rest -> speed_t -> Z * (Z * termios_rest);
  sys_cfsetospeed : Z * termios_rest -> speed_t -> Z * (Z * termios_rest);
  (** [tcsetattr(fd, TCSANOW, &cfg)]. *)
  sys_tcsetattr : Z -> Z * termios_rest -> Z
}.

Definition termios `{Tty} : Type := (Z * termios_rest)%type.

Definition c_oflag `{Tty} (cfg : termios) : Z := fst cfg.

(** [uart_config.c_oflag &= ~ONLCR].  On a flag word that is not negative
    the conjunction with the complement is the same at every width of
    [tcflag_t]. *)
Definition clear_onlcr `{Tty} (cfg : termios) : termios :=
  (Z.land (fst cfg) (Z.lnot ONLCR), snd cfg).

(** The five [err(1, ...)] exits of the constructor. *)
Inductive fatal :=
| CouldNotOpen (device_name : option String.string)
| FailedToGetAttr
| FailedToSetInputSpeed
| FailedToSetOutputSpeed
| FailedToSetAttr.

(** The system calls of the constructor, with their arguments. *)
Inductive tty_call `{Tty} :=
| CallOpen (device_name : option String.string)
| CallTcgetattr (fd : Z)
| CallCfsetispeed (cfg : termios) (speed : speed_t)
| CallCfsetospeed (cfg : termios) (speed : speed_t)
| CallTcsetattr (fd : Z) (cfg : termios).

(** The order in which the constructor makes its calls. *)
Inductive call_kind := KOpen | KGetattr | KIspeed | KOspeed | KSetattr.

Definition kind_of `{Tty} (c : tty_call) : call_kind :=
  match c with
  | CallOpen _ => KOpen
  | CallTcgetattr _ => KGetattr
  | CallCfsetispeed _ _ => KIspeed
  | CallCfsetospeed _ _ => KOspeed
  | CallTcsetattr _ _ => KSetattr
  end.

(** The call an [err] exit blames. *)
Definition blamed (e : fatal) : call_kind :=
  match e with
  | CouldNotOpen _ => KOpen
  | FailedToGetAttr => KGetattr
  | FailedToSetInputSpeed => KIspeed
  | FailedToSetOutputSpeed => KOspeed
  | FailedToSetAttr => KSetattr
  end.

(** What a call of the constructor returned: the platform's answer to the
    call with the arguments it was made with ([tcgetattr] is always handed
    the zeroed struct). *)
Definition returned `{Tty} (c : tty_call) : Z :=
  match c with
  | CallOpen device_name => sys_open device_name
  | CallTcgetattr fd => fst (sys_tcgetattr fd termios_zero)
  | CallCfsetispeed cfg speed => fst (sys_cfsetispeed cfg speed)
  | CallCfsetospeed cfg speed => fst (sys_cfsetospeed cfg speed)
  | CallTcsetattr fd cfg => sys_tcsetattr fd cfg
  end.

Section Constructor.

Context {tty : Tty}.

(** [RDDrone::RDDrone(device_name, baudrate)], lines 59-87: the calls made,
    and either the [err] exit taken or the descriptor kept in [_uart]. *)
Definition RDDrone_new (device_name : option String.string)
    (baudrate : speed_t) : list tty_call * (fatal + Z) :=
  let _uart := sys_open device_name in
  let calls := [CallOpen device_name] in
  if _uart <? 0 then (calls, inl (CouldNotOpen device_name)) else
  let (ret, uart_config) := sys_tcgetattr _uart termios_zero in
  let calls := calls ++ [CallTcgetattr _uart] in
  if ret <? 0 then (calls, inl FailedToGetAttr) else
  let uart_config := clear_onlcr uart_config in
  let calls := calls ++ [CallCfsetispeed uart_config baudrate] in
  let (ret, uart_config) := sys_cfsetispeed uart_config baudrate in
  if ret <? 0 then (calls, inl FailedToSetInputSpeed) else
  let calls := calls ++ [CallCfsetospeed uart_config baudrate] in
  let (ret, uart_config) := sys_cfsetospeed uart_config baudrate in
  if ret <? 0 then (calls, inl FailedToSetOutputSpeed) else
  let calls := calls ++ [CallTcsetattr _uart uart_config] in
  let ret := sys_tcsetattr _uart uart_config in
  if ret <? 0 then (calls, inl FailedToSetAttr) else
  (calls, inr _uart).

(** [instantiate] with the [new RDDrone(...)] it ends in carried out:
    [None] is [nullptr], with no call made. *)
Definition instantiate_new `{Platform}
    (opts : list (ascii * String.string))
  : option (list tty_call * (fatal + Z)) :=
  match fst (instantiate opts) with
  | None => None
  | Some (device_name, speed) => Some (RDDrone_new device_name speed)
  end.

End Constructor.

(** ** More sessions to try the driver on *)
Module MoreExamples.

(** A survey answer: 162 bytes and the stop byte. *)
Definition survey_frame : list byte :=
  [x8e; x00; x9f; x03] ++ repeat x00 158 ++ [x1b].

(** The survey answer, one byte every 200 microseconds, and a distance
    result half a millisecond behind it. *)
Definition survey_times : list Z :=
  map (fun i => 100 + 200 * Z.of_nat i) (seq 0 163).

Definition result_times : list Z :=
  map (fun i => 33000 + 1000 * Z.of_nat i) (seq 0 51).

Definition survey_then_result : driver SerialLine.env :=
  mkDriver (E := SerialLine.env) AwaitingSurvey
           (SerialLine.mkLine 0
              (SerialLine.timed survey_times survey_frame
               ++ SerialLine.timed result_times Examples.distance_frame ++ [])
              1000000000)
           [] 0 0 (repeat x00 163) (repeat x00 51).

(** Twenty bytes of a distance result, forty milliseconds of silence, then
    a whole distance result.  The message still holds an older result. *)
Definition cut_short : list byte := firstn 20 Examples.distance_frame.

Definition cut_times : list Z :=
  map (fun i => 100 + 1000 * Z.of_nat i) (seq 0 20).

Definition after_gap_times : list Z :=
  map (fun i => 60000 + 1000 * Z.of_nat i) (seq 0 51).

Definition older_result : list byte := repeat xff 50 ++ [x1b].

Definition gap_then_result : driver SerialLine.env :=
  mkDriver (E := SerialLine.env) Ranging
           (SerialLine.mkLine 0
              (SerialLine.timed cut_times cut_short
               ++ SerialLine.timed after_gap_times Examples.distance_frame
               ++ [])
              1000000000)
           [] 0 0 (repeat x00 163) older_result.



(** A line on which nothing ever arrives, with cancellation requested from
    the start. *)
Definition dead_line : SerialLine.line := SerialLine.mkLine 0 [] 0.

(** A port that opens and refuses the input speed. *)
Definition no_input_speed : Tty :=
  mkTty unit (0, tt) 4
        (fun _ => 3)
        (fun _ _ => (0, (5, tt)))
        (fun cfg _ => (-1, cfg))
        (fun cfg _ => (0, cfg))
        (fun _ _ => 0).

(** A port on which every call succeeds; [tcgetattr] reports [OPOST] and
    [ONLCR] set (1 and 4). *)
Definition tty : Tty :=
  mkTty unit (0, tt) 4
        (fun _ => 3)
        (fun _ _ => (0, (5, tt)))
        (fun cfg _ => (0, cfg))
        (fun cfg _ => (0, cfg))
        (fun _ _ => 0).

(** A whole session in which the write of the ranging command comes short:
    [write] takes 20, 7 and 20 bytes. *)
Definition short_write : Scripted.script :=
  Scripted.mkScript [1; 1]
                    [Some survey_frame; Some Examples.distance_frame]
                    [20; 7; 20] [false; true] 0.

End MoreExamples.

(** ** Facts about the driver loop *)

Lemma filter_none {A} (f g : A -> bool) (l : list A) :
  (forall a, g a = true -> f a = false) ->
  Forall (fun a => g a = true) l -> filter f l = [].
Proof.
  intros Hfg Hl. induction Hl as [|a l Ha _ IH]; simpl.
  - reflexivity.
  - rewrite (Hfg a Ha). exact IH.
Qed.

Lemma store_length (buf data : list byte) (loc : Z) :
  0 <= loc ->
  loc + Z.of_nat (length data) <= Z.of_nat (length buf) ->
  length (store buf loc data) = length buf.
Proof.
  intros Hloc Hfit. unfold store.
  rewrite !length_app, length_firstn, length_skipn. lia.
Qed.

Lemma published_app t1 t2 : published (t1 ++ t2) = published t1 ++ published t2.
Proof. apply filter_app. Qed.

Lemma sent_app c t1 t2 : sent c (t1 ++ t2) = (sent c t1 + sent c t2)%nat.
Proof. unfold sent. now rewrite filter_app, length_app. Qed.

Lemma warnings_app t1 t2 : warnings (t1 ++ t2) = (warnings t1 + warnings t2)%nat.
Proof. unfold warnings. now rewrite filter_app, length_app. Qed.

Lemma cancellations_app t1 t2 :
  cancellations (t1 ++ t2) = (cancellations t1 + cancellations t2)%nat.
Proof. unfold cancellations. now rewrite filter_app, length_app. Qed.

Section Waits.

Variable evs : list event.
Hypothesis Hwaits : Forall (fun e => is_wait e = true) evs.

Lemma waits_published : published evs = [].
Proof. apply (filter_none _ is_wait); auto. now intros []. Qed.

Lemma waits_sent c : sent c evs = 0%nat.
Proof.
  unfold sent. rewrite (filter_none _ is_wait); auto. now intros [].
Qed.

Lemma waits_warnings : warnings evs = 0%nat.
Proof.
  unfold warnings. rewrite (filter_none _ is_wait); auto. now intros [].
Qed.

Lemma waits_cancellations : cancellations evs = 0%nat.
Proof.
  unfold cancellations. rewrite (filter_none _ is_wait); auto. now intros [].
Qed.

End Waits.

Lemma write_events_published c data w : published (write_events c data w) = [].
Proof. unfold write_events. now destruct (w <? sizeof data). Qed.

Lemma write_events_warnings c data w : warnings (write_events c data w) = 0%nat.
Proof. unfold write_events. now destruct (w <? sizeof data). Qed.

Lemma write_events_cancellations c data w :
  cancellations (write_events c data w) = 0%nat.
Proof. unfold write_events. now destruct (w <? sizeof data). Qed.

Lemma write_events_sent c c' data w :
  sent c (write_events c' data w) = if command_eqb c c' then 1%nat else 0%nat.
Proof.
  unfold write_events, sent. cbn [filter is_write_of].
  destruct (command_eqb c c'), (w <? sizeof data); reflexivity.
Qed.

Lemma acceptable_iff m loc msg :
  acceptable m loc msg = true <-> loc = sizeof_msg m /\ stop msg = x1b.
Proof.
  unfold acceptable. rewrite andb_true_iff, Z.eqb_eq.
  split; intros [H1 H2]; split; auto.
  - now apply Byte.byte_dec_bl.
  - now apply Byte.byte_dec_lb.
Qed.

Lemma not_acceptable_iff m loc msg :
  acceptable m loc msg = false <-> ~ (loc = sizeof_msg m /\ stop msg = x1b).
Proof.
  rewrite <- acceptable_iff. destruct (acceptable m loc msg); split; intros;
    congruence.
Qed.

Ltac driver_fields :=
  cbn [pc world trace _read_count_perf _read_err_perf _grid_survey_msg
       _distance_result_msg fst snd].

Ltac run_actions :=
  repeat progress
    (unfold bind, ret, when, emit, perf_count_read, perf_count_err,
       publish_grid, publish_distance, hrt_absolute_time, sleep, log,
       set_world, set_pc;
     driver_fields).

Section DriverFacts.

Context {E : Env} {hdr : Header}.

(** The primitive actions, one equation each. *)

Lemma uart_select_eq tv (d : driver E) :
  uart_select tv d =
  (fst (env_select E tv (world d)),
   log (EvSelect tv (fst (env_select E tv (world d))))
       (set_world (snd (env_select E tv (world d))) d)).
Proof. unfold uart_select. destruct (env_select E tv (world d)); reflexivity. Qed.

Lemma uart_read_eq m loc count (d : driver E) :
  uart_read m loc count d =
  let r := fst (env_read E count (world d)) in
  let d1 := log (EvRead m loc count r)
                (set_world (snd (env_read E count (world d))) d) in
  (bytes_read_of r,
   match r with
   | Some data => set_msg m (store (get_msg m d1) loc data) d1
   | None => d1
   end).
Proof. unfold uart_read. destruct (env_read E count (world d)); reflexivity. Qed.

Lemma accumulate_unfold fuel m loc tv (d : driver E) :
  accumulate (S fuel) m loc tv d =
  if loc <? sizeof_msg m then
    let (r, d1) := uart_select tv d in
    if r >? 0 then
      let (bytes_read, d2) := uart_read m loc (sizeof_msg m - loc) d1 in
      if bytes_read >? 0 then
        accumulate fuel m (loc + bytes_read) (mkTimeval 0 BYTE_TIMEOUT_US) d2
      else (Some loc, d2)
    else (Some loc, d1)
  else (Some loc, d).
Proof.
  cbn [accumulate]. destruct (loc <? sizeof_msg m); [|reflexivity].
  unfold bind at 1. destruct (uart_select tv d) as [r d1].
  destruct (r >? 0); [|reflexivity].
  unfold bind at 1. destruct (uart_read m loc (sizeof_msg m - loc) d1).
  destruct (z >? 0); reflexivity.
Qed.

Lemma only_waits_refl (d : driver E) : only_waits d d [].
Proof. split; auto. now rewrite app_nil_r. Qed.

Lemma only_waits_trans (d d1 d2 : driver E) e1 e2 :
  only_waits d d1 e1 -> only_waits d1 d2 e2 -> only_waits d d2 (e1 ++ e2).
Proof.
  intros [A1 A2 A3 A4 A5] [B1 B2 B3 B4 B5]. split; try congruence.
  - rewrite B4, A4. now rewrite app_assoc.
  - apply Forall_app; auto.
Qed.

Lemma uart_select_only_waits tv (d : driver E) :
  only_waits d (snd (uart_select tv d))
             [EvSelect tv (fst (env_select E tv (world d)))].
Proof. rewrite uart_select_eq. split; simpl; auto. Qed.

Lemma uart_read_only_waits m loc count (d : driver E) :
  only_waits d (snd (uart_read m loc count d))
             [EvRead m loc count (fst (env_read E count (world d)))].
Proof.
  rewrite uart_read_eq. cbv zeta.
  destruct (fst (env_read E count (world d))); destruct m;
    split; simpl; auto.
Qed.

Lemma accumulate_only_waits fuel :
  forall m loc tv (d : driver E),
    exists evs, only_waits d (snd (accumulate fuel m loc tv d)) evs.
Proof.
  induction fuel as [|fuel IH]; intros m loc tv d.
  - exists []. apply only_waits_refl.
  - rewrite accumulate_unfold.
    destruct (loc <? sizeof_msg m); [|exists []; apply only_waits_refl].
    pose proof (uart_select_only_waits tv d) as Hs.
    destruct (uart_select tv d) as [r d1]. simpl in Hs.
    destruct (r >? 0); [|eexists; exact Hs].
    pose proof (uart_read_only_waits m loc (sizeof_msg m - loc) d1) as Hr.
    destruct (uart_read m loc (sizeof_msg m - loc) d1) as [n d2].
    simpl in Hr.
    pose proof (only_waits_trans _ _ _ _ _ Hs Hr) as Hsr.
    destruct (n >? 0); [|eexists; exact Hsr].
    destruct (IH m (loc + n) (mkTimeval 0 BYTE_TIMEOUT_US) d2) as [evs He].
    eexists. eapply only_waits_trans; eassumption.
Qed.

(** The loop never runs out of fuel: a turn that goes round again has
    moved the cursor forward, and the loop stops at the message size. *)
Lemma accumulate_total fuel :
  forall m loc tv (d : driver E),
    Z.max 0 (sizeof_msg m - loc) < Z.of_nat fuel ->
    exists loc', fst (accumulate fuel m loc tv d) = Some loc'.
Proof.
  induction fuel as [|fuel IH]; intros m loc tv d Hfuel.
  - lia.
  - rewrite accumulate_unfold.
    destruct (loc <? sizeof_msg m) eqn:Hlt; [|eexists; reflexivity].
    destruct (uart_select tv d) as [r d1].
    destruct (r >? 0); [|eexists; reflexivity].
    destruct (uart_read m loc (sizeof_msg m - loc) d1) as [n d2].
    destruct (n >? 0) eqn:Hn; [|eexists; reflexivity].
    apply IH. apply Z.gtb_lt in Hn. apply Z.ltb_lt in Hlt. lia.
Qed.

Lemma frame_attempt_eq m (d : driver E) :
  accumulate (S (Z.to_nat (sizeof_msg m))) m 0
             (mkTimeval MESSAGE_TIMEOUT_S MESSAGE_TIMEOUT_US) d
  = (Some (fst (frame_attempt m d)), snd (frame_attempt m d)).
Proof.
  unfold frame_attempt, bind, ret.
  destruct (accumulate_total (S (Z.to_nat (sizeof_msg m))) m 0
              (mkTimeval MESSAGE_TIMEOUT_S MESSAGE_TIMEOUT_US) d) as [loc' H].
  { destruct m; reflexivity. }
  destruct (accumulate _ m 0 _ d) as [r d']. simpl in H. subst r.
  reflexivity.
Qed.

Lemma frame_attempt_only_waits m (d : driver E) :
  exists evs, only_waits d (snd (frame_attempt m d)) evs.
Proof.
  destruct (accumulate_only_waits (S (Z.to_nat (sizeof_msg m))) m 0
              (mkTimeval MESSAGE_TIMEOUT_S MESSAGE_TIMEOUT_US) d) as [evs H].
  rewrite frame_attempt_eq in H. exists evs. exact H.
Qed.

Lemma get_msg_log m e (d : driver E) : get_msg m (log e d) = get_msg m d.
Proof. destruct m; reflexivity. Qed.

Lemma get_msg_set_world m w (d : driver E) :
  get_msg m (set_world w d) = get_msg m d.
Proof. destruct m; reflexivity. Qed.

Lemma get_set_msg m b (d : driver E) : get_msg m (set_msg m b d) = b.
Proof. destruct m; reflexivity. Qed.

Lemma trace_set_msg m b (d : driver E) : trace (set_msg m b d) = trace d.
Proof. destruct m; reflexivity. Qed.

(** The cursor through the loop, entered anywhere within the message. *)
Lemma accumulate_cursor (Hread : read_within_count E) fuel :
  forall m loc tv (d : driver E),
    0 <= loc <= sizeof_msg m ->
    Z.max 0 (sizeof_msg m - loc) < Z.of_nat fuel ->
    exists evs loc',
      fst (accumulate fuel m loc tv d) = Some loc' /\
      trace (snd (accumulate fuel m loc tv d)) = trace d ++ evs /\
      cursor_respected m loc evs /\
      loc' = cursor_after loc evs /\
      loc <= loc' <= sizeof_msg m /\
      (Z.of_nat (length (get_msg m d)) = sizeof_msg m ->
       Z.of_nat (length (get_msg m (snd (accumulate fuel m loc tv d))))
       = sizeof_msg m).
Proof.
  induction fuel as [|fuel IH]; intros m loc tv d Hloc Hfuel; [lia|].
  rewrite accumulate_unfold.
  destruct (loc <? sizeof_msg m) eqn:Hlt.
  2:{ exists [], loc. simpl. rewrite app_nil_r. repeat split; auto; lia. }
  apply Z.ltb_lt in Hlt.
  rewrite uart_select_eq. cbv beta iota.
  set (r := fst (env_select E tv (world d))).
  set (d1 := log (EvSelect tv r) (set_world (snd (env_select E tv (world d))) d)).
  destruct (r >? 0).
  2:{ exists [EvSelect tv r], loc. simpl. repeat split; auto; lia. }
  rewrite uart_read_eq. cbv beta iota zeta.
  set (count := sizeof_msg m - loc).
  assert (Hn : bytes_read_of (fst (env_read E count (world d1))) <= count)
    by (apply Hread; subst count; lia).
  set (rd := fst (env_read E count (world d1))) in *.
  set (d2 := log (EvRead m loc count rd)
                 (set_world (snd (env_read E count (world d1))) d1)).
  set (d3 := match rd with
             | Some data => set_msg m (store (get_msg m d2) loc data) d2
             | None => d2
             end).
  assert (Htr : trace d3 = trace d ++ [EvSelect tv r; EvRead m loc count rd]).
  { subst d3. destruct rd; [rewrite trace_set_msg|]; subst d2 d1; simpl;
      now rewrite <- app_assoc. }
  assert (Hlen : Z.of_nat (length (get_msg m d)) = sizeof_msg m ->
                 Z.of_nat (length (get_msg m d3)) = sizeof_msg m).
  { intros Hl. subst d3. destruct rd as [data|].
    - rewrite get_set_msg. subst d2 d1.
      rewrite !get_msg_log, !get_msg_set_world, get_msg_log, get_msg_set_world.
      rewrite store_length; auto; [lia|]. simpl in Hn. lia.
    - subst d2 d1.
      now rewrite !get_msg_log, !get_msg_set_world, get_msg_log,
        get_msg_set_world. }
  destruct (bytes_read_of rd >? 0) eqn:Hpos.
  - apply Z.gtb_lt in Hpos.
    destruct (IH m (loc + bytes_read_of rd) (mkTimeval 0 BYTE_TIMEOUT_US) d3)
      as (evs & loc' & H1 & H2 & H3 & H4 & H5 & H6); [lia|lia|].
    exists (EvSelect tv r :: EvRead m loc count rd :: evs), loc'.
    split; [exact H1|]. split.
    { rewrite H2, Htr, <- app_assoc. reflexivity. }
    cbn [cursor_respected cursor_after].
    rewrite Z.max_r by lia.
    repeat split; auto; lia.
  - rewrite Z.gtb_ltb in Hpos. apply Z.ltb_ge in Hpos.
    exists [EvSelect tv r; EvRead m loc count rd], loc.
    cbn [fst snd cursor_respected cursor_after].
    rewrite Z.max_l by lia.
    repeat split; auto; lia.
Qed.

(** *** The loop turns, one equation per way through the code *)

Lemma send_command_eq c (d : driver E) :
  send_command c d =
  (tt,
   let r := env_write E (cmd_bytes c) (sizeof (cmd_bytes c)) (world d) in
   mkDriver (pc d) (snd r)
            (trace d ++ write_events c (cmd_bytes c) (fst r))
            (_read_count_perf d) (_read_err_perf d)
            (_grid_survey_msg d) (_distance_result_msg d)).
Proof.
  unfold send_command, bind, uart_write, when,
    write_events, emit, ret, log, set_world.
  destruct (env_write E _ _ (world d)) as [written w]. simpl.
  destruct (written <? sizeof (cmd_bytes c)); simpl.
  - now rewrite <- app_assoc.
  - reflexivity.
Qed.

Lemma should_exit_eq (d : driver E) :
  should_exit d =
  (fst (env_should_exit E (world d)),
   mkDriver (pc d) (snd (env_should_exit E (world d)))
            (trace d ++ [EvShouldExit (fst (env_should_exit E (world d)))])
            (_read_count_perf d) (_read_err_perf d)
            (_grid_survey_msg d) (_distance_result_msg d)).
Proof.
  unfold should_exit. destruct (env_should_exit E (world d)); reflexivity.
Qed.

Lemma step_survey_rejected (d : driver E) :
  pc d = AwaitingSurvey ->
  let d1 := snd (send_command GridSurvey d) in
  let loc := fst (frame_attempt GridSurveyMsg d1) in
  let d2 := snd (frame_attempt GridSurveyMsg d1) in
  acceptable GridSurveyMsg loc (_grid_survey_msg d2) = false ->
  step d = snd (perf_count_read d2).
Proof.
  intros Hpc d1 loc d2 Hrej. unfold step. rewrite Hpc.
  unfold survey_iteration, bind.
  fold d1. destruct (send_command GridSurvey d) as [[] d1'] eqn:Hs.
  subst d1. cbn [snd] in *. subst loc d2.
  destruct (frame_attempt GridSurveyMsg d1') as [loc d2]. cbn [fst snd] in *.
  rewrite Hrej. reflexivity.
Qed.

Lemma step_survey_accepted (d : driver E) :
  pc d = AwaitingSurvey ->
  let d1 := snd (send_command GridSurvey d) in
  let loc := fst (frame_attempt GridSurveyMsg d1) in
  let d2 := snd (frame_attempt GridSurveyMsg d1) in
  acceptable GridSurveyMsg loc (_grid_survey_msg d2) = true ->
  exists t w written,
    step d =
    mkDriver Ranging w
      (trace d2 ++ [EvAttitudeUpdate; EvPublishGrid t (_grid_survey_msg d2);
                    EvGridFound; EvSleep 1]
               ++ write_events DistanceResult (cmd_bytes DistanceResult)
                               written)
      (_read_count_perf d2 + 1) (_read_err_perf d2)
      (_grid_survey_msg d2) (_distance_result_msg d2).
Proof.
  intros Hpc d1 loc d2 Hacc. unfold step. rewrite Hpc.
  unfold survey_iteration, bind at 1.
  fold d1. destruct (send_command GridSurvey d) as [[] d1'] eqn:Hs.
  subst d1. cbn [snd] in *. subst loc d2. unfold bind at 1.
  destruct (frame_attempt GridSurveyMsg d1') as [loc d2]. cbn [fst snd] in *.
  unfold bind at 1. rewrite Hacc. run_actions.
  destruct (env_hrt_absolute_time E (world d2)) as [t w1]. run_actions.
  rewrite send_command_eq. driver_fields.
  eexists t, _, _. rewrite <- !app_assoc. reflexivity.
Qed.

Lemma step_ranging_exit (d : driver E) :
  pc d = Ranging ->
  fst (env_should_exit E (world d)) = true ->
  exists w written,
    step d =
    mkDriver Stopped w
      (trace d ++ EvShouldExit true
               :: write_events StopRanging CMD_STOP_RANGING written)
      (_read_count_perf d) (_read_err_perf d)
      (_grid_survey_msg d) (_distance_result_msg d).
Proof.
  intros Hpc Hexit. unfold step. rewrite Hpc.
  unfold ranging_iteration, bind at 1. rewrite should_exit_eq, Hexit.
  unfold bind. rewrite send_command_eq. run_actions.
  eexists _, _. rewrite <- app_assoc. reflexivity.
Qed.

Lemma step_ranging_accepted (d : driver E) :
  pc d = Ranging ->
  fst (env_should_exit E (world d)) = false ->
  let d1 := snd (should_exit d) in
  let loc := fst (frame_attempt DistanceResultMsg d1) in
  let d2 := snd (frame_attempt DistanceResultMsg d1) in
  acceptable DistanceResultMsg loc (_distance_result_msg d2) = true ->
  exists t w,
    step d =
    mkDriver (pc d2) w
      (trace d2 ++ [EvAttitudeUpdate;
                    EvPublishDistance t (_distance_result_msg d2)])
      (_read_count_perf d2 + 1) (_read_err_perf d2)
      (_grid_survey_msg d2) (_distance_result_msg d2).
Proof.
  intros Hpc Hexit d1 loc d2 Hacc. unfold step. rewrite Hpc.
  unfold ranging_iteration, bind at 1. subst d1 loc d2.
  rewrite should_exit_eq in *. rewrite Hexit in *. cbn [snd] in *.
  unfold ranging_body, bind at 1.
  destruct (frame_attempt DistanceResultMsg _) as [loc d2].
  cbn [fst snd] in *. run_actions. rewrite Hacc. run_actions.
  destruct (env_hrt_absolute_time E (world d2)) as [t w1]. run_actions.
  exists t, w1. rewrite <- !app_assoc. reflexivity.
Qed.

Lemma step_ranging_rejected (d : driver E) :
  pc d = Ranging ->
  fst (env_should_exit E (world d)) = false ->
  let d1 := snd (should_exit d) in
  let loc := fst (frame_attempt DistanceResultMsg d1) in
  let d2 := snd (frame_attempt DistanceResultMsg d1) in
  acceptable DistanceResultMsg loc (_distance_result_msg d2) = false ->
  step d =
  mkDriver (pc d2) (world d2)
    (trace d2 ++ (if loc =? 0 then [EvNotResponding] else []))
    (_read_count_perf d2 + 1) (_read_err_perf d2 + 1)
    (_grid_survey_msg d2) (_distance_result_msg d2).
Proof.
  intros Hpc Hexit d1 loc d2 Hrej. unfold step. rewrite Hpc.
  unfold ranging_iteration, bind at 1. subst d1 loc d2.
  rewrite should_exit_eq in *. rewrite Hexit in *. cbn [snd] in *.
  unfold ranging_body, bind at 1.
  destruct (frame_attempt DistanceResultMsg _) as [loc d2].
  cbn [fst snd] in *. run_actions. rewrite Hrej.
  destruct (loc =? 0); run_actions; [reflexivity|].
  now rewrite app_nil_r.
Qed.

(** Every way one loop turn can go, with the events it adds. *)
Lemma step_cases (d : driver E) :
  (pc d = AwaitingSurvey /\
   exists w evs tail,
     Forall (fun e => is_wait e = true) evs /\
     trace (step d) =
       trace d ++ write_events GridSurvey (cmd_bytes GridSurvey) w
               ++ evs ++ tail /\
     (pc (step d) = AwaitingSurvey /\ tail = [] \/
      pc (step d) = Ranging /\
      exists t msg w',
        tail = [EvAttitudeUpdate; EvPublishGrid t msg; EvGridFound; EvSleep 1]
               ++ write_events DistanceResult (cmd_bytes DistanceResult) w'))
  \/
  (pc d = Ranging /\ fst (env_should_exit E (world d)) = true /\
   pc (step d) = Stopped /\
   exists w,
     trace (step d) =
       trace d ++ EvShouldExit true
               :: write_events StopRanging CMD_STOP_RANGING w)
  \/
  (pc d = Ranging /\ fst (env_should_exit E (world d)) = false /\
   pc (step d) = Ranging /\
   exists evs tail,
     Forall (fun e => is_wait e = true) evs /\
     trace (step d) = trace d ++ EvShouldExit false :: evs ++ tail /\
     (tail = [] \/ tail = [EvNotResponding] \/
      exists t msg, tail = [EvAttitudeUpdate; EvPublishDistance t msg]))
  \/
  (pc d = Stopped /\ step d = d).
Proof.
  destruct (pc d) eqn:Hpc.
  - left. split; [reflexivity|].
    set (d1 := snd (send_command GridSurvey d)).
    destruct (frame_attempt_only_waits GridSurveyMsg d1) as [evs Hw].
    set (d2 := snd (frame_attempt GridSurveyMsg d1)) in *.
    assert (Hd1 : trace d1 = trace d ++ write_events GridSurvey
              (cmd_bytes GridSurvey)
              (fst (env_write E (cmd_bytes GridSurvey)
                      (sizeof (cmd_bytes GridSurvey)) (world d)))
            /\ pc d1 = pc d).
    { subst d1. rewrite send_command_eq. split; reflexivity. }
    destruct Hd1 as [Hd1 Hpc1].
    destruct (acceptable GridSurveyMsg (fst (frame_attempt GridSurveyMsg d1))
                (_grid_survey_msg d2)) eqn:Hacc.
    + destruct (step_survey_accepted d Hpc Hacc) as (t & w & wr & Hstep).
      fold d1 d2 in Hstep. rewrite Hstep. driver_fields.
      eexists _, evs, _. split; [apply Hw|]. split.
      * rewrite (ow_trace _ _ _ Hw), Hd1, <- !app_assoc. reflexivity.
      * right. split; [reflexivity|]. eexists _, _, _. reflexivity.
    + rewrite (step_survey_rejected d Hpc Hacc). fold d1 d2.
      unfold perf_count_read. driver_fields.
      eexists _, evs, []. split; [apply Hw|]. split.
      * rewrite (ow_trace _ _ _ Hw), Hd1, app_nil_r, <- !app_assoc.
        reflexivity.
      * left. split; [|reflexivity].
        rewrite (ow_pc _ _ _ Hw). congruence.
  - destruct (fst (env_should_exit E (world d))) eqn:Hexit.
    + right; left. destruct (step_ranging_exit d Hpc Hexit) as (w & wr & Hs).
      rewrite Hs. driver_fields. repeat split. eexists. reflexivity.
    + right; right; left.
      set (d1 := snd (should_exit d)).
      destruct (frame_attempt_only_waits DistanceResultMsg d1) as [evs Hw].
      set (d2 := snd (frame_attempt DistanceResultMsg d1)) in *.
      assert (Hd1 : trace d1 = trace d ++ [EvShouldExit false]
                    /\ pc d1 = pc d).
      { subst d1. rewrite should_exit_eq, Hexit. split; reflexivity. }
      destruct Hd1 as [Hd1 Hpc1].
      assert (Hpc2 : pc d2 = Ranging)
        by (rewrite (ow_pc _ _ _ Hw); congruence).
      destruct (acceptable DistanceResultMsg
                  (fst (frame_attempt DistanceResultMsg d1))
                  (_distance_result_msg d2)) eqn:Hacc.
      * destruct (step_ranging_accepted d Hpc Hexit Hacc) as (t & w & Hs).
        fold d1 d2 in Hs. rewrite Hs. driver_fields.
        repeat split; auto.
        eexists evs, _. split; [apply Hw|]. split.
        -- rewrite (ow_trace _ _ _ Hw), Hd1, <- !app_assoc. reflexivity.
        -- right; right. eexists _, _. reflexivity.
      * rewrite (step_ranging_rejected d Hpc Hexit Hacc). fold d1 d2.
        driver_fields. repeat split; auto.
        eexists evs, _. split; [apply Hw|]. split.
        -- rewrite (ow_trace _ _ _ Hw), Hd1, <- !app_assoc. reflexivity.
        -- destruct (fst (frame_attempt DistanceResultMsg d1) =? 0); auto.
  - right; right; right. split; [reflexivity|].
    unfold step. now rewrite Hpc.
Qed.

(** *** Properties of the session loop *)

(** C1: in either phase a completed framing attempt is accepted, and its
    record published, exactly when the cursor equals the message size and the
    terminal byte is 0x1B; every other byte of the message, the status byte
    and the position and distance values among them, is free. *)
Theorem accepted_iff_size_and_stop_byte (d : driver E) :
  (pc d = AwaitingSurvey ->
   let d1 := snd (send_command GridSurvey d) in
   let loc := fst (frame_attempt GridSurveyMsg d1) in
   let msg := _grid_survey_msg (snd (frame_attempt GridSurveyMsg d1)) in
   (loc = sizeof_grid_msg_t /\ stop msg = x1b ->
    pc (step d) = Ranging /\
    exists t,
      published (trace (step d)) = published (trace d) ++ [EvPublishGrid t msg])
   /\
   (~ (loc = sizeof_grid_msg_t /\ stop msg = x1b) ->
    pc (step d) = AwaitingSurvey /\
    published (trace (step d)) = published (trace d)))
  /\
  (pc d = Ranging ->
   fst (env_should_exit E (world d)) = false ->
   let d1 := snd (should_exit d) in
   let loc := fst (frame_attempt DistanceResultMsg d1) in
   let msg := _distance_result_msg (snd (frame_attempt DistanceResultMsg d1)) in
   (loc = sizeof_distance_msg_t /\ stop msg = x1b ->
    exists t,
      published (trace (step d))
      = published (trace d) ++ [EvPublishDistance t msg])
   /\
   (~ (loc = sizeof_distance_msg_t /\ stop msg = x1b) ->
    published (trace (step d)) = published (trace d))).
Proof.
  split.
  - intros Hpc d1 loc msg.
    destruct (frame_attempt_only_waits GridSurveyMsg d1) as [evs Hw].
    assert (Hd1 : published (trace (snd (frame_attempt GridSurveyMsg d1)))
                  = published (trace d)).
    { rewrite (ow_trace _ _ _ Hw). subst d1. rewrite send_command_eq.
      driver_fields. cbv zeta.
      now rewrite !published_app, write_events_published,
        (waits_published evs (ow_waits _ _ _ Hw)), !app_nil_r. }
    split; intros Hc.
    + apply (acceptable_iff GridSurveyMsg) in Hc.
      destruct (step_survey_accepted d Hpc Hc) as (t & w & wr & Hs).
      rewrite Hs. driver_fields. split; [reflexivity|]. exists t.
      rewrite !published_app, write_events_published, app_nil_r.
      fold d1. rewrite Hd1. reflexivity.
    + apply (not_acceptable_iff GridSurveyMsg) in Hc.
      rewrite (step_survey_rejected d Hpc Hc). unfold perf_count_read.
      driver_fields. fold d1. split; [|exact Hd1].
      rewrite (ow_pc _ _ _ Hw). subst d1. now rewrite send_command_eq.
  - intros Hpc Hexit d1 loc msg.
    destruct (frame_attempt_only_waits DistanceResultMsg d1) as [evs Hw].
    assert (Hd1 : published (trace (snd (frame_attempt DistanceResultMsg d1)))
                  = published (trace d)).
    { rewrite (ow_trace _ _ _ Hw). subst d1. rewrite should_exit_eq.
      driver_fields.
      rewrite !published_app, (waits_published evs (ow_waits _ _ _ Hw)),
        Hexit. cbn. now rewrite !app_nil_r. }
    split; intros Hc.
    + apply (acceptable_iff DistanceResultMsg) in Hc.
      destruct (step_ranging_accepted d Hpc Hexit Hc) as (t & w & Hs).
      rewrite Hs. driver_fields. exists t.
      rewrite !published_app. fold d1. rewrite Hd1. reflexivity.
    + apply (not_acceptable_iff DistanceResultMsg) in Hc.
      rewrite (step_ranging_rejected d Hpc Hexit Hc). driver_fields.
      rewrite published_app. fold d1. rewrite Hd1.
      destruct (_ =? 0); cbn; now rewrite app_nil_r.
Qed.

(** C5: a ranging attempt that fails (wrong length or wrong stop byte) adds
    one to the error counter, publishes nothing and stays in the ranging
    loop; the "not responding" warning is logged once exactly when the
    attempt gathered no byte at all. *)
Theorem failed_ranging_attempt_counted (d : driver E) :
  pc d = Ranging ->
  fst (env_should_exit E (world d)) = false ->
  let d1 := snd (should_exit d) in
  let loc := fst (frame_attempt DistanceResultMsg d1) in
  let msg := _distance_result_msg (snd (frame_attempt DistanceResultMsg d1)) in
  loc <> sizeof_distance_msg_t \/ stop msg <> x1b ->
  _read_err_perf (step d) = _read_err_perf d + 1 /\
  published (trace (step d)) = published (trace d) /\
  pc (step d) = Ranging /\
  warnings (trace (step d))
  = (warnings (trace d) + if (loc =? 0)%Z then 1 else 0)%nat.
Proof.
  intros Hpc Hexit d1 loc msg Hfail.
  assert (Hrej : acceptable DistanceResultMsg loc msg = false).
  { apply not_acceptable_iff. intros [H1 H2]. destruct Hfail; contradiction. }
  destruct (frame_attempt_only_waits DistanceResultMsg d1) as [evs Hw].
  rewrite (step_ranging_rejected d Hpc Hexit Hrej). driver_fields.
  fold d1 loc.
  rewrite (ow_err _ _ _ Hw), (ow_pc _ _ _ Hw), (ow_trace _ _ _ Hw).
  subst d1. rewrite should_exit_eq, Hexit. driver_fields.
  rewrite !published_app, !warnings_app,
    (waits_published evs (ow_waits _ _ _ Hw)),
    (waits_warnings evs (ow_waits _ _ _ Hw)).
  repeat split; auto.
  - destruct (loc =? 0); cbn; now rewrite !app_nil_r.
  - destruct (loc =? 0); cbn; lia.
Qed.

Lemma step_stopped_iff (d : driver E) :
  pc d <> Stopped ->
  pc (step d) = Stopped <->
  pc d = Ranging /\ fst (env_should_exit E (world d)) = true.
Proof.
  intros Hrun. destruct (step_cases d) as [H|[H|[H|H]]].
  - destruct H as (Hpc & w & evs & tail & _ & _ & Hp). split.
    + intros Hs. destruct Hp as [[Hp _]|[Hp _]]; congruence.
    + intros [? _]. congruence.
  - destruct H as (Hpc & Hexit & Hp & _). split; auto.
  - destruct H as (Hpc & Hexit & Hp & _). split; [congruence|].
    intros [_ ?]. congruence.
  - destruct H as (Hpc & _). contradiction.
Qed.

Lemma run_for_keeps_running n :
  forall d : driver E,
    pc d <> Stopped ->
    (forall k, (k < n)%nat -> pc (run_for k d) = Ranging ->
               fst (env_should_exit E (world (run_for k d))) = false) ->
    pc (run_for n d) <> Stopped.
Proof.
  induction n as [|n IH]; intros d Hrun Hquiet; [exact Hrun|].
  cbn [run_for]. apply IH.
  - intros Hstop. apply step_stopped_iff in Hstop; [|exact Hrun].
    destruct Hstop as [Hpc Hexit].
    pose proof (Hquiet 0%nat ltac:(lia) Hpc) as Hno. cbn [run_for] in Hno.
    congruence.
  - intros k Hk. apply (Hquiet (S k)). lia.
Qed.

(** C2: whatever the device sends or fails to send, a loop turn leaves the
    loop only from the ranging loop head, on [should_exit()] answering yes;
    as long as it answers no the driver is still running after any number of
    turns. *)
Theorem only_cancellation_ends_run (d : driver E) (n : nat) :
  pc d <> Stopped ->
  (pc (step d) = Stopped <->
   pc d = Ranging /\ fst (env_should_exit E (world d)) = true) /\
  ((forall k, (k < n)%nat -> pc (run_for k d) = Ranging ->
              fst (env_should_exit E (world (run_for k d))) = false) ->
   pc (run_for n d) <> Stopped).
Proof.
  intros Hrun. split.
  - now apply step_stopped_iff.
  - now apply run_for_keeps_running.
Qed.

Lemma rejected_survey_step (d : driver E) :
  pc d = AwaitingSurvey ->
  survey_attempt_rejected d ->
  pc (step d) = AwaitingSurvey /\
  sent GridSurvey (trace (step d)) = S (sent GridSurvey (trace d)).
Proof.
  intros Hpc Hrej. unfold survey_attempt_rejected in Hrej. cbv zeta in Hrej.
  rewrite (step_survey_rejected d Hpc Hrej).
  destruct (frame_attempt_only_waits GridSurveyMsg
              (snd (send_command GridSurvey d))) as [evs Hw].
  unfold perf_count_read. driver_fields.
  rewrite (ow_pc _ _ _ Hw), (ow_trace _ _ _ Hw), send_command_eq.
  driver_fields. cbv zeta. split; [exact Hpc|].
  rewrite !sent_app, write_events_sent, (waits_sent evs (ow_waits _ _ _ Hw)).
  cbn. lia.
Qed.

Lemma rejected_survey_run n :
  forall d : driver E,
    pc d = AwaitingSurvey ->
    (forall k, (k < n)%nat -> survey_attempt_rejected (run_for k d)) ->
    pc (run_for n d) = AwaitingSurvey /\
    sent GridSurvey (trace (run_for n d))
    = (sent GridSurvey (trace d) + n)%nat.
Proof.
  induction n as [|n IH]; intros d Hpc Hrej.
  - cbn. split; [exact Hpc|lia].
  - cbn [run_for].
    destruct (rejected_survey_step d Hpc (Hrej 0%nat ltac:(lia))) as [Hp Hs].
    destruct (IH (step d) Hp) as [Hp' Hs'].
    { intros k Hk. apply (Hrej (S k)). lia. }
    split; [exact Hp'|]. rewrite Hs', Hs. lia.
Qed.

(** C6: after any number [n] of survey attempts in a row that fail, the
    driver is still in the survey loop and has written the grid-survey
    command once per attempt, [n] times in all. *)
Theorem survey_retried_without_bound (d : driver E) (n : nat) :
  pc d = AwaitingSurvey ->
  (forall k, (k < n)%nat -> survey_attempt_rejected (run_for k d)) ->
  pc (run_for n d) = AwaitingSurvey /\
  sent GridSurvey (trace (run_for n d)) = (sent GridSurvey (trace d) + n)%nat.
Proof. apply rejected_survey_run. Qed.

Lemma step_cancellation_shape (d : driver E) :
  cancellation_shape d -> cancellation_shape (step d).
Proof.
  unfold cancellation_shape. intros Hd.
  destruct (step_cases d) as [H|[H|[H|H]]].
  - destruct H as (Hpc & w & evs & tail & Hw & Ht & Hp).
    rewrite Hpc in Hd. destruct Hd as [Hc Hs].
    assert (cancellations (trace (step d)) = cancellations tail /\
            sent StopRanging (trace (step d)) = sent StopRanging tail)
      as [Hc' Hs'].
    { rewrite Ht, !cancellations_app, !sent_app, write_events_cancellations,
        write_events_sent, (waits_cancellations evs Hw),
        (waits_sent evs Hw), Hc, Hs. split; reflexivity. }
    destruct Hp as [[Hp ->]|[Hp (t & msg & w' & ->)]]; rewrite Hp, Hc', Hs'.
    + split; reflexivity.
    + rewrite cancellations_app, sent_app, write_events_cancellations,
        write_events_sent. split; reflexivity.
  - destruct H as (Hpc & Hexit & Hp & w & Ht).
    rewrite Hpc in Hd. rewrite Hp. exists (trace d), w. tauto.
  - destruct H as (Hpc & Hexit & Hp & evs & tail & Hw & Ht & Htail).
    rewrite Hpc in Hd. destruct Hd as [Hc Hs]. rewrite Hp, Ht.
    change (EvShouldExit false :: evs ++ tail)
      with ([EvShouldExit false] ++ evs ++ tail).
    rewrite !cancellations_app, !sent_app, (waits_cancellations evs Hw),
      (waits_sent evs Hw), Hc, Hs.
    destruct Htail as [->|[->|(t & msg & ->)]]; split; reflexivity.
  - destruct H as (Hpc & Hs). rewrite Hs. exact Hd.
Qed.

Lemma run_for_cancellation_shape n :
  forall d : driver E, cancellation_shape d -> cancellation_shape (run_for n d).
Proof.
  induction n as [|n IH]; intros d Hd; [exact Hd|].
  cbn [run_for]. apply IH, step_cancellation_shape, Hd.
Qed.

Lemma run_for_stopped k :
  forall d : driver E, pc d = Stopped -> run_for k d = d.
Proof.
  induction k as [|k IH]; intros d Hpc; [reflexivity|].
  cbn [run_for]. unfold step at 1. rewrite Hpc. now apply IH.
Qed.

(** C8: in a session the stop-ranging command is written once, right after
    the one time [should_exit()] answered yes, with no wait or read behind
    it; before that it has not been written; and once [run] has returned,
    further turns change nothing. *)
Theorem stop_command_written_once (w : W E) (n : nat) :
  let d := run_for n (start E w) in
  match pc d with
  | Stopped =>
      (exists t0 written,
         trace d = t0 ++ EvShouldExit true
                      :: write_events StopRanging CMD_STOP_RANGING written /\
         cancellations t0 = 0%nat /\ sent StopRanging t0 = 0%nat /\
         Forall (fun e => is_wait e = false)
                (write_events StopRanging CMD_STOP_RANGING written)) /\
      sent StopRanging (trace d) = 1%nat /\
      cancellations (trace d) = 1%nat /\
      forall k, run_for k d = d
  | _ =>
      sent StopRanging (trace d) = 0%nat /\
      cancellations (trace d) = 0%nat
  end.
Proof.
  intros d.
  assert (Hshape : cancellation_shape d).
  { apply run_for_cancellation_shape. split; reflexivity. }
  unfold cancellation_shape in Hshape.
  destruct (pc d) eqn:Hpc; try tauto.
  destruct Hshape as (t0 & written & Ht & Hc & Hs).
  split; [|split; [|split]].
  - exists t0, written. repeat split; auto.
    unfold write_events. destruct (written <? _); repeat constructor.
  - change (EvShouldExit true :: write_events StopRanging CMD_STOP_RANGING written)
      with ([EvShouldExit true]
              ++ write_events StopRanging CMD_STOP_RANGING written) in Ht.
    rewrite Ht, !sent_app, write_events_sent, Hs. reflexivity.
  - change (EvShouldExit true :: write_events StopRanging CMD_STOP_RANGING written)
      with ([EvShouldExit true]
              ++ write_events StopRanging CMD_STOP_RANGING written) in Ht.
    rewrite Ht, !cancellations_app, write_events_cancellations, Hc.
    reflexivity.
  - intros k. now apply run_for_stopped.
Qed.

Lemma sizeof_cmd_bytes c : sizeof (cmd_bytes c) = 20.
Proof. destruct c; reflexivity. Qed.

Lemma write_events_full_frames c w :
  Forall full_frame_write (write_events c (cmd_bytes c) w).
Proof.
  unfold write_events. rewrite sizeof_cmd_bytes.
  assert (Hlen : length (cmd_bytes c) = 20%nat) by (destruct c; reflexivity).
  assert (Hfull : full_frame_write (EvWrite c (cmd_bytes c) 20 w)).
  { cbn [full_frame_write taken]. split; [reflexivity|].
    split; [reflexivity|]. split; [exact Hlen|].
    split; [destruct c; reflexivity|].
    split; [intros ->; reflexivity|].
    intros ->. apply firstn_all2. rewrite Hlen. apply Nat.le_refl. }
  destruct (w <? 20).
  - constructor; [exact Hfull|]. constructor; [exact I|constructor].
  - constructor; [exact Hfull|constructor].
Qed.

Lemma waits_full_frames evs :
  Forall (fun e => is_wait e = true) evs -> Forall full_frame_write evs.
Proof.
  apply Forall_impl. intros [] H; try discriminate H; exact I.
Qed.

Lemma step_full_frames (d : driver E) :
  Forall full_frame_write (trace d) ->
  Forall full_frame_write (trace (step d)).
Proof.
  intros Hd. destruct (step_cases d) as [H|[H|[H|H]]].
  - destruct H as (Hpc & w & evs & tail & Hw & Ht & Hp). rewrite Ht.
    apply Forall_app; split; [exact Hd|].
    apply Forall_app; split; [|apply Forall_app; split].
    + apply write_events_full_frames.
    + now apply waits_full_frames.
    + destruct Hp as [[_ ->]|[_ (t & msg & w' & ->)]]; [constructor|].
      apply Forall_app; split; [repeat constructor|].
      apply write_events_full_frames.
  - destruct H as (Hpc & Hexit & Hp & w & Ht). rewrite Ht.
    apply Forall_app; split; auto. constructor; [exact I|].
    apply (write_events_full_frames StopRanging).
  - destruct H as (Hpc & Hexit & Hp & evs & tail & Hw & Ht & Htail).
    rewrite Ht. apply Forall_app; split; auto. constructor; [exact I|].
    apply Forall_app; split; [now apply waits_full_frames|].
    destruct Htail as [->|[->|(t & msg & ->)]]; repeat constructor.
  - destruct H as (_ & ->). exact Hd.
Qed.

Lemma run_for_full_frames n :
  forall d : driver E,
    Forall full_frame_write (trace d) ->
    Forall full_frame_write (trace (run_for n d)).
Proof.
  induction n as [|n IH]; intros d Hd; [exact Hd|].
  cbn [run_for]. apply IH, step_full_frames, Hd.
Qed.

(** *** The command writes of a session *)

Lemma command_io_app t1 t2 :
  command_io (t1 ++ t2) = command_io t1 ++ command_io t2.
Proof. apply filter_app. Qed.

Lemma written_frames_app t1 t2 :
  written_frames (t1 ++ t2) = written_frames t1 ++ written_frames t2.
Proof. apply flat_map_app. Qed.

Lemma command_writes_app ws1 ws2 :
  command_writes (ws1 ++ ws2) = command_writes ws1 ++ command_writes ws2.
Proof. apply flat_map_app. Qed.

Lemma waits_no_command_io evs :
  Forall (fun e => is_wait e = true) evs ->
  command_io evs = [] /\ written_frames evs = [].
Proof.
  induction 1 as [|e evs He _ [IH1 IH2]]; [split; reflexivity|].
  destruct e; try discriminate He; cbn; auto.
Qed.

Lemma write_events_command_io c w :
  command_io (write_events c (cmd_bytes c) w)
  = write_events c (cmd_bytes c) w /\
  written_frames (write_events c (cmd_bytes c) w) = [(c, w)] /\
  command_writes [(c, w)] = write_events c (cmd_bytes c) w.
Proof.
  unfold write_events, command_writes.
  destruct (w <? sizeof (cmd_bytes c)) eqn:Hshort; cbn;
    rewrite ?app_nil_r, ?Hshort; auto.
Qed.

(** What one loop turn adds to the trace, seen from the command writes. *)
Lemma step_command_writes (d : driver E) :
  exists added,
    trace (step d) = trace d ++ added /\
    command_io added = command_writes (written_frames added) /\
    (pc d = AwaitingSurvey /\ pc (step d) = AwaitingSurvey /\
     map fst (written_frames added) = [GridSurvey]
     \/
     pc d = AwaitingSurvey /\ pc (step d) = Ranging /\
     map fst (written_frames added) = [GridSurvey; DistanceResult]
     \/
     pc d = Ranging /\ pc (step d) = Stopped /\
     map fst (written_frames added) = [StopRanging]
     \/
     pc d = pc (step d) /\ pc d <> AwaitingSurvey /\
     written_frames added = []).
Proof.
  destruct (step_cases d) as [H|[H|[H|H]]].
  - destruct H as (Hpc & w & evs & tail & Hw & Ht & Hp).
    destruct (waits_no_command_io evs Hw) as [Hio Hwf].
    destruct (write_events_command_io GridSurvey w) as (G1 & G2 & G3).
    destruct Hp as [[Hpc' ->]|[Hpc' (t & msg & w' & ->)]].
    + eexists. split; [exact Ht|].
      rewrite !command_io_app, !written_frames_app, Hio, Hwf, G1, G2.
      change (command_io []) with (@nil event).
      change (written_frames []) with (@nil (command * Z)).
      cbn [app]. rewrite app_nil_r, G3. split; [reflexivity|].
      left. auto.
    + destruct (write_events_command_io DistanceResult w') as (D1 & D2 & D3).
      eexists. split; [exact Ht|].
      rewrite !command_io_app, !written_frames_app, Hio, Hwf, G1, G2, D1, D2.
      cbn [app command_io filter is_command_io written_frames flat_map].
      change ([(GridSurvey, w); (DistanceResult, w')])
        with ([(GridSurvey, w)] ++ [(DistanceResult, w')]).
      rewrite command_writes_app, G3, D3. split; [reflexivity|].
      right. left. auto.
  - destruct H as (Hpc & Hexit & Hp & w & Ht).
    destruct (write_events_command_io StopRanging w) as (S1 & S2 & S3).
    exists (EvShouldExit true :: write_events StopRanging CMD_STOP_RANGING w).
    split; [exact Ht|].
    change (EvShouldExit true :: write_events StopRanging CMD_STOP_RANGING w)
      with ([EvShouldExit true]
              ++ write_events StopRanging (cmd_bytes StopRanging) w).
    rewrite !command_io_app, !written_frames_app, S1, S2. cbn [app].
    change (command_io [EvShouldExit true]) with (@nil event).
    change (written_frames [EvShouldExit true]) with (@nil (command * Z)).
    cbn [app]. rewrite S3. split; [reflexivity|].
    right. right. left. auto.
  - destruct H as (Hpc & Hexit & Hp & evs & tail & Hw & Ht & Htail).
    destruct (waits_no_command_io evs Hw) as [Hio Hwf].
    exists (EvShouldExit false :: evs ++ tail). split; [exact Ht|].
    change (EvShouldExit false :: evs ++ tail)
      with ([EvShouldExit false] ++ evs ++ tail).
    rewrite !command_io_app, !written_frames_app, Hio, Hwf.
    assert (Htl : command_io tail = [] /\ written_frames tail = []).
    { destruct Htail as [->|[->|(t & msg & ->)]]; split; reflexivity. }
    destruct Htl as [-> ->]. split; [reflexivity|].
    right. right. right. rewrite Hp, Hpc. repeat split; discriminate.
  - destruct H as (Hpc & Hstep). exists []. rewrite Hstep, app_nil_r.
    split; [reflexivity|]. split; [reflexivity|].
    right. right. right. rewrite Hpc. repeat split; discriminate.
Qed.

Lemma step_writes_reported (d : driver E) :
  command_io (trace d) = command_writes (written_frames (trace d)) ->
  command_io (trace (step d))
  = command_writes (written_frames (trace (step d))).
Proof.
  intros Hd. destruct (step_command_writes d) as (added & Ht & Hio & _).
  rewrite Ht, command_io_app, written_frames_app, command_writes_app.
  now rewrite Hd, Hio.
Qed.

Lemma run_for_writes_reported n :
  forall d : driver E,
    command_io (trace d) = command_writes (written_frames (trace d)) ->
    command_io (trace (run_for n d))
    = command_writes (written_frames (trace (run_for n d))).
Proof.
  induction n as [|n IH]; intros d Hd; [exact Hd|].
  cbn [run_for]. apply IH, step_writes_reported, Hd.
Qed.

Lemma repeat_snoc {A} (x : A) k : repeat x k ++ [x] = repeat x (S k).
Proof. now rewrite <- repeat_cons. Qed.

Lemma step_commands_in_order (d : driver E) k :
  map fst (written_frames (trace d))
  = repeat GridSurvey k ++ commands_due (pc d) ->
  exists k',
    map fst (written_frames (trace (step d)))
    = repeat GridSurvey k' ++ commands_due (pc (step d)) /\
    (pc d = AwaitingSurvey -> k' = S k) /\
    (pc d <> AwaitingSurvey -> k' = k /\ pc (step d) <> AwaitingSurvey).
Proof.
  intros Hd. destruct (step_command_writes d) as (added & Ht & _ & Hc).
  rewrite Ht, written_frames_app, map_app, Hd.
  destruct Hc as [(Hpc & Hpc' & Hw)|[(Hpc & Hpc' & Hw)|
                  [(Hpc & Hpc' & Hw)|(Hpc & Hne & Hw)]]].
  - exists (S k). rewrite Hw, Hpc, Hpc'. cbn [commands_due].
    rewrite !app_nil_r, repeat_snoc. split; [reflexivity|].
    split; [reflexivity|]. intros H. now elim H.
  - exists (S k). rewrite Hw, Hpc, Hpc'. cbn [commands_due].
    rewrite app_nil_r.
    change [GridSurvey; DistanceResult]
      with ([GridSurvey] ++ [DistanceResult]).
    rewrite app_assoc, repeat_snoc. split; [reflexivity|].
    split; [reflexivity|]. intros H. now elim H.
  - exists k. rewrite Hw, Hpc, Hpc'. cbn [commands_due].
    rewrite <- app_assoc. split; [reflexivity|].
    split; [discriminate|]. intros _. split; [reflexivity|discriminate].
  - exists k. rewrite Hw, <- Hpc. cbn [map]. rewrite app_nil_r.
    split; [reflexivity|]. split; [intros H; now elim Hne|].
    intros _. split; [reflexivity|exact Hne].
Qed.

Lemma run_for_commands_in_order n :
  forall (d : driver E) k,
    map fst (written_frames (trace d))
    = repeat GridSurvey k ++ commands_due (pc d) ->
    exists k',
      map fst (written_frames (trace (run_for n d)))
      = repeat GridSurvey k' ++ commands_due (pc (run_for n d)) /\
      (k <= k' <= k + n)%nat /\
      (pc (run_for n d) = AwaitingSurvey ->
       pc d = AwaitingSurvey /\ k' = (k + n)%nat) /\
      (pc d = AwaitingSurvey -> (0 < n)%nat -> (k < k')%nat).
Proof.
  induction n as [|n IH]; intros d k Hd.
  - exists k. cbn [run_for]. split; [exact Hd|]. split; [lia|].
    split; [intros H; split; [exact H|lia]|]. intros _ H. lia.
  - cbn [run_for].
    destruct (step_commands_in_order d k Hd) as (k1 & H1 & Has & Hne).
    destruct (IH (step d) k1 H1) as (k' & H' & Hle & Hback & _).
    exists k'. split; [exact H'|].
    assert (Hdec : pc d = AwaitingSurvey \/ pc d <> AwaitingSurvey).
    { destruct (pc d); [left; reflexivity|right; discriminate..]. }
    destruct Hdec as [Hpc|Hpc].
    + rewrite (Has Hpc) in *. split; [lia|]. split.
      * intros Hend. destruct (Hback Hend) as [_ ->]. split; [exact Hpc|lia].
      * intros _ _. lia.
    + destruct (Hne Hpc) as [-> Hpc1]. split; [lia|]. split.
      * intros Hend. destruct (Hback Hend) as [Habs _]. now elim Hpc1.
      * intros Habs. now elim Hpc.
Qed.

(** C9: the command frames and how [run] writes them.  The two arrays of
    the header are 20 bytes long: the four bytes given (8e 00 11 00 for
    stop-ranging, 8e 00 11 02 for pure-ranging) and sixteen zero bytes.  A
    session of [n] loop turns has written the survey command once per turn
    of the survey loop (at least once as soon as a turn is made), then the
    ranging command ([CMD_DISTANCE_RESULT]; the pure-ranging array is
    declared and not among the arrays [run] writes) once the survey loop is
    left and the stop command once [run] has returned, and nothing else.
    Every one of these writes hands
    [write] the whole array with its size, 20; the device has the whole
    frame when [write] returns that count, and a write that returns less is
    followed by the error that reports it and by no second write of the
    frame.  Of any state, sending a command is one call of [write] with the
    array and 20, and the driver goes on from whatever that call left. *)
Theorem command_frames_written_whole (w : W E) (n : nat) :
  let d := run_for n (start E w) in
  (length CMD_STOP_RANGING = 20%nat /\
   firstn 4 CMD_STOP_RANGING = [x8e; x00; x11; x00] /\
   skipn 4 CMD_STOP_RANGING = repeat x00 16) /\
  (length CMD_PURE_RANGING = 20%nat /\
   firstn 4 CMD_PURE_RANGING = [x8e; x00; x11; x02] /\
   skipn 4 CMD_PURE_RANGING = repeat x00 16) /\
  (exists k,
     map fst (written_frames (trace d))
     = repeat GridSurvey k ++ commands_due (pc d) /\
     (k <= n)%nat /\
     (pc d = AwaitingSurvey -> k = n) /\
     ((0 < n)%nat -> (0 < k)%nat)) /\
  command_io (trace d) = command_writes (written_frames (trace d)) /\
  Forall full_frame_write (trace d) /\
  (forall c (d0 : driver E),
     let r := env_write E (cmd_bytes c) 20 (world d0) in
     trace (snd (send_command c d0))
     = trace d0 ++ write_events c (cmd_bytes c) (fst r) /\
     world (snd (send_command c d0)) = snd r).
Proof.
  intros d. split; [repeat split|]. split; [repeat split|]. split.
  { destruct (run_for_commands_in_order n (start E w) 0 eq_refl)
      as (k & Hk & Hle & Hback & Hpos).
    exists k. split; [exact Hk|]. split; [lia|]. split.
    - intros Hpc. now destruct (Hback Hpc) as [_ ->].
    - apply Hpos. reflexivity. }
  split; [apply run_for_writes_reported; reflexivity|].
  split; [apply run_for_full_frames; constructor|].
  intros c d0 r. subst r. rewrite send_command_eq, sizeof_cmd_bytes.
  split; reflexivity.
Qed.

(** C7: through a framing attempt the cursor starts at 0 and stays between
    0 and the message size; every wait is issued below the size, every read
    asks for exactly the room left and moves the cursor by what it
    delivered, and the message keeps its size. *)
Theorem cursor_stays_within_message (m : msgbuf) (d : driver E) :
  read_within_count E ->
  exists evs,
    trace (snd (frame_attempt m d)) = trace d ++ evs /\
    cursor_respected m 0 evs /\
    fst (frame_attempt m d) = cursor_after 0 evs /\
    0 <= fst (frame_attempt m d) <= sizeof_msg m /\
    (Z.of_nat (length (get_msg m d)) = sizeof_msg m ->
     Z.of_nat (length (get_msg m (snd (frame_attempt m d)))) = sizeof_msg m).
Proof.
  intros Hread.
  destruct (accumulate_cursor Hread (S (Z.to_nat (sizeof_msg m))) m 0
              (mkTimeval MESSAGE_TIMEOUT_S MESSAGE_TIMEOUT_US) d)
    as (evs & loc' & H1 & H2 & H3 & H4 & H5 & H6).
  { destruct m; split; discriminate. }
  { destruct m; reflexivity. }
  rewrite frame_attempt_eq in *. cbn [fst snd] in *.
  injection H1 as H1. exists evs. rewrite H1. repeat split; auto; lia.
Qed.

(** C3, as the code has it: a read that delivers nothing (zero bytes, or an
    error) ends the accumulation loop on the spot.  The attempt is over with
    the cursor where it was, below the message size, so it fails the
    acceptance test whatever the buffer holds. *)
Theorem empty_read_ends_accumulation fuel m loc tv (d : driver E) :
  loc < sizeof_msg m ->
  fst (env_select E tv (world d)) > 0 ->
  let d1 := snd (uart_select tv d) in
  bytes_read_of (fst (env_read E (sizeof_msg m - loc) (world d1))) <= 0 ->
  accumulate (S fuel) m loc tv d
  = (Some loc, snd (uart_read m loc (sizeof_msg m - loc) d1)) /\
  forall msg, acceptable m loc msg = false.
Proof.
  intros Hlt Hsel d1 Hread. split.
  - rewrite accumulate_unfold.
    apply Z.ltb_lt in Hlt. rewrite Hlt. subst d1.
    rewrite uart_select_eq in *. cbn [snd] in *.
    apply Z.gtb_gt in Hsel. rewrite Hsel.
    rewrite uart_read_eq. cbv zeta. cbn [fst snd].
    replace (bytes_read_of _ >? 0) with false; [reflexivity|].
    symmetry. rewrite Z.gtb_ltb. apply Z.ltb_ge. exact Hread.
  - intros msg. apply not_acceptable_iff. intros [H _]. lia.
Qed.

End DriverFacts.

(** ** A frame on the timed serial line *)

Module SerialLineFacts.

Import SerialLine.

(** What one [read] takes off a line on which the bytes still due follow
    each other closely: a first part of them, leaving the next byte (if any)
    less than a gap away. *)
Lemma arrived_timed (gap t : Z) (rest : list (Z * byte)) :
  forall todo ts prev,
    length ts = length todo ->
    gaps_below gap prev ts ->
    prev <= t ->
    exists todo' ts',
      todo = arrived t (length todo) (combine ts todo ++ rest) ++ todo' /\
      length ts' = length todo' /\
      skipn (length (arrived t (length todo) (combine ts todo ++ rest)))
            (combine ts todo ++ rest)
      = combine ts' todo' ++ rest /\
      match ts' with
      | [] => True
      | t' :: ts'' => t' - t < gap /\ gaps_below gap t' ts''
      end.
Proof.
  induction todo as [|b todo IH]; intros ts prev Hlen Hgaps Hprev.
  - destruct ts; [|discriminate]. exists [], []. cbn. auto.
  - destruct ts as [|t1 ts]; [discriminate|].
    cbn [gaps_below] in Hgaps. destruct Hgaps as (Hle & Hgap & Hgaps).
    cbn [length combine app arrived].
    destruct (t1 <=? t) eqn:Ht1.
    + apply Z.leb_le in Ht1.
      destruct (IH ts t1) as (todo' & ts' & H1 & H2 & H3 & H4); auto.
      exists todo', ts'. cbn [app length skipn].
      repeat split; auto. now rewrite <- H1.
    + apply Z.leb_gt in Ht1.
      exists (b :: todo), (t1 :: ts). cbn. repeat split; auto. lia.
Qed.

Lemma store_at_end (done tail data : list byte) :
  store (done ++ tail) (Z.of_nat (length done)) data
  = done ++ data ++ skipn (length data) tail.
Proof.
  unfold store. rewrite Nat2Z.id, firstn_app, firstn_all, Nat.sub_diag.
  cbn [firstn]. rewrite app_nil_r, skipn_app.
  replace (length done + length data - length done)%nat
    with (length data) by lia.
  rewrite skipn_all2 by lia. reflexivity.
Qed.

(** With a byte due before the timeout runs out, [select] reports it and
    leaves the clock at or after its arrival. *)
Lemma select_byte_due tv (l : line) t b q :
  rx l = (t, b) :: q ->
  t - now l < timeval_us tv ->
  exists l1,
    select tv l = (1, l1) /\ rx l1 = rx l /\ t <= now l1.
Proof.
  intros Hrx Hdue. unfold select. rewrite Hrx.
  destruct (t <=? now l) eqn:Hle.
  - apply Z.leb_le in Hle. exists l. rewrite Hrx. auto.
  - apply Z.ltb_lt in Hdue. rewrite Hdue. apply Z.leb_gt in Hle.
    exists (at_time t l). cbn. rewrite Hrx. repeat split; auto. lia.
Qed.

Lemma uart_select_byte_due m tv (d : driver env) t b q :
  rx (world d) = (t, b) :: q ->
  t - now (world d) < timeval_us tv ->
  exists d1,
    uart_select tv d = (1, d1) /\
    get_msg m d1 = get_msg m d /\
    rx (world d1) = rx (world d) /\
    t <= now (world d1).
Proof.
  intros Hrx Hdue.
  destruct (select_byte_due tv (world d) t b q Hrx Hdue)
    as (l1 & Hsel & Hrx1 & Hnow1).
  rewrite uart_select_eq. cbn [env_select env]. rewrite Hsel. cbn [fst snd].
  eexists. split; [reflexivity|].
  rewrite get_msg_log, get_msg_set_world. auto.
Qed.

Lemma uart_read_arrived m loc count (d : driver env) :
  let data := arrived (now (world d)) (Z.to_nat count) (rx (world d)) in
  exists d2,
    uart_read m loc count d = (Z.of_nat (length data), d2) /\
    get_msg m d2 = store (get_msg m d) loc data /\
    rx (world d2) = skipn (length data) (rx (world d)) /\
    now (world d2) = now (world d).
Proof.
  intros data. rewrite uart_read_eq. cbv zeta. cbn [env_read env].
  unfold read. cbn [fst snd bytes_read_of]. fold data.
  eexists. split; [reflexivity|].
  rewrite get_set_msg, get_msg_log, get_msg_set_world.
  destruct m; cbn; auto.
Qed.

(** The accumulation loop over a frame whose remaining bytes [todo] arrive
    in time: [done] is what the message already holds. *)
Lemma accumulate_timed fuel :
  forall m done todo ts rest tail tv (d : driver env),
    get_msg m d = done ++ tail ->
    length tail = length todo ->
    Z.of_nat (length done + length todo) = sizeof_msg m ->
    length ts = length todo ->
    rx (world d) = combine ts todo ++ rest ->
    match ts with
    | [] => True
    | t :: ts' =>
        t - now (world d) < timeval_us tv /\ gaps_below BYTE_TIMEOUT_US t ts'
    end ->
    (length todo < fuel)%nat ->
    let r := accumulate fuel m (Z.of_nat (length done)) tv d in
    fst r = Some (sizeof_msg m) /\
    get_msg m (snd r) = done ++ todo /\
    rx (world (snd r)) = rest.
Proof.
  induction fuel as [|fuel IH];
    intros m done todo ts rest tail tv d Hmsg Htail Hsize Hts Hrx Hdue Hfuel;
    [lia|].
  cbv zeta. rewrite accumulate_unfold.
  destruct todo as [|b todo].
  - destruct ts; [|discriminate]. destruct tail; [|discriminate].
    replace (Z.of_nat (length done) <? sizeof_msg m) with false
      by (symmetry; apply Z.ltb_ge; cbn in Hsize; lia).
    cbn [fst snd]. repeat split; auto. f_equal. cbn in Hsize. lia.
  - destruct ts as [|t ts]; [discriminate|]. destruct Hdue as [Hdue Hgaps].
    cbn [combine app length] in *.
    replace (Z.of_nat (length done) <? sizeof_msg m) with true
      by (symmetry; apply Z.ltb_lt; lia).
    destruct (uart_select_byte_due m tv d t b _ Hrx Hdue)
      as (d1 & -> & Hmsg1 & Hrx1 & Hnow1).
    change (1 >? 0) with true. cbv iota.
    destruct (uart_read_arrived m (Z.of_nat (length done))
                (sizeof_msg m - Z.of_nat (length done)) d1)
      as (d2 & -> & Hmsg2 & Hrx2 & Hnow2).
    replace (Z.to_nat (sizeof_msg m - Z.of_nat (length done)))
      with (S (length todo)) in * by lia.
    rewrite Hrx1, Hrx in *. cbn [arrived] in *.
    replace (t <=? now (world d1)) with true in *
      by (symmetry; now apply Z.leb_le).
    destruct (arrived_timed BYTE_TIMEOUT_US (now (world d1)) rest todo ts t)
      as (todo' & ts' & Hsplit & Hlen' & Hskip & Hnext); auto; try lia.
    set (data0 := arrived (now (world d1)) (length todo)
                          (combine ts todo ++ rest)) in *.
    cbn [length skipn] in *.
    replace (Z.of_nat (S (length data0)) >? 0) with true
      by (symmetry; apply Z.gtb_lt; lia).
    replace (Z.of_nat (length done) + Z.of_nat (S (length data0)))
      with (Z.of_nat (length (done ++ b :: data0)))
      by (rewrite length_app; cbn [length]; lia).
    assert (Hlt : (length todo = length data0 + length todo')%nat)
      by (rewrite Hsplit at 1; now rewrite length_app).
    destruct (IH m (done ++ b :: data0) todo' ts' rest
                 (skipn (S (length data0)) tail)
                 (mkTimeval 0 BYTE_TIMEOUT_US) d2)
      as (R1 & R2 & R3).
    + rewrite Hmsg2, Hmsg1, Hmsg, store_at_end, <- app_assoc. reflexivity.
    + rewrite length_skipn. lia.
    + rewrite length_app. cbn [length]. lia.
    + exact Hlen'.
    + rewrite Hrx2. exact Hskip.
    + destruct ts' as [|t' ts'']; [exact I|]. rewrite Hnow2. exact Hnext.
    + lia.
    + split; [exact R1|]. split; [|exact R3].
      rewrite R2, <- app_assoc. cbn [app]. now rewrite <- Hsplit.
Qed.

(** One attempt on a frame whose first byte arrives before the message
    timeout has run out. *)
Lemma frame_in_time
    (m : msgbuf) (frame : list byte) (t0 : Z) (times : list Z)
    (rest : list (Z * byte)) (d : driver env) :
  Z.of_nat (length frame) = sizeof_msg m ->
  length (t0 :: times) = length frame ->
  Z.of_nat (length (get_msg m d)) = sizeof_msg m ->
  rx (world d) = timed (t0 :: times) frame ++ rest ->
  t0 - now (world d)
    < timeval_us (mkTimeval MESSAGE_TIMEOUT_S MESSAGE_TIMEOUT_US) ->
  gaps_below BYTE_TIMEOUT_US t0 times ->
  fst (frame_attempt m d) = sizeof_msg m /\
  get_msg m (snd (frame_attempt m d)) = frame /\
  rx (world (snd (frame_attempt m d))) = rest.
Proof.
  intros Hframe Htimes Hbuf Hrx Hfirst Hgaps.
  pose proof (frame_attempt_eq m d) as Heq.
  destruct (accumulate_timed (S (Z.to_nat (sizeof_msg m))) m [] frame
              (t0 :: times) rest (get_msg m d)
              (mkTimeval MESSAGE_TIMEOUT_S MESSAGE_TIMEOUT_US) d)
    as (R1 & R2 & R3); auto; try lia.
  cbn [length Z.of_nat] in *. rewrite Heq in *. cbn [fst snd app] in *.
  injection R1 as R1. auto.
Qed.

(** With the next byte a whole message timeout away or more, the attempt
    times out on its first wait: cursor 0, message and line as they were, the
    clock a message timeout later. *)
Lemma frame_attempt_times_out m (d : driver env) t b q :
  rx (world d) = (t, b) :: q ->
  timeval_us (mkTimeval MESSAGE_TIMEOUT_S MESSAGE_TIMEOUT_US)
    <= t - now (world d) ->
  fst (frame_attempt m d) = 0 /\
  get_msg m (snd (frame_attempt m d)) = get_msg m d /\
  rx (world (snd (frame_attempt m d))) = rx (world d) /\
  now (world (snd (frame_attempt m d)))
  = now (world d) + timeval_us (mkTimeval MESSAGE_TIMEOUT_S MESSAGE_TIMEOUT_US).
Proof.
  intros Hrx Hlate. pose proof (frame_attempt_eq m d) as Heq.
  rewrite accumulate_unfold in Heq.
  replace (0 <? sizeof_msg m) with true in Heq by (now destruct m).
  rewrite uart_select_eq in Heq. cbn [env_select env] in Heq.
  unfold select in Heq. rewrite Hrx in Heq.
  replace (t <=? now (world d)) with false in Heq
    by (symmetry; apply Z.leb_gt; cbn in Hlate; lia).
  replace (t - now (world d) <? _) with false in Heq
    by (symmetry; apply Z.ltb_ge; exact Hlate).
  cbn [fst snd] in Heq. change (0 >? 0) with false in Heq.
  cbv beta iota in Heq. injection Heq as H0 Hd. rewrite <- H0, <- Hd.
  rewrite get_msg_log, get_msg_set_world. cbn. rewrite Hrx. auto.
Qed.

Lemma attempts_until_frame m frame t0 times rest n :
  forall d : driver env,
    Z.of_nat (length frame) = sizeof_msg m ->
    length (t0 :: times) = length frame ->
    Z.of_nat (length (get_msg m d)) = sizeof_msg m ->
    rx (world d) = timed (t0 :: times) frame ++ rest ->
    gaps_below BYTE_TIMEOUT_US t0 times ->
    t0 - now (world d)
      < Z.of_nat n
        * timeval_us (mkTimeval MESSAGE_TIMEOUT_S MESSAGE_TIMEOUT_US) ->
    exists k,
      (forall j, (j < k)%nat -> fst (frame_attempt m (attempts j m d)) = 0) /\
      fst (frame_attempt m (attempts k m d)) = sizeof_msg m /\
      get_msg m (snd (frame_attempt m (attempts k m d))) = frame /\
      rx (world (snd (frame_attempt m (attempts k m d)))) = rest.
Proof.
  set (T := timeval_us (mkTimeval MESSAGE_TIMEOUT_S MESSAGE_TIMEOUT_US)).
  assert (HT : 0 < T) by reflexivity.
  induction n as [|n IH]; intros d Hframe Htimes Hbuf Hrx Hgaps Hdue.
  - exists 0%nat. split; [intros j Hj; lia|].
    apply (frame_in_time m frame t0 times rest d); auto. fold T. lia.
  - destruct (Z.lt_ge_cases (t0 - now (world d)) T) as [Hnow|Hlater].
    + exists 0%nat. split; [intros j Hj; lia|].
      apply (frame_in_time m frame t0 times rest d); auto.
    + destruct frame as [|b frame]; [discriminate|].
      cbn [timed combine app] in Hrx.
      destruct (frame_attempt_times_out m d t0 b _ Hrx Hlater)
        as (H0 & Hmsg & Hrx' & Hnow').
      destruct (IH (snd (frame_attempt m d))) as (k & Hk0 & Hk);
        auto; try congruence.
      { rewrite Hrx'. exact Hrx. }
      { rewrite Hnow'. fold T. lia. }
      exists (S k). split; [|exact Hk].
      intros [|j] Hj; [exact H0|]. apply Hk0. lia.
Qed.

(** C4: a frame of the expected size whose bytes each arrive less than the
    inter-byte timeout after the one before is rebuilt byte for byte.  The
    attempt in whose message timeout the first byte arrives ends with the
    cursor at the message size, the message buffer equal to the frame and
    nothing behind the frame taken off the line; and whenever the first byte
    arrives, that attempt comes after finitely many that timed out with
    nothing read. *)
Theorem frame_in_time_rebuilt_exactly
    (m : msgbuf) (frame : list byte) (t0 : Z) (times : list Z)
    (rest : list (Z * byte)) (d : driver env) :
  Z.of_nat (length frame) = sizeof_msg m ->
  length (t0 :: times) = length frame ->
  Z.of_nat (length (get_msg m d)) = sizeof_msg m ->
  rx (world d) = timed (t0 :: times) frame ++ rest ->
  gaps_below BYTE_TIMEOUT_US t0 times ->
  (t0 - now (world d)
     < timeval_us (mkTimeval MESSAGE_TIMEOUT_S MESSAGE_TIMEOUT_US) ->
   fst (frame_attempt m d) = sizeof_msg m /\
   get_msg m (snd (frame_attempt m d)) = frame /\
   rx (world (snd (frame_attempt m d))) = rest) /\
  exists k,
    (forall j, (j < k)%nat -> fst (frame_attempt m (attempts j m d)) = 0) /\
    fst (frame_attempt m (attempts k m d)) = sizeof_msg m /\
    get_msg m (snd (frame_attempt m (attempts k m d))) = frame /\
    rx (world (snd (frame_attempt m (attempts k m d)))) = rest.
Proof.
  intros Hframe Htimes Hbuf Hrx Hgaps. split.
  - intros Hfirst. now apply (frame_in_time m frame t0 times rest d).
  - apply (attempts_until_frame m frame t0 times rest
             (Z.to_nat (t0 - now (world d)) + 1) d); auto.
    assert (1 <= timeval_us (mkTimeval MESSAGE_TIMEOUT_S MESSAGE_TIMEOUT_US))
      by discriminate.
    nia.
Qed.

End SerialLineFacts.

(** ** Start-up options *)

Section InstantiateFacts.

Context {platform : Platform}.

Lemma getopt_loop_spec opts :
  forall l0,
    device_name (getopt_loop opts l0)
    = match option_value "d" opts with
      | Some a => Some a
      | None => device_name l0
      end /\
    baudrate (getopt_loop opts l0)
    = match option_value "b" opts with
      | Some a => px4_get_parameter_value a
      | None => baudrate l0
      end /\
    error_flag (getopt_loop opts l0)
    = error_flag l0 || unrecognized_flag_present opts.
Proof.
  induction opts as [|[ch arg] rest IH]; intros l0.
  - cbn. now rewrite orb_false_r.
  - cbn [getopt_loop option_value unrecognized_flag_present existsb fst].
    destruct (IH (handle_option (ch, arg) l0))
      as (Hd & Hb & He).
    rewrite Hd, Hb, He. unfold handle_option, recognized.
    destruct (Ascii.eqb ch "d") eqn:Hchd.
    + apply Ascii.eqb_eq in Hchd. subst ch. cbn.
      destruct (option_value "d" rest), (option_value "b" rest); auto.
    + destruct (Ascii.eqb ch "b") eqn:Hchb; cbn.
      * destruct (option_value "d" rest), (option_value "b" rest); auto.
      * destruct (option_value "d" rest), (option_value "b" rest);
          repeat split; auto; now rewrite orb_true_r.
Qed.

Lemma int_to_speed_supported v :
  supported_baud v -> speed_value (int_to_speed v) = v.
Proof.
  unfold supported_baud. cbn [In].
  intros [<-|[<-|[<-|[<-|[<-|[]]]]]]; reflexivity.
Qed.

Lemma int_to_speed_default v :
  ~ supported_baud v -> int_to_speed v = DEFAULT_BAUD.
Proof.
  unfold supported_baud, int_to_speed. cbn [In]. intros Hv.
  repeat match goal with
         | |- context [?a =? ?b] =>
             destruct (Z.eqb_spec a b); [exfalso; apply Hv; auto 10|]
         end.
  reflexivity.
Qed.

Lemma instantiate_result opts :
  let l := getopt_loop opts (mkLocals None false 0 []) in
  fst (instantiate opts)
  = if error_flag l
       || match device_name l with None => true | Some _ => false end
       || (baudrate l =? 0)
    then None
    else Some (device_name l, int_to_speed (baudrate l)).
Proof.
  intros l. unfold instantiate. fold l.
  unfold check_baudrate, check_device_name.
  destruct (error_flag l) eqn:He; cbn [negb andb orb].
  { rewrite He. cbn [negb andb]. rewrite He. reflexivity. }
  destruct (device_name l) eqn:Hd; cbn [error_flag negb andb orb baudrate].
  2:{ reflexivity. }
  rewrite He. cbn [negb andb].
  destruct (baudrate l =? 0) eqn:Hb; cbn [error_flag device_name baudrate fst].
  - reflexivity.
  - rewrite He, Hd. reflexivity.
Qed.

(** C10: [instantiate] returns [nullptr] exactly when no device name was
    given, no baud rate was given or the one given resolves to 0, or a flag
    other than [-d] and [-b] is present.  Otherwise the driver is constructed
    with the device name and the speed of the given baud rate, which is non
    zero; 115200 stands in only for a rate outside the supported ones. *)
Theorem instantiate_needs_device_and_baudrate
    (opts : list (ascii * String.string)) :
  let given := option_map px4_get_parameter_value (option_value "b" opts) in
  (fst (instantiate opts) = None <->
   option_value "d" opts = None \/ given = None \/ given = Some 0 \/
   unrecognized_flag_present opts = true) /\
  (forall name speed,
     fst (instantiate opts) = Some (name, speed) ->
     exists dev v,
       name = Some dev /\ option_value "d" opts = Some dev /\
       given = Some v /\ v <> 0 /\ speed = int_to_speed v /\
       (supported_baud v -> speed_value speed = v) /\
       (~ supported_baud v -> speed = DEFAULT_BAUD)).
Proof.
  intros given. subst given. rewrite instantiate_result. cbv zeta.
  destruct (getopt_loop_spec opts (mkLocals None false 0 []))
    as (Hd & Hb & He).
  cbn [device_name baudrate error_flag orb] in Hd, Hb, He.
  rewrite Hd, Hb, He.
  destruct (unrecognized_flag_present opts) eqn:Hu; cbn [orb].
  { split; [tauto|discriminate]. }
  destruct (option_value "d" opts) as [dev|] eqn:Hdev; cbn [orb].
  2:{ split; [tauto|discriminate]. }
  destruct (option_value "b" opts) as [arg|] eqn:Harg; cbn [option_map].
  2:{ cbn. split; [tauto|discriminate]. }
  destruct (Z.eqb_spec (px4_get_parameter_value arg) 0) as [H0|H0].
  { rewrite H0. split; [tauto|discriminate]. }
  split.
  - split; [discriminate|].
    intros [H|[H|[H|H]]]; try discriminate. congruence.
  - intros name speed [= <- <-]. exists dev, (px4_get_parameter_value arg).
    repeat split; auto.
    + apply int_to_speed_supported.
    + apply int_to_speed_default.
Qed.

End InstantiateFacts.

(** ** The example sessions *)

Lemma arrived_length t n : forall q, (length (SerialLine.arrived t n q) <= n)%nat.
Proof.
  induction n as [|n IH]; intros q; [cbn; lia|].
  destruct q as [|[t' b] q]; cbn; [lia|].
  destruct (t' <=? t); cbn; [|lia]. specialize (IH q). lia.
Qed.

Lemma serial_line_read_within_count : read_within_count SerialLine.env.
Proof.
  intros count w Hcount. cbn.
  pose proof (arrived_length (SerialLine.now w) (Z.to_nat count)
                (SerialLine.rx w)).
  lia.
Qed.

(** C2 on a silent device: three turns without cancellation, still ranging. *)
Lemma only_cancellation_ends_run_witness :
  let d := Examples.ranging Examples.silent in
  pc d <> Stopped /\
  (forall k, (k < 3)%nat ->
     pc (run_for (hdr := Examples.header) k d) = Ranging ->
     fst (env_should_exit Scripted.env
            (world (run_for (hdr := Examples.header) k d))) = false) /\
  pc (run_for (hdr := Examples.header) 3 d) <> Stopped.
Proof.
  intros d.
  assert (Hrun : pc d <> Stopped) by discriminate.
  assert (Hquiet : forall k, (k < 3)%nat ->
            pc (run_for (hdr := Examples.header) k d) = Ranging ->
            fst (env_should_exit Scripted.env
                   (world (run_for (hdr := Examples.header) k d))) = false).
  { intros k Hk _. destruct k as [|[|[|k]]]; [reflexivity..|lia]. }
  split; [exact Hrun|]. split; [exact Hquiet|].
  exact (proj2 (only_cancellation_ends_run (hdr := Examples.header) d 3 Hrun)
               Hquiet).
Defined.

(** C3 on the stalled frame: the empty read ends the attempt at cursor 1. *)
Lemma empty_read_ends_accumulation_witness :
  let tv := mkTimeval 0 BYTE_TIMEOUT_US in
  let d1 := snd (uart_select tv Examples.stalled) in
  accumulate 52 DistanceResultMsg 1 tv Examples.stalled
  = (Some 1, snd (uart_read DistanceResultMsg 1 50 d1)) /\
  forall msg, acceptable DistanceResultMsg 1 msg = false.
Proof.
  apply (empty_read_ends_accumulation 51 DistanceResultMsg 1
           (mkTimeval 0 BYTE_TIMEOUT_US) Examples.stalled).
  - reflexivity.
  - reflexivity.
  - vm_compute. discriminate.
Defined.

(** C3 as worded fails on the stalled frame: going back to waiting would
    have picked up the fifty bytes that follow. *)
Lemma zero_read_abandons_attempt :
  ~ zero_read_resumes_waiting 51 DistanceResultMsg 1
      (mkTimeval 0 BYTE_TIMEOUT_US) Examples.stalled.
Proof.
  unfold zero_read_resumes_waiting. vm_compute.
  intros H. specialize (H eq_refl eq_refl eq_refl). discriminate H.
Qed.

(** C5 on a silent device: one error counted, nothing published, one
    warning. *)
Lemma failed_ranging_attempt_counted_witness :
  let d := Examples.ranging Examples.silent in
  let d1 := snd (should_exit d) in
  let loc := fst (frame_attempt DistanceResultMsg d1) in
  (loc <> sizeof_distance_msg_t \/
   stop (_distance_result_msg (snd (frame_attempt DistanceResultMsg d1)))
   <> x1b) /\
  _read_err_perf (step (hdr := Examples.header) d) = _read_err_perf d + 1 /\
  published (trace (step (hdr := Examples.header) d)) = published (trace d) /\
  pc (step (hdr := Examples.header) d) = Ranging /\
  warnings (trace (step (hdr := Examples.header) d))
  = (warnings (trace d) + if (loc =? 0)%Z then 1 else 0)%nat.
Proof.
  intros d d1 loc.
  assert (Hfail : loc <> sizeof_distance_msg_t \/
            stop (_distance_result_msg
                    (snd (frame_attempt DistanceResultMsg d1))) <> x1b).
  { left. vm_compute. discriminate. }
  split; [exact Hfail|].
  exact (failed_ranging_attempt_counted (hdr := Examples.header) d
           eq_refl eq_refl Hfail).
Defined.

(** C6 on five aborted survey attempts: still surveying, command written
    five times. *)
Lemma survey_retried_without_bound_witness :
  let d := start Scripted.env Examples.five_aborted in
  pc d = AwaitingSurvey /\
  (forall k, (k < 5)%nat ->
     survey_attempt_rejected (H := Examples.header)
       (run_for (hdr := Examples.header) k d)) /\
  pc (run_for (hdr := Examples.header) 5 d) = AwaitingSurvey /\
  sent GridSurvey (trace (run_for (hdr := Examples.header) 5 d)) = 5%nat.
Proof.
  intros d.
  assert (Hrej : forall k, (k < 5)%nat ->
            survey_attempt_rejected (H := Examples.header)
              (run_for (hdr := Examples.header) k d)).
  { intros k Hk. destruct k as [|[|[|[|[|k]]]]]; [reflexivity..|lia]. }
  split; [reflexivity|]. split; [exact Hrej|].
  exact (survey_retried_without_bound (hdr := Examples.header) d 5 eq_refl
           Hrej).
Defined.

(** C7 on the timed line. *)
Lemma cursor_stays_within_message_witness :
  read_within_count SerialLine.env /\
  exists evs,
    trace (snd (frame_attempt DistanceResultMsg Examples.on_the_line))
    = trace Examples.on_the_line ++ evs /\
    cursor_respected DistanceResultMsg 0 evs /\
    fst (frame_attempt DistanceResultMsg Examples.on_the_line)
    = cursor_after 0 evs /\
    0 <= fst (frame_attempt DistanceResultMsg Examples.on_the_line)
      <= sizeof_msg DistanceResultMsg /\
    (Z.of_nat (length (get_msg DistanceResultMsg Examples.on_the_line))
     = sizeof_msg DistanceResultMsg ->
     Z.of_nat (length (get_msg DistanceResultMsg
                 (snd (frame_attempt DistanceResultMsg Examples.on_the_line))))
     = sizeof_msg DistanceResultMsg).
Proof.
  split; [exact serial_line_read_within_count|].
  exact (cursor_stays_within_message DistanceResultMsg Examples.on_the_line
           serial_line_read_within_count).
Defined.

(** C4 on the timed line: the distance result comes out as it went in, from
    the first attempt when it starts at once, from a later one when it starts
    after 25 seconds. *)
Lemma frame_in_time_rebuilt_exactly_witness :
  let d := Examples.on_the_line in
  let late := Examples.late_on_the_line in
  SerialLine.gaps_below BYTE_TIMEOUT_US 100 (tl Examples.arrival_times) /\
  (fst (frame_attempt DistanceResultMsg d) = 51 /\
   get_msg DistanceResultMsg (snd (frame_attempt DistanceResultMsg d))
   = Examples.distance_frame /\
   SerialLine.rx (world (snd (frame_attempt DistanceResultMsg d)))
   = [(50200, x8e)]) /\
  exists k,
    (forall j, (j < k)%nat ->
       fst (frame_attempt DistanceResultMsg
              (attempts j DistanceResultMsg late)) = 0) /\
    fst (frame_attempt DistanceResultMsg (attempts k DistanceResultMsg late))
    = 51 /\
    get_msg DistanceResultMsg
      (snd (frame_attempt DistanceResultMsg
              (attempts k DistanceResultMsg late)))
    = Examples.distance_frame /\
    SerialLine.rx
      (world (snd (frame_attempt DistanceResultMsg
                     (attempts k DistanceResultMsg late)))) = [].
Proof.
  intros d late.
  assert (Hgaps : SerialLine.gaps_below BYTE_TIMEOUT_US 100
                    (tl Examples.arrival_times)).
  { cbv. repeat split; discriminate. }
  assert (Hlate : SerialLine.gaps_below BYTE_TIMEOUT_US 25000100
                    (tl Examples.late_times)).
  { cbv. repeat split; discriminate. }
  split; [exact Hgaps|]. split.
  - exact (proj1 (SerialLineFacts.frame_in_time_rebuilt_exactly
                    DistanceResultMsg Examples.distance_frame 100
                    (tl Examples.arrival_times) [(50200, x8e)] d
                    eq_refl eq_refl eq_refl eq_refl Hgaps)
                 eq_refl).
  - exact (proj2 (SerialLineFacts.frame_in_time_rebuilt_exactly
                    DistanceResultMsg Examples.distance_frame 25000100
                    (tl Examples.late_times) [] late
                    eq_refl eq_refl eq_refl eq_refl Hlate)).
Defined.

(** C1 on three scripted turns: a whole distance result and a whole survey
    answer are published, a distance result with a wrong terminal byte is
    not. *)
Lemma accepted_iff_size_and_stop_byte_witness :
  (exists t msg,
     published (trace (step (hdr := Examples.header)
                            (Examples.ranging Examples.one_result)))
     = [EvPublishDistance t msg]) /\
  published (trace (step (hdr := Examples.header)
                         (Examples.ranging Examples.one_bad_result))) = [] /\
  (exists t msg,
     published (trace (step (hdr := Examples.header)
                            (start Scripted.env Examples.one_survey)))
     = [EvPublishGrid t msg]).
Proof.
  split; [|split].
  - destruct (proj1 (proj2 (accepted_iff_size_and_stop_byte
                              (hdr := Examples.header)
                              (Examples.ranging Examples.one_result))
                           eq_refl eq_refl))
      as [t Ht]; [split; reflexivity|].
    exists t. eexists. exact Ht.
  - apply (proj2 (proj2 (accepted_iff_size_and_stop_byte
                           (hdr := Examples.header)
                           (Examples.ranging Examples.one_bad_result))
                        eq_refl eq_refl)).
    vm_compute. intros [_ H]. discriminate H.
  - destruct (proj1 (proj1 (accepted_iff_size_and_stop_byte
                              (hdr := Examples.header)
                              (start Scripted.env Examples.one_survey))
                           eq_refl))
      as [_ [t Ht]]; [split; reflexivity|].
    exists t. eexists. exact Ht.
Defined.

(** C10 on two command lines: no baud rate, no driver; an unsupported baud
    rate, the default speed. *)
Lemma instantiate_needs_device_and_baudrate_witness :
  fst (instantiate (platform := Examples.platform) Examples.no_rate) = None /\
  exists dev v,
    option_value "d" Examples.unsupported_rate = Some dev /\
    v <> 0 /\ ~ supported_baud v /\
    fst (instantiate (platform := Examples.platform)
                     Examples.unsupported_rate)
    = Some (Some dev, DEFAULT_BAUD).
Proof.
  split.
  - apply (proj1 (instantiate_needs_device_and_baudrate
                    (platform := Examples.platform) Examples.no_rate)).
    right; left. reflexivity.
  - destruct (proj2 (instantiate_needs_device_and_baudrate
                       (platform := Examples.platform)
                       Examples.unsupported_rate)
                    _ _ eq_refl)
      as (dev & v & Hname & Hdev & Hgiven & Hv & Hspeed & _ & Hdefault).
    exists dev, v. injection Hgiven as <-.
    assert (Hno : ~ supported_baud 230400).
    { cbv. intuition discriminate. }
    repeat split; auto. rewrite <- Hname. reflexivity.
Defined.

(** C8 on a whole session: after the survey, one distance result and the
    cancellation, [run] has returned with the stop command written once, and
    two more turns leave everything as it is. *)
Lemma stop_command_written_once_witness :
  let d := run_for (hdr := Examples.header) 3
                   (start Scripted.env Examples.whole_session) in
  pc d = Stopped /\
  sent StopRanging (trace d) = 1%nat /\
  cancellations (trace d) = 1%nat /\
  run_for (hdr := Examples.header) 2 d = d.
Proof.
  intros d.
  pose proof (stop_command_written_once (E := Scripted.env)
                (hdr := Examples.header) Examples.whole_session 3) as H.
  cbv zeta in H. fold d in H.
  assert (Hpc : pc d = Stopped) by reflexivity.
  rewrite Hpc in H. destruct H as (_ & Hsent & Hcancel & Hidle).
  split; [exact Hpc|]. split; [exact Hsent|]. split; [exact Hcancel|].
  apply Hidle.
Defined.

(** ** The session as a whole *)

Lemma polls_app t1 t2 : polls (t1 ++ t2) = (polls t1 + polls t2)%nat.
Proof. unfold polls. now rewrite filter_app, length_app. Qed.

Lemma waits_polls evs :
  Forall (fun e => is_wait e = true) evs -> polls evs = 0%nat.
Proof.
  intros H. unfold polls. rewrite (filter_none _ is_wait); auto. now intros [].
Qed.

Lemma write_events_polls c data w : polls (write_events c data w) = 0%nat.
Proof. unfold write_events. now destruct (w <? sizeof data). Qed.

Section SessionFacts.

Context {E : Env} {hdr : Header}.

(** Every way one loop turn can go, with the events it adds and what it
    does to the two counters. *)
Lemma step_ledger (d : driver E) :
  (pc d = AwaitingSurvey /\
   _read_count_perf (step d) = _read_count_perf d + 1 /\
   _read_err_perf (step d) = _read_err_perf d /\
   exists w evs,
     Forall (fun e => is_wait e = true) evs /\
     (pc (step d) = AwaitingSurvey /\
      trace (step d) =
        trace d ++ write_events GridSurvey (cmd_bytes GridSurvey) w ++ evs
      \/
      pc (step d) = Ranging /\
      exists t msg w',
        trace (step d) =
          trace d ++ write_events GridSurvey (cmd_bytes GridSurvey) w
                  ++ evs
                  ++ [EvAttitudeUpdate; EvPublishGrid t msg; EvGridFound;
                      EvSleep 1]
                  ++ write_events DistanceResult (cmd_bytes DistanceResult)
                                  w'))
  \/
  (pc d = Ranging /\ fst (env_should_exit E (world d)) = true /\
   pc (step d) = Stopped /\
   _read_count_perf (step d) = _read_count_perf d /\
   _read_err_perf (step d) = _read_err_perf d /\
   exists w,
     trace (step d) =
       trace d ++ EvShouldExit true
               :: write_events StopRanging CMD_STOP_RANGING w)
  \/
  (pc d = Ranging /\ fst (env_should_exit E (world d)) = false /\
   pc (step d) = Ranging /\
   _read_count_perf (step d) = _read_count_perf d + 1 /\
   exists evs,
     Forall (fun e => is_wait e = true) evs /\
     ((exists t msg,
         trace (step d) =
           trace d ++ EvShouldExit false
                   :: evs ++ [EvAttitudeUpdate; EvPublishDistance t msg]) /\
      _read_err_perf (step d) = _read_err_perf d
      \/
      (exists tail,
         (tail = [] \/ tail = [EvNotResponding]) /\
         trace (step d) = trace d ++ EvShouldExit false :: evs ++ tail) /\
      _read_err_perf (step d) = _read_err_perf d + 1))
  \/
  (pc d = Stopped /\ step d = d).
Proof.
  destruct (pc d) eqn:Hpc.
  - left. split; [reflexivity|].
    set (d1 := snd (send_command GridSurvey d)).
    destruct (frame_attempt_only_waits GridSurveyMsg d1) as [evs Hw].
    set (d2 := snd (frame_attempt GridSurveyMsg d1)) in *.
    assert (Hd1 : trace d1 = trace d ++ write_events GridSurvey
              (cmd_bytes GridSurvey)
              (fst (env_write E (cmd_bytes GridSurvey)
                      (sizeof (cmd_bytes GridSurvey)) (world d)))
            /\ pc d1 = pc d
            /\ _read_count_perf d1 = _read_count_perf d
            /\ _read_err_perf d1 = _read_err_perf d).
    { subst d1. rewrite send_command_eq. repeat split; reflexivity. }
    destruct Hd1 as (Hd1 & Hpc1 & Hc1 & He1).
    destruct (acceptable GridSurveyMsg (fst (frame_attempt GridSurveyMsg d1))
                (_grid_survey_msg d2)) eqn:Hacc.
    + destruct (step_survey_accepted d Hpc Hacc) as (t & w & wr & Hstep).
      fold d1 d2 in Hstep. rewrite Hstep. driver_fields.
      rewrite (ow_count _ _ _ Hw), (ow_err _ _ _ Hw), Hc1, He1.
      split; [reflexivity|]. split; [reflexivity|].
      eexists _, evs. split; [apply Hw|]. right. split; [reflexivity|].
      eexists _, _, _.
      rewrite (ow_trace _ _ _ Hw), Hd1, <- !app_assoc. reflexivity.
    + rewrite (step_survey_rejected d Hpc Hacc). fold d1 d2.
      unfold perf_count_read. driver_fields.
      rewrite (ow_count _ _ _ Hw), (ow_err _ _ _ Hw), Hc1, He1.
      split; [reflexivity|]. split; [reflexivity|].
      eexists _, evs. split; [apply Hw|]. left. split.
      * rewrite (ow_pc _ _ _ Hw). congruence.
      * rewrite (ow_trace _ _ _ Hw), Hd1, <- !app_assoc. reflexivity.
  - destruct (fst (env_should_exit E (world d))) eqn:Hexit.
    + right; left. destruct (step_ranging_exit d Hpc Hexit) as (w & wr & Hs).
      rewrite Hs. driver_fields. repeat split. eexists. reflexivity.
    + right; right; left.
      set (d1 := snd (should_exit d)).
      destruct (frame_attempt_only_waits DistanceResultMsg d1) as [evs Hw].
      set (d2 := snd (frame_attempt DistanceResultMsg d1)) in *.
      assert (Hd1 : trace d1 = trace d ++ [EvShouldExit false]
                    /\ pc d1 = pc d
                    /\ _read_count_perf d1 = _read_count_perf d
                    /\ _read_err_perf d1 = _read_err_perf d).
      { subst d1. rewrite should_exit_eq, Hexit. repeat split; reflexivity. }
      destruct Hd1 as (Hd1 & Hpc1 & Hc1 & He1).
      assert (Hpc2 : pc d2 = Ranging)
        by (rewrite (ow_pc _ _ _ Hw); congruence).
      destruct (acceptable DistanceResultMsg
                  (fst (frame_attempt DistanceResultMsg d1))
                  (_distance_result_msg d2)) eqn:Hacc.
      * destruct (step_ranging_accepted d Hpc Hexit Hacc) as (t & w & Hs).
        fold d1 d2 in Hs. rewrite Hs. driver_fields.
        rewrite (ow_count _ _ _ Hw), (ow_err _ _ _ Hw), Hc1, He1.
        repeat split; auto.
        exists evs. split; [apply Hw|]. left. split; [|reflexivity].
        eexists _, _.
        rewrite (ow_trace _ _ _ Hw), Hd1, <- !app_assoc. reflexivity.
      * rewrite (step_ranging_rejected d Hpc Hexit Hacc). fold d1 d2.
        driver_fields.
        rewrite (ow_count _ _ _ Hw), (ow_err _ _ _ Hw), Hc1, He1.
        repeat split; auto.
        exists evs. split; [apply Hw|]. right. split; [|reflexivity].
        eexists. split.
        2:{ rewrite (ow_trace _ _ _ Hw), Hd1, <- !app_assoc. reflexivity. }
        destruct (fst (frame_attempt DistanceResultMsg d1) =? 0); auto.
  - right; right; right. split; [reflexivity|].
    unfold step. now rewrite Hpc.
Qed.

Lemma step_accounted (d : driver E) : accounted d -> accounted (step d).
Proof.
  unfold accounted. intros (Herr & Hwarn & Hsum).
  destruct (step_ledger d) as [H|[H|[H|H]]].
  - destruct H as (Hpc & Hc & He & w & evs & Hw & Hcase).
    rewrite Hpc in Hsum. rewrite Hc, He.
    destruct Hcase as [[Hp Ht]|[Hp (t & msg & w' & Ht)]]; rewrite Hp, Ht;
      rewrite ?published_app, ?warnings_app, ?sent_app, ?length_app,
        ?write_events_published, ?write_events_warnings, ?write_events_sent,
        (waits_published evs Hw), (waits_warnings evs Hw),
        (waits_sent evs Hw); cbn; lia.
  - destruct H as (Hpc & Hexit & Hp & Hc & He & w & Ht).
    rewrite Hpc in Hsum. rewrite Hc, He, Hp, Ht.
    change (EvShouldExit true :: write_events StopRanging CMD_STOP_RANGING w)
      with ([EvShouldExit true]
              ++ write_events StopRanging CMD_STOP_RANGING w).
    rewrite ?published_app, ?warnings_app, ?sent_app, ?length_app,
      ?write_events_published, ?write_events_warnings, ?write_events_sent.
    cbn. lia.
  - destruct H as (Hpc & Hexit & Hp & Hc & evs & Hw & Hcase).
    rewrite Hpc in Hsum. rewrite Hc, Hp.
    destruct Hcase as [[(t & msg & Ht) He]|[(tail & Htail & Ht) He]];
      rewrite He, Ht.
    + change (EvShouldExit false
                :: evs ++ [EvAttitudeUpdate; EvPublishDistance t msg])
        with ([EvShouldExit false]
                ++ evs ++ [EvAttitudeUpdate; EvPublishDistance t msg]).
      rewrite ?published_app, ?warnings_app, ?sent_app, ?length_app,
        (waits_published evs Hw), (waits_warnings evs Hw),
        (waits_sent evs Hw).
      cbn. lia.
    + change (EvShouldExit false :: evs ++ tail)
        with ([EvShouldExit false] ++ evs ++ tail).
      rewrite ?published_app, ?warnings_app, ?sent_app, ?length_app,
        (waits_published evs Hw), (waits_warnings evs Hw),
        (waits_sent evs Hw).
      destruct Htail as [->| ->]; cbn; lia.
  - destruct H as (_ & ->). auto.
Qed.

Lemma run_for_accounted n :
  forall d : driver E, accounted d -> accounted (run_for n d).
Proof.
  induction n as [|n IH]; intros d Hd; [exact Hd|].
  cbn [run_for]. apply IH, step_accounted, Hd.
Qed.

(** X1: the books of the counters balance at every loop head of a session.
    The error counter never exceeds the attempt counter, the "not
    responding" warnings never exceed the errors, and the attempts counted
    are exactly the survey commands written, the distance records published
    and the errors. *)
Theorem counters_account_for_every_attempt (w : W E) (n : nat) :
  accounted (run_for n (start E w)).
Proof.
  apply run_for_accounted. unfold accounted. cbn. lia.
Qed.

Lemma step_session_order (d : driver E) :
  session_order d -> session_order (step d).
Proof.
  unfold session_order. intros Hd.
  destruct (step_ledger d) as [H|[H|[H|H]]].
  - destruct H as (Hpc & _ & _ & w & evs & Hw & Hcase).
    rewrite Hpc in Hd. destruct Hd as (Hpub & Hsent & Hpolls).
    destruct Hcase as [[Hp Ht]|[Hp (t & msg & w' & Ht)]]; rewrite Hp, Ht.
    + rewrite ?published_app, ?sent_app, ?polls_app,
        ?write_events_published, ?write_events_sent, ?write_events_polls,
        (waits_published evs Hw), (waits_sent evs Hw), (waits_polls evs Hw),
        Hpub, Hsent, Hpolls.
      repeat split.
    + rewrite ?published_app, ?sent_app,
        ?write_events_published, ?write_events_sent,
        (waits_published evs Hw), (waits_sent evs Hw), Hpub, Hsent.
      split; [reflexivity|]. exists t, msg, []. split; [reflexivity|].
      constructor.
  - destruct H as (Hpc & Hexit & Hp & _ & _ & w & Ht).
    rewrite Hpc in Hd. destruct Hd as (Hsent & t & msg & rest & Hpub & Hrest).
    rewrite Hp, Ht.
    change (EvShouldExit true :: write_events StopRanging CMD_STOP_RANGING w)
      with ([EvShouldExit true]
              ++ write_events StopRanging CMD_STOP_RANGING w).
    rewrite ?published_app, ?sent_app, ?write_events_published,
      ?write_events_sent, Hsent, Hpub.
    split; [reflexivity|]. exists t, msg, rest. cbn.
    rewrite app_nil_r. auto.
  - destruct H as (Hpc & Hexit & Hp & _ & evs & Hw & Hcase).
    rewrite Hpc in Hd. destruct Hd as (Hsent & t & msg & rest & Hpub & Hrest).
    rewrite Hp.
    destruct Hcase as [[(t' & msg' & Ht) _]|[(tail & Htail & Ht) _]];
      rewrite Ht.
    + change (EvShouldExit false
                :: evs ++ [EvAttitudeUpdate; EvPublishDistance t' msg'])
        with ([EvShouldExit false]
                ++ evs ++ [EvAttitudeUpdate; EvPublishDistance t' msg']).
      rewrite ?published_app, ?sent_app, (waits_published evs Hw),
        (waits_sent evs Hw), Hsent, Hpub.
      split; [reflexivity|].
      exists t, msg, (rest ++ [EvPublishDistance t' msg']). split.
      * reflexivity.
      * apply Forall_app. split; [exact Hrest|]. repeat constructor.
    + change (EvShouldExit false :: evs ++ tail)
        with ([EvShouldExit false] ++ evs ++ tail).
      rewrite ?published_app, ?sent_app, (waits_published evs Hw),
        (waits_sent evs Hw), Hsent, Hpub.
      destruct Htail as [->| ->]; (split; [reflexivity|]);
        exists t, msg, rest; cbn; rewrite app_nil_r; auto.
  - destruct H as (_ & ->). exact Hd.
Qed.

Lemma run_for_session_order n :
  forall d : driver E, session_order d -> session_order (run_for n d).
Proof.
  induction n as [|n IH]; intros d Hd; [exact Hd|].
  cbn [run_for]. apply IH, step_session_order, Hd.
Qed.

(** X2: a session runs in order.  Until the survey is acquired nothing is
    published, the ranging command is not written and [should_exit()] is
    never called; from then on the ranging command has been written exactly
    once and the publications are the one grid record followed by distance
    records only. *)
Theorem session_runs_in_order (w : W E) (n : nat) :
  session_order (run_for n (start E w)).
Proof.
  apply run_for_session_order. repeat split.
Qed.

End SessionFacts.

(** ** More about one framing attempt *)

Lemma waited_repeat tv k :
  fold_right (fun tv acc => timeval_us tv + acc) 0 (repeat tv k)
  = Z.of_nat k * timeval_us tv.
Proof.
  induction k as [|k IH]; [reflexivity|].
  cbn [repeat fold_right]. rewrite IH. lia.
Qed.

Lemma store_firstn (buf data : list byte) (loc : Z) :
  0 <= loc ->
  loc + Z.of_nat (length data) <= Z.of_nat (length buf) ->
  firstn (Z.to_nat (loc + Z.of_nat (length data))) (store buf loc data)
  = firstn (Z.to_nat loc) buf ++ data.
Proof.
  intros Hloc Hfit. unfold store.
  replace (Z.to_nat (loc + Z.of_nat (length data)))
    with (length (firstn (Z.to_nat loc) buf) + length data)%nat
    by (rewrite length_firstn; lia).
  rewrite firstn_app_2, firstn_app, firstn_all, Nat.sub_diag.
  cbn [firstn]. now rewrite app_nil_r.
Qed.

Lemma store_skipn (buf data : list byte) (loc k : Z) :
  0 <= loc ->
  loc + Z.of_nat (length data) <= k ->
  loc + Z.of_nat (length data) <= Z.of_nat (length buf) ->
  skipn (Z.to_nat k) (store buf loc data) = skipn (Z.to_nat k) buf.
Proof.
  intros Hloc Hk Hfit. unfold store.
  rewrite !skipn_app, length_firstn.
  rewrite (skipn_all2 (firstn _ _)) by (rewrite length_firstn; lia).
  rewrite (skipn_all2 data) by lia.
  cbn [app]. rewrite skipn_skipn. f_equal. lia.
Qed.

Section AttemptFacts.

Context {E : Env}.

(** The waits of the loop entered at [loc] with timeout [tv]: the first one
    with [tv], the others with the byte timeout, fewer of them than bytes
    still missing. *)
Lemma accumulate_waits fuel :
  forall m loc tv (d : driver E),
    exists evs k,
      trace (snd (accumulate fuel m loc tv d)) = trace d ++ evs /\
      (wait_timeouts evs = []
       \/ loc + Z.of_nat k < sizeof_msg m /\
          wait_timeouts evs
          = tv :: repeat (mkTimeval 0 BYTE_TIMEOUT_US) k).
Proof.
  induction fuel as [|fuel IH]; intros m loc tv d.
  - exists [], 0%nat. cbn. rewrite app_nil_r. auto.
  - rewrite accumulate_unfold.
    destruct (loc <? sizeof_msg m) eqn:Hlt.
    2:{ exists [], 0%nat. cbn. rewrite app_nil_r. auto. }
    apply Z.ltb_lt in Hlt.
    rewrite uart_select_eq. cbv beta iota.
    set (r := fst (env_select E tv (world d))).
    set (d1 := log (EvSelect tv r)
                   (set_world (snd (env_select E tv (world d))) d)).
    destruct (r >? 0).
    2:{ exists [EvSelect tv r], 0%nat. cbn. split; [reflexivity|].
        right. split; [lia|reflexivity]. }
    pose proof (uart_read_only_waits m loc (sizeof_msg m - loc) d1) as Hr.
    destruct (uart_read m loc (sizeof_msg m - loc) d1) as [n d2].
    cbn [snd] in Hr.
    set (rd := fst (env_read E (sizeof_msg m - loc) (world d1))) in *.
    assert (Htr : trace d2 = trace d
                    ++ [EvSelect tv r; EvRead m loc (sizeof_msg m - loc) rd]).
    { rewrite (ow_trace _ _ _ Hr). subst d1. cbn. now rewrite <- app_assoc. }
    destruct (n >? 0) eqn:Hn.
    2:{ exists [EvSelect tv r; EvRead m loc (sizeof_msg m - loc) rd], 0%nat.
        cbn [snd]. split; [exact Htr|]. right. split; [lia|reflexivity]. }
    apply Z.gtb_lt in Hn.
    destruct (IH m (loc + n) (mkTimeval 0 BYTE_TIMEOUT_US) d2)
      as (evs & k & Hevs & Hk).
    exists (EvSelect tv r :: EvRead m loc (sizeof_msg m - loc) rd :: evs).
    destruct Hk as [Hnone|[Hk Hsome]].
    + exists 0%nat. split.
      * rewrite Hevs, Htr, <- app_assoc. reflexivity.
      * right. cbn [wait_timeouts]. rewrite Hnone. split; [lia|reflexivity].
    + exists (S k). split.
      * rewrite Hevs, Htr, <- app_assoc. reflexivity.
      * right. cbn [wait_timeouts]. rewrite Hsome. split; [lia|reflexivity].
Qed.

(** Entered below the message size, the loop does wait at least once. *)
Lemma accumulate_first_wait fuel m loc tv (d : driver E) :
  loc < sizeof_msg m ->
  exists evs k,
    trace (snd (accumulate (S fuel) m loc tv d)) = trace d ++ evs /\
    loc + Z.of_nat k < sizeof_msg m /\
    wait_timeouts evs = tv :: repeat (mkTimeval 0 BYTE_TIMEOUT_US) k.
Proof.
  intros Hlt.
  destruct (accumulate_waits (S fuel) m loc tv d) as (evs & k & Hevs & Hk).
  destruct Hk as [Hnone|[Hk Hsome]]; [|exists evs, k; auto].
  exfalso. rewrite accumulate_unfold in Hevs.
  replace (loc <? sizeof_msg m) with true in Hevs
    by (symmetry; now apply Z.ltb_lt).
  rewrite uart_select_eq in Hevs. cbv beta iota in Hevs.
  set (r := fst (env_select E tv (world d))) in Hevs.
  set (d1 := log (EvSelect tv r) _) in Hevs.
  assert (Hd1 : exists evs1,
             trace (snd (if r >? 0
                         then let (bytes_read, d2) :=
                                uart_read m loc (sizeof_msg m - loc) d1 in
                              if bytes_read >? 0
                              then accumulate fuel m (loc + bytes_read)
                                     (mkTimeval 0 BYTE_TIMEOUT_US) d2
                              else (Some loc, d2)
                         else (Some loc, d1)))
             = trace d1 ++ evs1).
  { destruct (r >? 0); [|exists []; now rewrite app_nil_r].
    pose proof (uart_read_only_waits m loc (sizeof_msg m - loc) d1) as Hr.
    destruct (uart_read m loc (sizeof_msg m - loc) d1) as [n d2].
    cbn [snd] in Hr. destruct (n >? 0).
    - destruct (accumulate_only_waits fuel m (loc + n)
                  (mkTimeval 0 BYTE_TIMEOUT_US) d2) as [evs2 H2].
      eexists. rewrite (ow_trace _ _ _ H2), (ow_trace _ _ _ Hr),
        <- app_assoc. reflexivity.
    - eexists. apply (ow_trace _ _ _ Hr). }
  destruct Hd1 as [evs1 Hd1]. rewrite Hevs in Hd1. subst d1.
  cbn [trace log set_world] in Hd1. rewrite <- app_assoc in Hd1.
  apply app_inv_head in Hd1. rewrite Hd1 in Hnone. discriminate Hnone.
Qed.

(** X3: what one framing attempt can wait for.  Its first [select] gets the
    message timeout (10 s and 1 us), every later one the byte timeout
    (5 ms), and after the first there are fewer waits than the message has
    bytes; so the waits of an attempt add up to no more than the message
    timeout and one byte timeout per remaining byte. *)
Theorem attempt_waits_are_bounded (m : msgbuf) (d : driver E) :
  exists evs k,
    trace (snd (frame_attempt m d)) = trace d ++ evs /\
    wait_timeouts evs
    = mkTimeval MESSAGE_TIMEOUT_S MESSAGE_TIMEOUT_US
        :: repeat (mkTimeval 0 BYTE_TIMEOUT_US) k /\
    Z.of_nat k < sizeof_msg m /\
    waited evs <= 10000001 + (sizeof_msg m - 1) * 5000.
Proof.
  assert (Hpos : 0 < sizeof_msg m) by (destruct m; reflexivity).
  destruct (accumulate_first_wait (Z.to_nat (sizeof_msg m)) m 0
              (mkTimeval MESSAGE_TIMEOUT_S MESSAGE_TIMEOUT_US) d Hpos)
    as (evs & k & Hevs & Hk & Hw).
  rewrite frame_attempt_eq in Hevs. cbn [snd] in Hevs.
  exists evs, k. split; [exact Hevs|]. split; [exact Hw|]. split; [lia|].
  unfold waited. rewrite Hw. cbn [fold_right]. rewrite waited_repeat.
  change (timeval_us (mkTimeval MESSAGE_TIMEOUT_S MESSAGE_TIMEOUT_US))
    with 10000001.
  change (timeval_us (mkTimeval 0 BYTE_TIMEOUT_US)) with 5000. lia.
Qed.

(** Where the bytes go: from cursor [loc] on the message is overwritten, in
    order, by what the reads delivered; before the entry cursor and behind
    the final one it keeps what it held. *)
Lemma accumulate_received (Hread : read_within_count E) fuel :
  forall m loc tv (d : driver E),
    0 <= loc <= sizeof_msg m ->
    Z.of_nat (length (get_msg m d)) = sizeof_msg m ->
    Z.max 0 (sizeof_msg m - loc) < Z.of_nat fuel ->
    exists evs,
      trace (snd (accumulate fuel m loc tv d)) = trace d ++ evs /\
      fst (accumulate fuel m loc tv d)
      = Some (loc + Z.of_nat (length (received evs))) /\
      loc + Z.of_nat (length (received evs)) <= sizeof_msg m /\
      get_msg m (snd (accumulate fuel m loc tv d))
      = firstn (Z.to_nat loc) (get_msg m d) ++ received evs
          ++ skipn (Z.to_nat (loc + Z.of_nat (length (received evs))))
                   (get_msg m d).
Proof.
  induction fuel as [|fuel IH]; intros m loc tv d Hloc Hlen Hfuel; [lia|].
  rewrite accumulate_unfold.
  destruct (loc <? sizeof_msg m) eqn:Hlt.
  2:{ exists []. cbn [fst snd received length app]. rewrite app_nil_r, Z.add_0_r.
      repeat split; auto; [lia|]. now rewrite firstn_skipn. }
  apply Z.ltb_lt in Hlt.
  rewrite uart_select_eq. cbv beta iota.
  set (r := fst (env_select E tv (world d))).
  set (d1 := log (EvSelect tv r) (set_world (snd (env_select E tv (world d))) d)).
  assert (Hmsg1 : get_msg m d1 = get_msg m d)
    by (subst d1; now rewrite get_msg_log, get_msg_set_world).
  destruct (r >? 0).
  2:{ exists [EvSelect tv r]. cbn [fst snd received length app].
      rewrite Z.add_0_r, Hmsg1. repeat split; auto; [lia|].
      now rewrite firstn_skipn. }
  rewrite uart_read_eq. cbv beta iota zeta.
  set (count := sizeof_msg m - loc).
  assert (Hn : bytes_read_of (fst (env_read E count (world d1))) <= count)
    by (apply Hread; subst count; lia).
  set (rd := fst (env_read E count (world d1))) in *.
  set (d2 := log (EvRead m loc count rd)
                 (set_world (snd (env_read E count (world d1))) d1)).
  assert (Hmsg2 : get_msg m d2 = get_msg m d)
    by (subst d2; now rewrite get_msg_log, get_msg_set_world).
  assert (Htr2 : trace d2 = trace d ++ [EvSelect tv r; EvRead m loc count rd]).
  { subst d2 d1. cbn. now rewrite <- app_assoc. }
  destruct rd as [data|] eqn:Hrd; cbn [bytes_read_of] in *.
  - set (d3 := set_msg m (store (get_msg m d2) loc data) d2).
    assert (Htr3 : trace d3 = trace d2) by (subst d3; apply trace_set_msg).
    assert (Hmsg3 : get_msg m d3 = store (get_msg m d) loc data)
      by (subst d3; rewrite get_set_msg; f_equal; exact Hmsg2).
    destruct (Z.of_nat (length data) >? 0) eqn:Hpos.
    + apply Z.gtb_lt in Hpos.
      destruct (IH m (loc + Z.of_nat (length data))
                   (mkTimeval 0 BYTE_TIMEOUT_US) d3)
        as (evs & H1 & H2 & H3 & H4); [lia| |lia|].
      { rewrite Hmsg3, store_length; auto; lia. }
      exists (EvSelect tv r :: EvRead m loc count (Some data) :: evs).
      cbn [received]. rewrite length_app, Nat2Z.inj_add, Z.add_assoc.
      split; [now rewrite H1, Htr3, Htr2, <- app_assoc|].
      split; [exact H2|]. split; [exact H3|].
      rewrite H4, Hmsg3, store_firstn, store_skipn, <- !app_assoc;
        auto; lia.
    + rewrite Z.gtb_ltb in Hpos. apply Z.ltb_ge in Hpos.
      assert (data = []) by (destruct data; [reflexivity|cbn in Hpos; lia]).
      subst data.
      exists [EvSelect tv r; EvRead m loc count (Some [])].
      cbn [fst snd received length app]. rewrite Z.add_0_r.
      split; [now rewrite Htr3|]. split; [reflexivity|]. split; [lia|].
      rewrite Hmsg3. unfold store. cbn [length app].
      now rewrite Nat.add_0_r.
  - exists [EvSelect tv r; EvRead m loc count None].
    change (-1 >? 0) with false. cbv beta iota.
    cbn [fst snd received length app]. rewrite Z.add_0_r.
    fold d2. rewrite Hmsg2.
    repeat split; auto; [lia|]. now rewrite firstn_skipn.
Qed.

(** X4: under the contract of [read], an attempt leaves in the message the
    bytes its reads delivered, in order and from offset 0, followed by what
    the message held before from the final cursor on; the cursor is the
    number of bytes delivered.  A message that reaches its full size holds
    nothing that an earlier attempt left behind. *)
Theorem attempt_stores_what_was_read (m : msgbuf) (d : driver E) :
  read_within_count E ->
  Z.of_nat (length (get_msg m d)) = sizeof_msg m ->
  exists evs,
    trace (snd (frame_attempt m d)) = trace d ++ evs /\
    fst (frame_attempt m d) = Z.of_nat (length (received evs)) /\
    get_msg m (snd (frame_attempt m d))
    = received evs ++ skipn (length (received evs)) (get_msg m d) /\
    (fst (frame_attempt m d) = sizeof_msg m ->
     get_msg m (snd (frame_attempt m d)) = received evs).
Proof.
  intros Hread Hlen.
  assert (Hpos : 0 < sizeof_msg m) by (destruct m; reflexivity).
  destruct (accumulate_received Hread (S (Z.to_nat (sizeof_msg m))) m 0
              (mkTimeval MESSAGE_TIMEOUT_S MESSAGE_TIMEOUT_US) d)
    as (evs & H1 & H2 & H3 & H4); [lia|exact Hlen|lia|].
  rewrite frame_attempt_eq in H1, H2, H4. cbn [fst snd] in H1, H2, H4.
  injection H2 as H2. rewrite Z.add_0_l in *.
  cbn [Z.to_nat firstn app] in H4. rewrite Nat2Z.id in H4.
  exists evs. split; [exact H1|]. split; [exact H2|]. split; [exact H4|].
  intros Hfull. rewrite H4, skipn_all2, app_nil_r; [reflexivity|]. lia.
Qed.

End AttemptFacts.

(** ** A device that never answers *)

Section SilentDevice.

Context {E : Env} {hdr : Header}.

(** A set of worlds in which [select] never reports a byte, closed under
    what the survey loop does to the world. *)
Variable quiet : W E -> Prop.
Hypothesis quiet_select :
  forall tv w, quiet w ->
    fst (env_select E tv w) <= 0 /\ quiet (snd (env_select E tv w)).
Hypothesis quiet_write :
  forall data count w, quiet w -> quiet (snd (env_write E data count w)).

Lemma quiet_attempt m (d : driver E) :
  quiet (world d) ->
  fst (frame_attempt m d) = 0 /\ quiet (world (snd (frame_attempt m d))).
Proof.
  intros Hq. pose proof (frame_attempt_eq m d) as Heq.
  rewrite accumulate_unfold in Heq.
  replace (0 <? sizeof_msg m) with true in Heq by (now destruct m).
  rewrite uart_select_eq in Heq. cbv beta iota in Heq.
  destruct (quiet_select (mkTimeval MESSAGE_TIMEOUT_S MESSAGE_TIMEOUT_US)
              (world d) Hq) as [Hr Hq'].
  replace (fst (env_select E _ (world d)) >? 0) with false in Heq
    by (symmetry; rewrite Z.gtb_ltb; now apply Z.ltb_ge).
  injection Heq as H0 Hd. rewrite <- H0, <- Hd. split; [reflexivity|].
  exact Hq'.
Qed.

Lemma quiet_step (d : driver E) :
  pc d = AwaitingSurvey -> quiet (world d) ->
  pc (step d) = AwaitingSurvey /\ quiet (world (step d)) /\
  sent GridSurvey (trace (step d)) = S (sent GridSurvey (trace d)).
Proof.
  intros Hpc Hq.
  set (d1 := snd (send_command GridSurvey d)).
  assert (Hq1 : quiet (world d1)).
  { subst d1. rewrite send_command_eq. cbn. now apply quiet_write. }
  destruct (quiet_attempt GridSurveyMsg d1 Hq1) as [H0 Hq2].
  assert (Hrej : survey_attempt_rejected d).
  { unfold survey_attempt_rejected. cbv zeta. fold d1. rewrite H0.
    reflexivity. }
  destruct (rejected_survey_step d Hpc Hrej) as [Hp Hs].
  split; [exact Hp|]. split; [|exact Hs].
  unfold survey_attempt_rejected in Hrej. cbv zeta in Hrej.
  rewrite (step_survey_rejected d Hpc Hrej). exact Hq2.
Qed.

Lemma quiet_run n :
  forall d : driver E,
    pc d = AwaitingSurvey -> quiet (world d) ->
    pc (run_for n d) = AwaitingSurvey /\
    sent GridSurvey (trace (run_for n d))
    = (sent GridSurvey (trace d) + n)%nat.
Proof.
  induction n as [|n IH]; intros d Hpc Hq.
  - cbn. split; [exact Hpc|lia].
  - cbn [run_for]. destruct (quiet_step d Hpc Hq) as (Hp & Hq' & Hs).
    destruct (IH (step d) Hp Hq') as [Hp' Hs'].
    split; [exact Hp'|]. rewrite Hs', Hs. lia.
Qed.

(** X5: with a device that never sends a byte the driver never leaves the
    survey loop, whatever [should_exit()] would answer: after [n] turns it
    has written the survey command [n] times, has never polled for
    cancellation and has published nothing. *)
Theorem silent_device_cannot_be_cancelled (w : W E) (n : nat) :
  quiet w ->
  pc (run_for n (start E w)) = AwaitingSurvey /\
  sent GridSurvey (trace (run_for n (start E w))) = n /\
  polls (trace (run_for n (start E w))) = 0%nat /\
  published (trace (run_for n (start E w))) = [].
Proof.
  intros Hq. destruct (quiet_run n (start E w) eq_refl Hq) as [Hp Hs].
  pose proof (run_for_session_order n (start E w)) as Ho.
  unfold session_order in Ho. rewrite Hp in Ho.
  destruct Ho as (Hpub & _ & Hpolls); [repeat split|].
  auto.
Qed.

End SilentDevice.

(** ** Bursts, gaps and consecutive frames on the timed serial line *)

Lemma last_cons {A} (a d : A) (l : list A) : last (a :: l) d = last l a.
Proof.
  revert a d. induction l as [|x l IH]; intros a d; [reflexivity|].
  change (last (a :: x :: l) d) with (last (x :: l) d).
  now rewrite !IH.
Qed.

Lemma last_app_cons {A} (l1 : list A) (a : A) (l2 : list A) (d : A) :
  last (l1 ++ a :: l2) d = last l2 a.
Proof.
  revert d. induction l1 as [|x l1 IH]; intros d; cbn [app];
    [apply last_cons|].
  rewrite last_cons. apply IH.
Qed.

Module SerialLineMore.

Import SerialLine SerialLineFacts.

Lemma gaps_below_last gap :
  forall ts prev, gaps_below gap prev ts -> prev <= last ts prev.
Proof.
  induction ts as [|t ts IH]; intros prev Hg; [cbn; lia|].
  cbn [gaps_below] in Hg. destruct Hg as (Hle & _ & Hg).
  rewrite last_cons. specialize (IH t Hg). lia.
Qed.

(** What one [read] takes off the line, with the arrival times split into
    those taken and those left.  The read may ask for more than the burst
    holds, as long as what follows the burst has not arrived. *)
Lemma arrived_split (gap t : Z) (rest : list (Z * byte)) (extra : nat) :
  extra = 0%nat
  \/ match rest with [] => True | (t', _) :: _ => t < t' end ->
  forall todo ts prev,
    length ts = length todo ->
    gaps_below gap prev ts ->
    prev <= t ->
    exists taken ts' data todo',
      ts = taken ++ ts' /\ todo = data ++ todo' /\
      length taken = length data /\ length ts' = length todo' /\
      arrived t (length todo + extra) (combine ts todo ++ rest) = data /\
      skipn (length data) (combine ts todo ++ rest)
      = combine ts' todo' ++ rest /\
      prev <= last taken prev <= t /\
      match ts' with
      | [] => True
      | t' :: ts'' => t < t' /\ t' - t < gap /\ gaps_below gap t' ts''
      end.
Proof.
  intros Hbeyond.
  induction todo as [|b todo IH]; intros ts prev Hlen Hgaps Hprev.
  - destruct ts; [|discriminate]. exists [], [], [], [].
    cbn [length combine app Nat.add skipn last].
    repeat split; auto; try lia.
    destruct Hbeyond as [->|Hlate]; [reflexivity|].
    destruct extra; [reflexivity|]. destruct rest as [|[t' b'] rest'];
      [reflexivity|].
    cbn [arrived]. now replace (t' <=? t) with false
      by (symmetry; apply Z.leb_gt; exact Hlate).
  - destruct ts as [|t1 ts]; [discriminate|].
    cbn [gaps_below] in Hgaps. destruct Hgaps as (Hle & Hgap & Hgaps).
    cbn [length combine app arrived Nat.add].
    destruct (t1 <=? t) eqn:Ht1.
    + apply Z.leb_le in Ht1.
      destruct (IH ts t1)
        as (taken & ts' & data & todo' & H1 & H2 & H3 & H4 & H5 & H6 & H7 & H8);
        auto.
      exists (t1 :: taken), ts', (b :: data), todo'.
      cbn [app length skipn]. rewrite last_cons, H5.
      repeat split; auto; try congruence; lia.
    + apply Z.leb_gt in Ht1.
      exists [], (t1 :: ts), [], (b :: todo). cbn.
      repeat split; auto; lia.
Qed.

Lemma uart_select_due tv (d : driver env) t b q :
  rx (world d) = (t, b) :: q ->
  t - now (world d) < timeval_us tv ->
  exists d1,
    uart_select tv d = (1, d1) /\
    (forall m, get_msg m d1 = get_msg m d) /\
    rx (world d1) = rx (world d) /\
    now (world d1) = Z.max (now (world d)) t.
Proof.
  intros Hrx Hdue. rewrite uart_select_eq. cbn [env_select env].
  unfold select. rewrite Hrx.
  destruct (t <=? now (world d)) eqn:Hle.
  - apply Z.leb_le in Hle. eexists. split; [reflexivity|]. split.
    { intros m. now rewrite get_msg_log, get_msg_set_world. }
    cbn. rewrite Hrx. split; [reflexivity|]. lia.
  - apply Z.ltb_lt in Hdue. rewrite Hdue. apply Z.leb_gt in Hle.
    eexists. split; [reflexivity|]. split.
    { intros m. now rewrite get_msg_log, get_msg_set_world. }
    cbn. rewrite Hrx. split; [reflexivity|]. lia.
Qed.

Lemma get_msg_set_other m m' b (d : driver env) :
  m' <> m -> get_msg m' (set_msg m b d) = get_msg m' d.
Proof. destruct m, m'; intros H; try reflexivity; now destruct H. Qed.

Lemma uart_read_line m loc count (d : driver env) :
  let data := arrived (now (world d)) (Z.to_nat count) (rx (world d)) in
  exists d2,
    uart_read m loc count d = (Z.of_nat (length data), d2) /\
    get_msg m d2 = store (get_msg m d) loc data /\
    (forall m', m' <> m -> get_msg m' d2 = get_msg m' d) /\
    rx (world d2) = skipn (length data) (rx (world d)) /\
    now (world d2) = now (world d).
Proof.
  intros data. rewrite uart_read_eq. cbv zeta. cbn [env_read env].
  unfold read. cbn [fst snd bytes_read_of]. fold data.
  eexists. split; [reflexivity|].
  rewrite get_set_msg, get_msg_log, get_msg_set_world.
  split; [reflexivity|]. split.
  - intros m' Hm'. now rewrite get_msg_set_other, get_msg_log,
      get_msg_set_world.
  - destruct m; cbn; auto.
Qed.

(** A burst of bytes [todo] that arrive in time is taken in whole, provided
    it fills the message or what follows it on the line has not arrived by
    the time its last byte is read.  The loop carries on behind it, with the
    byte timeout, from a state that holds the burst in the message and has
    the clock at the later of where it was and the last arrival. *)
Lemma accumulate_burst fuel :
  forall m done todo ts rest tail tv (d : driver env),
    get_msg m d = done ++ tail ->
    Z.of_nat (length done + length tail) = sizeof_msg m ->
    (length todo <= length tail)%nat ->
    length ts = length todo ->
    rx (world d) = combine ts todo ++ rest ->
    match ts with
    | [] => True
    | t :: ts' =>
        t - now (world d) < timeval_us tv /\ gaps_below BYTE_TIMEOUT_US t ts'
    end ->
    length todo = length tail
    \/ match rest with
       | [] => True
       | (t', _) :: _ =>
           Z.max (now (world d)) (last ts (now (world d))) < t'
       end ->
    (length todo < fuel)%nat ->
    exists fuel' d',
      accumulate fuel m (Z.of_nat (length done)) tv d
      = accumulate fuel' m (Z.of_nat (length done + length todo))
                   (match todo with
                    | [] => tv
                    | _ => mkTimeval 0 BYTE_TIMEOUT_US
                    end) d' /\
      (0 < fuel')%nat /\
      get_msg m d' = done ++ todo ++ skipn (length todo) tail /\
      (forall m', m' <> m -> get_msg m' d' = get_msg m' d) /\
      rx (world d') = rest /\
      now (world d') = Z.max (now (world d)) (last ts (now (world d))).
Proof.
  induction fuel as [|fuel IH];
    intros m done todo ts rest tail tv d Hmsg Hsize Htail Hts Hrx Hdue Hbeyond
           Hfuel; [lia|].
  destruct todo as [|b todo].
  - destruct ts; [|discriminate].
    exists (S fuel), d. cbn [length last skipn app] in *.
    rewrite Nat.add_0_r. repeat split; auto; lia.
  - destruct ts as [|t ts]; [discriminate|]. destruct Hdue as [Hdue Hgaps].
    cbn [combine app length] in *.
    rewrite accumulate_unfold.
    replace (Z.of_nat (length done) <? sizeof_msg m) with true
      by (symmetry; apply Z.ltb_lt; lia).
    destruct (uart_select_due tv d t b _ Hrx Hdue)
      as (d1 & -> & Hother1 & Hrx1 & Hnow1).
    pose proof (Hother1 m) as Hmsg1.
    change (1 >? 0) with true. cbv iota.
    destruct (uart_read_line m (Z.of_nat (length done))
                (sizeof_msg m - Z.of_nat (length done)) d1)
      as (d2 & -> & Hmsg2 & Hother2 & Hrx2 & Hnow2).
    set (extra := (length tail - S (length todo))%nat).
    replace (Z.to_nat (sizeof_msg m - Z.of_nat (length done)))
      with (S (length todo + extra)) in * by (subst extra; lia).
    rewrite Hrx1, Hrx in *. cbn [arrived] in *.
    replace (t <=? now (world d1)) with true in *
      by (symmetry; apply Z.leb_le; lia).
    pose proof (gaps_below_last _ _ _ Hgaps) as Hlast.
    rewrite last_cons in *.
    destruct (arrived_split BYTE_TIMEOUT_US (now (world d1)) rest extra)
      with (todo := todo) (ts := ts) (prev := t)
      as (taken & ts' & data0 & todo' & Hsplit_t & Hsplit & Hlen_t & Hlen'
          & Harr & Hskip & Hlast_t & Hnext); auto; try lia.
    { destruct Hbeyond as [Hfull|Hlate]; [left; subst extra; lia|].
      right. destruct rest as [|[t' b'] rest']; [exact I|]. lia. }
    rewrite Harr in *. cbn [length skipn] in *.
    replace (Z.of_nat (S (length data0)) >? 0) with true
      by (symmetry; apply Z.gtb_lt; lia).
    replace (Z.of_nat (length done) + Z.of_nat (S (length data0)))
      with (Z.of_nat (length (done ++ b :: data0)))
      by (rewrite length_app; cbn [length]; lia).
    assert (Hlt : (length todo = length data0 + length todo')%nat)
      by (rewrite Hsplit at 1; now rewrite length_app).
    assert (HM : Z.max (now (world d2)) (last ts' (now (world d2)))
                 = Z.max (now (world d)) (last ts t)).
    { rewrite Hnow2, Hsplit_t. destruct ts' as [|t' ts''].
      - rewrite app_nil_r. cbn [last]. lia.
      - rewrite last_app_cons, last_cons.
        destruct Hnext as (Hnew & _ & Hg').
        pose proof (gaps_below_last _ _ _ Hg'). lia. }
    destruct (IH m (done ++ b :: data0) todo' ts' rest
                 (skipn (S (length data0)) tail)
                 (mkTimeval 0 BYTE_TIMEOUT_US) d2)
      as (fuel' & d' & R0 & R1 & R2 & R3 & R4 & R5).
    + rewrite Hmsg2, Hmsg1, Hmsg.
      destruct tail as [|x tail]; [cbn in Htail; lia|].
      rewrite store_at_end, <- app_assoc. reflexivity.
    + rewrite length_app, length_skipn. cbn [length]. lia.
    + rewrite length_skipn. lia.
    + exact Hlen'.
    + rewrite Hrx2. exact Hskip.
    + destruct ts' as [|t' ts'']; [exact I|]. rewrite Hnow2.
      destruct Hnext as (_ & Hn & Hg'). split; [exact Hn|exact Hg'].
    + rewrite HM.
      destruct Hbeyond as [Hfull|Hlate];
        [left; rewrite length_skipn; lia|right; exact Hlate].
    + lia.
    + exists fuel', d'. rewrite R0.
      replace (length (done ++ b :: data0) + length todo')%nat
        with (length done + S (length todo))%nat
        by (rewrite length_app; cbn [length]; lia).
      replace (match todo' with
               | [] => mkTimeval 0 BYTE_TIMEOUT_US
               | _ :: _ => mkTimeval 0 BYTE_TIMEOUT_US
               end) with (mkTimeval 0 BYTE_TIMEOUT_US)
        by (now destruct todo').
      split; [reflexivity|]. split; [exact R1|]. split.
      { rewrite R2, <- app_assoc. cbn [app]. rewrite skipn_skipn.
        change (match tail with [] => [] | _ :: l => skipn (length todo) l end)
          with (skipn (S (length todo)) tail).
        replace (length todo' + S (length data0))%nat
          with (S (length todo)) by lia.
        do 2 f_equal. rewrite app_assoc. f_equal. symmetry. exact Hsplit. }
      split.
      { intros m' Hm'. now rewrite R3, Hother2, Hother1. }
      split; [exact R4|]. rewrite R5. exact HM.
Qed.

Lemma accumulate_full fuel m loc tv (d : driver env) :
  sizeof_msg m <= loc ->
  accumulate (S fuel) m loc tv d = (Some loc, d).
Proof.
  intros Hfull. rewrite accumulate_unfold.
  now replace (loc <? sizeof_msg m) with false
    by (symmetry; now apply Z.ltb_ge).
Qed.


(** One attempt on a frame that arrives in time, with the clock it leaves
    behind. *)
Lemma frame_attempt_burst m frame t0 times rest (d : driver env) :
  Z.of_nat (length frame) = sizeof_msg m ->
  length (t0 :: times) = length frame ->
  Z.of_nat (length (get_msg m d)) = sizeof_msg m ->
  rx (world d) = timed (t0 :: times) frame ++ rest ->
  t0 - now (world d)
    < timeval_us (mkTimeval MESSAGE_TIMEOUT_S MESSAGE_TIMEOUT_US) ->
  gaps_below BYTE_TIMEOUT_US t0 times ->
  fst (frame_attempt m d) = sizeof_msg m /\
  get_msg m (snd (frame_attempt m d)) = frame /\
  (forall m', m' <> m ->
     get_msg m' (snd (frame_attempt m d)) = get_msg m' d) /\
  rx (world (snd (frame_attempt m d))) = rest /\
  now (world (snd (frame_attempt m d)))
  = Z.max (now (world d)) (last times t0).
Proof.
  intros Hframe Htimes Hbuf Hrx Hfirst Hgaps.
  destruct (accumulate_burst (S (Z.to_nat (sizeof_msg m))) m [] frame
              (t0 :: times) rest (get_msg m d)
              (mkTimeval MESSAGE_TIMEOUT_S MESSAGE_TIMEOUT_US) d)
    as (fuel' & d' & R0 & R1 & R2 & R3 & R4 & R5).
  { reflexivity. }
  { cbn [length Nat.add]. exact Hbuf. }
  { lia. }
  { exact Htimes. }
  { exact Hrx. }
  { split; [exact Hfirst|exact Hgaps]. }
  { left. lia. }
  { lia. }
  cbn [length Nat.add Z.of_nat] in R0. rewrite frame_attempt_eq in R0.
  destruct fuel' as [|fuel']; [lia|].
  rewrite accumulate_full in R0 by lia. injection R0 as H0 Hd.
  rewrite H0, Hd, R2, R4, R5, last_cons. cbn [app].
  rewrite skipn_all2 by lia. rewrite app_nil_r.
  repeat split; auto; lia.
Qed.

(** X6: two frames that follow each other on the line are taken apart, not
    merged: the attempt for the first stops at its size and leaves the
    second untouched, and the next attempt rebuilds the second.  The two may
    be of different kinds (the survey answer, then a distance result) or of
    the same. *)
Theorem consecutive_frames_are_not_merged
    (m1 m2 : msgbuf) (f1 f2 : list byte) (t1 t2 : Z) (ts1 ts2 : list Z)
    (rest : list (Z * byte)) (d : driver env) :
  Z.of_nat (length f1) = sizeof_msg m1 ->
  length (t1 :: ts1) = length f1 ->
  Z.of_nat (length f2) = sizeof_msg m2 ->
  length (t2 :: ts2) = length f2 ->
  Z.of_nat (length (get_msg m1 d)) = sizeof_msg m1 ->
  Z.of_nat (length (get_msg m2 d)) = sizeof_msg m2 ->
  rx (world d) = timed (t1 :: ts1) f1 ++ timed (t2 :: ts2) f2 ++ rest ->
  t1 - now (world d)
    < timeval_us (mkTimeval MESSAGE_TIMEOUT_S MESSAGE_TIMEOUT_US) ->
  gaps_below BYTE_TIMEOUT_US t1 ts1 ->
  t2 - last ts1 t1
    < timeval_us (mkTimeval MESSAGE_TIMEOUT_S MESSAGE_TIMEOUT_US) ->
  gaps_below BYTE_TIMEOUT_US t2 ts2 ->
  let d1 := snd (frame_attempt m1 d) in
  fst (frame_attempt m1 d) = sizeof_msg m1 /\
  get_msg m1 d1 = f1 /\
  rx (world d1) = timed (t2 :: ts2) f2 ++ rest /\
  fst (frame_attempt m2 d1) = sizeof_msg m2 /\
  get_msg m2 (snd (frame_attempt m2 d1)) = f2 /\
  rx (world (snd (frame_attempt m2 d1))) = rest.
Proof.
  intros Hf1 Ht1 Hf2 Ht2 Hb1 Hb2 Hrx Hdue1 Hg1 Hdue2 Hg2 d1.
  destruct (frame_attempt_burst m1 f1 t1 ts1 _ d Hf1 Ht1 Hb1 Hrx Hdue1 Hg1)
    as (A1 & A2 & A3 & A4 & A5).
  fold d1 in A2, A3, A4, A5.
  assert (Hb2' : Z.of_nat (length (get_msg m2 d1)) = sizeof_msg m2).
  { destruct m1, m2; try (rewrite A2; exact Hf1);
      rewrite A3 by discriminate; exact Hb2. }
  destruct (frame_attempt_burst m2 f2 t2 ts2 rest d1 Hf2 Ht2 Hb2' A4)
    as (B1 & B2 & _ & B4 & _); [rewrite A5; lia|exact Hg2|].
  repeat split; auto.
Qed.





End SerialLineMore.

(** ** A ranging turn on the timed serial line *)

Section RangingTurn.

Context {E : Env} {hdr : Header}.

(** The accepting turn of the ranging loop, with the time stamp and the
    world spelled out. *)
Lemma step_ranging_accepted_eq (d : driver E) :
  pc d = Ranging ->
  fst (env_should_exit E (world d)) = false ->
  let d1 := snd (should_exit d) in
  let loc := fst (frame_attempt DistanceResultMsg d1) in
  let d2 := snd (frame_attempt DistanceResultMsg d1) in
  acceptable DistanceResultMsg loc (_distance_result_msg d2) = true ->
  step d =
  mkDriver (pc d2) (snd (env_hrt_absolute_time E (world d2)))
    (trace d2 ++ [EvAttitudeUpdate;
                  EvPublishDistance (fst (env_hrt_absolute_time E (world d2)))
                                    (_distance_result_msg d2)])
    (_read_count_perf d2 + 1) (_read_err_perf d2)
    (_grid_survey_msg d2) (_distance_result_msg d2).
Proof.
  intros Hpc Hexit d1 loc d2 Hacc. unfold step. rewrite Hpc.
  unfold ranging_iteration, bind at 1. subst d1 loc d2.
  rewrite should_exit_eq in *. rewrite Hexit in *. cbn [snd] in *.
  unfold ranging_body, bind at 1.
  destruct (frame_attempt DistanceResultMsg _) as [loc d2].
  cbn [fst snd] in *. run_actions. rewrite Hacc. run_actions.
  destruct (env_hrt_absolute_time E (world d2)) as [t w1]. run_actions.
  rewrite <- !app_assoc. reflexivity.
Qed.

End RangingTurn.

Module SerialSession.

Import SerialLine SerialLineFacts SerialLineMore.

(** X8: a distance result that arrives in time with the stop byte is
    published as it is.  One turn of the ranging loop, not cancelled,
    publishes exactly the frame, stamped with the time its last byte was
    read; the error counter stays, and what follows the frame is still on
    the line. *)
Theorem frame_in_time_is_published `{Header}
    (frame : list byte) (t0 : Z) (times : list Z) (rest : list (Z * byte))
    (d : driver env) :
  pc d = Ranging ->
  now (world d) < exit_at (world d) ->
  Z.of_nat (length frame) = sizeof_distance_msg_t ->
  length (t0 :: times) = length frame ->
  Z.of_nat (length (_distance_result_msg d)) = sizeof_distance_msg_t ->
  rx (world d) = timed (t0 :: times) frame ++ rest ->
  t0 - now (world d)
    < timeval_us (mkTimeval MESSAGE_TIMEOUT_S MESSAGE_TIMEOUT_US) ->
  gaps_below BYTE_TIMEOUT_US t0 times ->
  stop frame = x1b ->
  pc (step d) = Ranging /\
  published (trace (step d))
  = published (trace d)
      ++ [EvPublishDistance (Z.max (now (world d)) (last times t0)) frame] /\
  _read_err_perf (step d) = _read_err_perf d /\
  _read_count_perf (step d) = _read_count_perf d + 1 /\
  _distance_result_msg (step d) = frame /\
  rx (world (step d)) = rest.
Proof.
  intros Hpc Hlive Hframe Htimes Hbuf Hrx Hdue Hgaps Hstop.
  assert (Hexit : fst (env_should_exit env (world d)) = false).
  { cbn. apply Z.leb_gt. exact Hlive. }
  set (d1 := snd (should_exit d)).
  assert (Hd1 : world d1 = world d /\ pc d1 = pc d /\
                trace d1 = trace d ++ [EvShouldExit false] /\
                _read_err_perf d1 = _read_err_perf d /\
                _read_count_perf d1 = _read_count_perf d /\
                _distance_result_msg d1 = _distance_result_msg d).
  { subst d1. rewrite should_exit_eq. cbn [snd]. rewrite Hexit.
    repeat split; reflexivity. }
  destruct Hd1 as (Hw1 & Hpc1 & Htr1 & He1 & Hc1 & Hm1).
  destruct (frame_attempt_burst DistanceResultMsg frame t0 times rest d1)
    as (A1 & A2 & _ & A4 & A5).
  { exact Hframe. }
  { exact Htimes. }
  { cbn [get_msg]. rewrite Hm1. exact Hbuf. }
  { rewrite Hw1. exact Hrx. }
  { rewrite Hw1. exact Hdue. }
  { exact Hgaps. }
  destruct (frame_attempt_only_waits DistanceResultMsg d1) as [evs Hw].
  set (d2 := snd (frame_attempt DistanceResultMsg d1)) in *.
  cbn [get_msg] in A2.
  assert (Hacc : acceptable DistanceResultMsg
                   (fst (frame_attempt DistanceResultMsg d1))
                   (_distance_result_msg d2) = true).
  { apply acceptable_iff. rewrite A1, A2. split; [reflexivity|exact Hstop]. }
  rewrite (step_ranging_accepted_eq d Hpc Hexit Hacc). fold d1 d2.
  driver_fields. cbn [env_hrt_absolute_time env fst snd].
  rewrite (ow_pc _ _ _ Hw), (ow_err _ _ _ Hw), (ow_count _ _ _ Hw),
    (ow_trace _ _ _ Hw), Hpc1, He1, Hc1, Htr1, A2, A4, A5, Hw1.
  rewrite !published_app, (waits_published evs (ow_waits _ _ _ Hw)).
  cbn. rewrite !app_nil_r. repeat split; auto.
Qed.

End SerialSession.

(** ** Start-up, continued *)

Section StartUpFacts.

Context {platform : Platform}.

Lemma getopt_loop_printed opts :
  forall l0,
    printed (getopt_loop opts l0)
    = printed l0 ++ map UnrecognizedFlag (unrecognized_flags opts).
Proof.
  unfold unrecognized_flags.
  induction opts as [|[ch arg] rest IH]; intros l0.
  - cbn. now rewrite app_nil_r.
  - cbn [getopt_loop filter fst]. rewrite IH.
    unfold handle_option, recognized.
    destruct (Ascii.eqb ch "d"); [reflexivity|].
    destruct (Ascii.eqb ch "b"); [reflexivity|].
    cbn. now rewrite <- app_assoc.
Qed.

(** X9: what [instantiate] prints.  Every unrecognized flag is warned
    about, in order; a usage text follows only when no flag was unrecognized,
    and then for the first thing missing only: the device name if there is
    none, else the baud rate if it is missing or zero; the last line says
    that the start failed, or which device the driver is constructed for. *)
Theorem instantiate_reports_first_problem
    (opts : list (ascii * String.string)) :
  snd (instantiate opts)
  = map UnrecognizedFlag (unrecognized_flags opts)
    ++ (if unrecognized_flag_present opts then [FailedToStart]
        else
          match option_value "d" opts with
          | None => [UsageDeviceNameNotProvided; FailedToStart]
          | Some dev =>
              if match option_value "b" opts with
                 | Some arg => px4_get_parameter_value arg
                 | None => 0
                 end =? 0
              then [UsageBaudrateNotProvided; FailedToStart]
              else [Constructing (Some dev)]
          end).
Proof.
  unfold instantiate.
  destruct (getopt_loop_spec opts (mkLocals None false 0 []))
    as (Hd & Hb & He).
  pose proof (getopt_loop_printed opts (mkLocals None false 0 [])) as Hp.
  set (l := getopt_loop opts (mkLocals None false 0 [])) in *.
  cbn [device_name baudrate error_flag printed orb app] in Hd, Hb, He, Hp.
  unfold check_baudrate, check_device_name. rewrite He.
  destruct (unrecognized_flag_present opts); cbn [negb andb].
  { rewrite He. cbn [negb andb]. rewrite He, Hp. reflexivity. }
  rewrite Hd.
  destruct (option_value "d" opts) as [dev|];
    cbn [error_flag negb andb device_name baudrate printed].
  2:{ rewrite Hp, <- app_assoc. reflexivity. }
  rewrite He. cbn [negb andb]. rewrite Hb.
  destruct (match option_value "b" opts with
            | Some a => px4_get_parameter_value a
            | None => 0
            end =? 0);
    cbn [error_flag device_name baudrate printed].
  - rewrite Hp, <- app_assoc. reflexivity.
  - rewrite He, Hd, Hp. reflexivity.
Qed.

End StartUpFacts.

(** X10: [int_to_speed] undoes [speed_value]: each of the five speeds comes
    back from its own rate.  In the other direction a rate comes back from
    its speed exactly when it is one of the five; every other rate, zero and
    negative ones included, gets the speed of 115200. *)
Theorem int_to_speed_round_trip :
  (forall s, int_to_speed (speed_value s) = s) /\
  (forall v, speed_value (int_to_speed v) = v <-> supported_baud v) /\
  (forall v, ~ supported_baud v -> int_to_speed v = B115200).
Proof.
  split; [|split].
  - intros []; reflexivity.
  - intros v. split; [|apply int_to_speed_supported].
    intros Hv. rewrite <- Hv. unfold supported_baud.
    destruct (int_to_speed v); cbn; auto 10.
  - apply int_to_speed_default.
Qed.

Section ConstructorFacts.

Context {tty : Tty}.

(** X11: the constructor makes its calls in one order (open, tcgetattr,
    cfsetispeed, cfsetospeed, tcsetattr) and stops at the first that fails.
    Every call but the last one made returned a value that is not negative.
    The constructor takes an [err] exit exactly when the last call it made
    returned a negative value, and the exit is the one that blames that
    call.  It completes exactly when all five calls were made and none
    returned a negative value; it then keeps the descriptor [open] returned,
    which is not negative. *)
Theorem constructor_stops_at_first_failure
    (device_name : option String.string) (baudrate : speed_t) :
  let calls := fst (RDDrone_new device_name baudrate) in
  let final := last calls (CallOpen device_name) in
  map kind_of calls
  = firstn (length calls) [KOpen; KGetattr; KIspeed; KOspeed; KSetattr] /\
  hd_error calls = Some (CallOpen device_name) /\
  Forall (fun c => 0 <= returned c) (removelast calls) /\
  match snd (RDDrone_new device_name baudrate) with
  | inl e => returned final < 0 /\ kind_of final = blamed e
  | inr fd =>
      length calls = 5%nat /\ 0 <= returned final /\
      fd = sys_open device_name /\ 0 <= fd
  end.
Proof.
  unfold RDDrone_new.
  destruct (sys_open device_name <? 0) eqn:Hopen.
  { apply Z.ltb_lt in Hopen. cbn. repeat split; auto. }
  apply Z.ltb_ge in Hopen.
  destruct (sys_tcgetattr (sys_open device_name) termios_zero)
    as [r1 c1] eqn:Hget.
  assert (Hr1 : returned (CallTcgetattr (sys_open device_name)) = r1).
  { cbn [returned]. now rewrite Hget. }
  destruct (r1 <? 0) eqn:H1.
  { apply Z.ltb_lt in H1. cbn [fst snd app last removelast map length firstn
                                hd_error kind_of blamed].
    rewrite Hr1. repeat split; auto. }
  apply Z.ltb_ge in H1.
  destruct (sys_cfsetispeed (clear_onlcr c1) baudrate) as [r2 c2] eqn:Hin.
  assert (Hr2 : returned (CallCfsetispeed (clear_onlcr c1) baudrate) = r2).
  { cbn [returned]. now rewrite Hin. }
  destruct (r2 <? 0) eqn:H2.
  { apply Z.ltb_lt in H2. cbn [fst snd app last removelast map length firstn
                                hd_error kind_of blamed].
    rewrite Hr2. repeat split; auto.
    repeat constructor; [exact Hopen|now rewrite Hr1]. }
  apply Z.ltb_ge in H2.
  destruct (sys_cfsetospeed c2 baudrate) as [r3 c3] eqn:Hout.
  assert (Hr3 : returned (CallCfsetospeed c2 baudrate) = r3).
  { cbn [returned]. now rewrite Hout. }
  destruct (r3 <? 0) eqn:H3.
  { apply Z.ltb_lt in H3. cbn [fst snd app last removelast map length firstn
                                hd_error kind_of blamed].
    rewrite Hr3. repeat split; auto.
    repeat constructor; [exact Hopen|now rewrite Hr1|now rewrite Hr2]. }
  apply Z.ltb_ge in H3.
  destruct (sys_tcsetattr (sys_open device_name) c3 <? 0) eqn:H4.
  { apply Z.ltb_lt in H4. cbn [fst snd app last removelast map length firstn
                                hd_error kind_of blamed returned].
    repeat split; auto.
    repeat constructor;
      [exact Hopen|now rewrite Hr1|now rewrite Hr2|now rewrite Hr3]. }
  apply Z.ltb_ge in H4.
  cbn [fst snd app last removelast map length firstn hd_error kind_of
       returned].
  repeat split; auto.
  repeat constructor;
    [exact Hopen|now rewrite Hr1|now rewrite Hr2|now rewrite Hr3].
Qed.

Lemma ldiff_le_l (a b : Z) : 0 <= a -> 0 <= Z.ldiff a b <= a.
Proof.
  intros Ha. split; [apply Z.ldiff_nonneg; now left|].
  assert (Hdisj : Z.land (Z.ldiff a b) (Z.land a b) = 0).
  { apply Z.bits_inj'. intros n Hn.
    rewrite !Z.land_spec, Z.ldiff_spec, Z.bits_0.
    destruct (Z.testbit a n), (Z.testbit b n); reflexivity. }
  pose proof (Z.add_nocarry_lxor _ _ Hdisj) as Hsum.
  rewrite (Z.lxor_lor _ _ Hdisj), Z.lor_ldiff_and in Hsum.
  assert (0 <= Z.land a b) by (apply Z.land_nonneg; now left).
  lia.
Qed.

(** X12: the one change the constructor makes to the port configuration.
    The configuration it hands to [cfsetispeed], with the baud rate it was
    given, is the one [tcgetattr] filled in, with the bits of [ONLCR]
    cleared in [c_oflag] and every other bit and field as it was; the flag
    word does not grow. *)
Theorem constructor_clears_only_onlcr
    (device_name : option String.string) (baudrate : speed_t)
    (cfg : termios) (speed : speed_t) :
  In (CallCfsetispeed cfg speed) (fst (RDDrone_new device_name baudrate)) ->
  let got := snd (sys_tcgetattr (sys_open device_name) termios_zero) in
  speed = baudrate /\
  snd cfg = snd got /\
  (forall i, Z.testbit (c_oflag cfg) i
             = Z.testbit (c_oflag got) i && negb (Z.testbit ONLCR i)) /\
  (0 <= c_oflag got -> 0 <= c_oflag cfg <= c_oflag got).
Proof.
  unfold RDDrone_new.
  destruct (sys_open device_name <? 0).
  { cbn. intros [H|[]]. discriminate H. }
  destruct (sys_tcgetattr (sys_open device_name) termios_zero) as [r1 c1].
  destruct (r1 <? 0).
  { cbn. intros [H|[H|[]]]; discriminate H. }
  assert (Hcfg : forall calls,
             In (CallCfsetispeed cfg speed) calls ->
             (forall c, In c calls ->
                kind_of c = KIspeed ->
                c = CallCfsetispeed (clear_onlcr c1) baudrate) ->
             cfg = clear_onlcr c1 /\ speed = baudrate).
  { intros calls Hin Hall. specialize (Hall _ Hin eq_refl).
    injection Hall as -> ->. auto. }
  intros Hin. cbn [snd]. apply Hcfg in Hin.
  - destruct Hin as [-> ->]. unfold clear_onlcr, c_oflag. cbn [fst snd].
    rewrite <- Z.ldiff_land.
    split; [reflexivity|]. split; [reflexivity|]. split.
    + intros i. apply Z.ldiff_spec.
    + apply ldiff_le_l.
  - intros c Hc Hk.
    destruct (sys_cfsetispeed (clear_onlcr c1) baudrate) as [r2 c2].
    destruct (r2 <? 0).
    { cbn in Hc. destruct Hc as [<-|[<-|[<-|[]]]]; try discriminate Hk.
      reflexivity. }
    destruct (sys_cfsetospeed c2 baudrate) as [r3 c3].
    destruct (r3 <? 0).
    { cbn in Hc. destruct Hc as [<-|[<-|[<-|[<-|[]]]]];
        try discriminate Hk. reflexivity. }
    destruct (sys_tcsetattr (sys_open device_name) c3 <? 0);
      cbn in Hc; destruct Hc as [<-|[<-|[<-|[<-|[<-|[]]]]]];
      try discriminate Hk; reflexivity.
Qed.

(** X13: start-up end to end.  A command line that [instantiate] refuses
    makes no system call.  One it accepts has a device name and a baud rate
    that is not zero; the first call opens that device, and the only speed
    ever asked of the platform is the one [int_to_speed] gives for that
    rate, 115200 for a rate it has no case for. *)
Theorem start_up_opens_device_at_speed `{Platform}
    (opts : list (ascii * String.string)) :
  (fst (instantiate opts) = None <-> instantiate_new opts = None) /\
  (forall calls r,
     instantiate_new opts = Some (calls, r) ->
     exists dev arg,
       option_value "d" opts = Some dev /\
       option_value "b" opts = Some arg /\
       px4_get_parameter_value arg <> 0 /\
       hd_error calls = Some (CallOpen (Some dev)) /\
       forall c, In c calls ->
         match c with
         | CallCfsetispeed _ s | CallCfsetospeed _ s =>
             s = int_to_speed (px4_get_parameter_value arg)
         | _ => True
         end).
Proof.
  unfold instantiate_new. rewrite instantiate_result. cbv zeta.
  destruct (getopt_loop_spec opts (mkLocals None false 0 []))
    as (Hd & Hb & He).
  cbn [device_name baudrate error_flag orb] in Hd, Hb, He.
  rewrite Hd, Hb, He.
  destruct (unrecognized_flag_present opts); cbn [orb].
  { split; [tauto|discriminate]. }
  destruct (option_value "d" opts) as [dev|]; cbn [orb].
  2:{ split; [tauto|discriminate]. }
  destruct (option_value "b" opts) as [arg|].
  2:{ cbn. split; [tauto|discriminate]. }
  destruct (Z.eqb_spec (px4_get_parameter_value arg) 0) as [H0|H0].
  { split; [tauto|discriminate]. }
  split; [split; discriminate|].
  intros calls r [= Hnew]. exists dev, arg.
  split; [reflexivity|]. split; [reflexivity|]. split; [exact H0|].
  revert Hnew. unfold RDDrone_new.
  set (speed := int_to_speed (px4_get_parameter_value arg)).
  destruct (sys_open (Some dev) <? 0).
  { intros [= <- _]. split; [reflexivity|].
    intros c [<-|[]]. exact I. }
  destruct (sys_tcgetattr (sys_open (Some dev)) termios_zero) as [r1 c1].
  destruct (r1 <? 0).
  { intros [= <- _]. split; [reflexivity|].
    intros c [<-|[<-|[]]]; exact I. }
  destruct (sys_cfsetispeed (clear_onlcr c1) speed) as [r2 c2].
  destruct (r2 <? 0).
  { intros [= <- _]. split; [reflexivity|].
    intros c [<-|[<-|[<-|[]]]]; (exact I || reflexivity). }
  destruct (sys_cfsetospeed c2 speed) as [r3 c3].
  destruct (r3 <? 0).
  { intros [= <- _]. split; [reflexivity|].
    intros c [<-|[<-|[<-|[<-|[]]]]]; (exact I || reflexivity). }
  destruct (sys_tcsetattr (sys_open (Some dev)) c3 <? 0);
    intros [= <- _]; (split; [reflexivity|]);
    intros c [<-|[<-|[<-|[<-|[<-|[]]]]]]; (exact I || reflexivity).
Qed.

End ConstructorFacts.

(** ** The further properties on the example sessions *)

(** X4 on the result cut short: twenty bytes in front, the older result
    behind them. *)
Lemma attempt_stores_what_was_read_witness :
  let d := MoreExamples.gap_then_result in
  read_within_count SerialLine.env /\
  Z.of_nat (length (get_msg DistanceResultMsg d))
  = sizeof_msg DistanceResultMsg /\
  exists evs,
    trace (snd (frame_attempt DistanceResultMsg d)) = trace d ++ evs /\
    fst (frame_attempt DistanceResultMsg d)
    = Z.of_nat (length (received evs)) /\
    get_msg DistanceResultMsg (snd (frame_attempt DistanceResultMsg d))
    = received evs
        ++ skipn (length (received evs)) (get_msg DistanceResultMsg d) /\
    (fst (frame_attempt DistanceResultMsg d) = sizeof_msg DistanceResultMsg ->
     get_msg DistanceResultMsg (snd (frame_attempt DistanceResultMsg d))
     = received evs).
Proof.
  intros d. split; [exact serial_line_read_within_count|].
  split; [reflexivity|].
  exact (attempt_stores_what_was_read DistanceResultMsg d
           serial_line_read_within_count eq_refl).
Defined.

(** X5 on the dead line: four turns, four survey commands, no poll, although
    cancellation was requested all along. *)
Lemma silent_device_cannot_be_cancelled_witness :
  let quiet := fun l : SerialLine.line => SerialLine.rx l = [] in
  let d := run_for (hdr := Examples.header) 4
                   (start SerialLine.env MoreExamples.dead_line) in
  quiet MoreExamples.dead_line /\
  fst (env_should_exit SerialLine.env MoreExamples.dead_line) = true /\
  pc d = AwaitingSurvey /\
  sent GridSurvey (trace d) = 4%nat /\
  polls (trace d) = 0%nat /\
  published (trace d) = [].
Proof.
  intros quiet d. split; [reflexivity|]. split; [reflexivity|].
  apply (silent_device_cannot_be_cancelled (E := SerialLine.env)
           (hdr := Examples.header) quiet).
  - intros tv w Hw. unfold quiet in *. cbn. unfold SerialLine.select.
    rewrite Hw. cbn. split; [lia|exact Hw].
  - intros data count w Hw. exact Hw.
  - reflexivity.
Defined.

(** X6 on the survey answer followed by a distance result. *)
Lemma consecutive_frames_are_not_merged_witness :
  let d := MoreExamples.survey_then_result in
  let d1 := snd (frame_attempt GridSurveyMsg d) in
  SerialLine.gaps_below BYTE_TIMEOUT_US 100 (tl MoreExamples.survey_times) /\
  SerialLine.gaps_below BYTE_TIMEOUT_US 33000
                        (tl MoreExamples.result_times) /\
  fst (frame_attempt GridSurveyMsg d) = 163 /\
  get_msg GridSurveyMsg d1 = MoreExamples.survey_frame /\
  SerialLine.rx (world d1)
  = SerialLine.timed MoreExamples.result_times Examples.distance_frame ++ [] /\
  fst (frame_attempt DistanceResultMsg d1) = 51 /\
  get_msg DistanceResultMsg (snd (frame_attempt DistanceResultMsg d1))
  = Examples.distance_frame /\
  SerialLine.rx (world (snd (frame_attempt DistanceResultMsg d1))) = [].
Proof.
  intros d d1.
  assert (H1 : SerialLine.gaps_below BYTE_TIMEOUT_US 100
                 (tl MoreExamples.survey_times)).
  { cbv. repeat split; discriminate. }
  assert (H2 : SerialLine.gaps_below BYTE_TIMEOUT_US 33000
                 (tl MoreExamples.result_times)).
  { cbv. repeat split; discriminate. }
  split; [exact H1|]. split; [exact H2|].
  exact (SerialLineMore.consecutive_frames_are_not_merged
           GridSurveyMsg DistanceResultMsg
           MoreExamples.survey_frame Examples.distance_frame 100 33000
           (tl MoreExamples.survey_times) (tl MoreExamples.result_times) [] d
           eq_refl eq_refl eq_refl eq_refl eq_refl eq_refl eq_refl eq_refl
           H1 eq_refl H2).
Defined.


(** X8 on the timed line of the first examples: one turn publishes the
    distance result, stamped 50100. *)
Lemma frame_in_time_is_published_witness :
  let d := Examples.on_the_line in
  SerialLine.gaps_below BYTE_TIMEOUT_US 100 (tl Examples.arrival_times) /\
  pc (step (hdr := Examples.header) d) = Ranging /\
  published (trace (step (hdr := Examples.header) d))
  = [EvPublishDistance 50100 Examples.distance_frame] /\
  _read_err_perf (step (hdr := Examples.header) d) = 0 /\
  _read_count_perf (step (hdr := Examples.header) d) = 1 /\
  _distance_result_msg (step (hdr := Examples.header) d)
  = Examples.distance_frame /\
  SerialLine.rx (world (step (hdr := Examples.header) d)) = [(50200, x8e)].
Proof.
  intros d.
  assert (Hgaps : SerialLine.gaps_below BYTE_TIMEOUT_US 100
                    (tl Examples.arrival_times)).
  { cbv. repeat split; discriminate. }
  split; [exact Hgaps|].
  exact (SerialSession.frame_in_time_is_published (H := Examples.header)
           Examples.distance_frame 100 (tl Examples.arrival_times)
           [(50200, x8e)] d
           eq_refl eq_refl eq_refl eq_refl eq_refl eq_refl eq_refl Hgaps
           eq_refl).
Defined.

(** X11 on the port that refuses the input speed: three calls, the first
    two answered with 3 and 0, the third with -1, and the exit that blames
    it. *)
Lemma constructor_stops_at_first_failure_witness :
  let calls := fst (@RDDrone_new MoreExamples.no_input_speed None B57600) in
  map kind_of calls = [KOpen; KGetattr; KIspeed] /\
  snd (@RDDrone_new MoreExamples.no_input_speed None B57600)
  = inl FailedToSetInputSpeed /\
  Forall (fun c => 0 <= returned c) (removelast calls) /\
  returned (last calls (CallOpen None)) < 0.
Proof.
  intros calls. split; [reflexivity|]. split; [reflexivity|].
  pose proof (@constructor_stops_at_first_failure MoreExamples.no_input_speed
                None B57600) as H.
  cbv zeta in H. destruct H as (_ & _ & Hall & Hlast).
  split; [exact Hall|]. exact (proj1 Hlast).
Defined.

(** X12 on the example port: of the flag word 5 the constructor leaves 1. *)
Lemma constructor_clears_only_onlcr_witness :
  In (@CallCfsetispeed MoreExamples.tty (1, tt) B57600)
     (fst (@RDDrone_new MoreExamples.tty None B57600)) /\
  (forall i, Z.testbit 1 i = Z.testbit 5 i && negb (Z.testbit 4 i)) /\
  (0 <= 5 -> 0 <= 1 <= 5).
Proof.
  assert (Hin : In (@CallCfsetispeed MoreExamples.tty (1, tt) B57600)
                   (fst (@RDDrone_new MoreExamples.tty None B57600))).
  { cbn. auto. }
  split; [exact Hin|].
  exact (proj2 (proj2 (@constructor_clears_only_onlcr MoreExamples.tty
                         None B57600 (1, tt) B57600 Hin))).
Defined.

(** X13 on the two command lines of the first examples. *)
Lemma start_up_opens_device_at_speed_witness :
  @instantiate_new MoreExamples.tty Examples.platform Examples.no_rate
  = None /\
  exists calls r dev arg,
    @instantiate_new MoreExamples.tty Examples.platform
                     Examples.unsupported_rate = Some (calls, r) /\
    option_value "d" Examples.unsupported_rate = Some dev /\
    option_value "b" Examples.unsupported_rate = Some arg /\
    hd_error calls = Some (@CallOpen MoreExamples.tty (Some dev)) /\
    In (@CallCfsetispeed MoreExamples.tty (1, tt) B115200) calls.
Proof.
  split.
  - apply (proj1 (@start_up_opens_device_at_speed MoreExamples.tty
                    Examples.platform Examples.no_rate)).
    reflexivity.
  - destruct (@instantiate_new MoreExamples.tty Examples.platform
                Examples.unsupported_rate) as [[calls r]|] eqn:Hnew;
      [|discriminate Hnew].
    destruct (proj2 (@start_up_opens_device_at_speed MoreExamples.tty
                       Examples.platform Examples.unsupported_rate)
                    calls r Hnew)
      as (dev & arg & Hd & Hb & _ & Hhd & _).
    exists calls, r, dev, arg. repeat split; auto.
    injection Hnew as <- _. cbn. auto.
Defined.

(** C9 on a whole session whose second write comes short: three commands,
    each handed over whole, and one error for the seven bytes. *)
Lemma command_frames_written_whole_witness :
  let d := run_for (hdr := Examples.header) 3
                   (start Scripted.env MoreExamples.short_write) in
  pc d = Stopped /\
  written_frames (trace d)
  = [(GridSurvey, 20); (DistanceResult, 7); (StopRanging, 20)] /\
  command_io (trace d)
  = [EvWrite GridSurvey (@CMD_GRID_SURVEY Examples.header) 20 20;
     EvWrite DistanceResult (@CMD_DISTANCE_RESULT Examples.header) 20 7;
     EvShortWrite 7 20;
     EvWrite StopRanging ([x8e; x00; x11; x00] ++ repeat x00 16) 20 20].
Proof.
  intros d. split; [reflexivity|]. split; [reflexivity|].
  pose proof (command_frames_written_whole (E := Scripted.env)
                (hdr := Examples.header) MoreExamples.short_write 3) as H.
  cbv zeta in H. destruct H as (_ & _ & _ & Hio & _).
  fold d in Hio. rewrite Hio. reflexivity.
Defined.
